(** * FanControlProject: the EC access layer of [fan_control.cpp]

    A shallow embedding of [FanController] (fan_control.h, fan_control.cpp):
    the controller object is a record, every call that leaves the
    controller (the Win32 loader, the functions resolved from
    winring_wrapper.dll, the two I/O ports behind them) is an event of a
    trace, and what those calls answer is given by an environment that
    sees the whole history.  The member functions are programs of a small
    state monad over the pair (controller, trace).

    The helpers of the editor in main.cpp and the exported functions of
    winring_wrapper.cpp are embedded in the same way, in the modules
    [Gui] and [Wrapper]. *)

From Stdlib Require Import ZArith List String Ascii Bool Lia.
From Stdlib Require Import Floats Uint63 DecimalString.
From Stdlib Require Import Permutation Sorted.
Import ListNotations.
Open Scope Z_scope.

(** ** Machine integers and strings *)

(** Conversion to [uint8_t], [uint16_t], [uint32_t]. *)
Definition u8 (z : Z) : Z := z mod 256.
Definition u16 (z : Z) : Z := z mod 65536.
Definition u32 (z : Z) : Z := z mod 4294967296.

(** [std::to_string] on an integer: its decimal digits. *)
Definition to_string (z : Z) : string := NilZero.string_of_int (Z.to_int z).

Definition is_null {A} (p : option A) : bool :=
  match p with Some _ => false | None => true end.

(** ** The register map (namespace [ITE_REGISTER_MAP]) *)

Definition EC_ADDR_PORT : Z := 0x4E.
Definition EC_DATA_PORT : Z := 0x4F.

Module ITE_REGISTER_MAP.
Definition ECHIPID1 : Z := 0x2000.
Definition ECHIPID2 : Z := 0x2001.
Definition ECHIPVER : Z := 0x2002.
Definition FW_VER : Z := 0xC2C7.
Definition FAN_CUR_POINT : Z := 0xC534.
Definition FAN1_BASE : Z := 0xC540.
Definition FAN2_BASE : Z := 0xC550.
Definition FAN_ACC_BASE : Z := 0xC560.
Definition FAN_DEC_BASE : Z := 0xC570.
Definition CPU_TEMP : Z := 0xC580.
Definition CPU_TEMP_HYST : Z := 0xC590.
Definition GPU_TEMP : Z := 0xC5A0.
Definition GPU_TEMP_HYST : Z := 0xC5B0.
Definition VRM_TEMP : Z := 0xC5C0.
Definition VRM_TEMP_HYST : Z := 0xC5D0.
Definition FAN1_TARGET_DUTY : Z := 0xC5FC - 0x18.
Definition FAN2_TARGET_DUTY : Z := 0xC5FD - 0x18.
Definition FAN1_TARGET_CURVE_VAL : Z := 0xC5FC.
Definition FAN2_TARGET_CURVE_VAL : Z := 0xC5FD.
Definition FAN1_CUR_ACC : Z := 0xC3DC.
Definition FAN1_CUR_DEC : Z := 0xC3DD.
Definition FAN2_CUR_ACC : Z := 0xC3DE.
Definition FAN2_CUR_DEC : Z := 0xC3DF.
Definition FAN1_RPM_LSB : Z := 0xC5E0.
Definition FAN1_RPM_MSB : Z := 0xC5E1.
Definition FAN2_RPM_LSB : Z := 0xC5E2.
Definition FAN2_RPM_MSB : Z := 0xC5E3.
End ITE_REGISTER_MAP.

(** [FanController::MAX_FAN1_RPM], [FanController::MAX_FAN2_RPM]. *)
Definition MAX_FAN1_RPM : Z := 5200.
Definition MAX_FAN2_RPM : Z := 5000.

(** ** Data model (fan_control.h) *)

Record FanConfigData := mkFanConfigData {
  fan1_curve : list Z;
  fan2_curve : list Z;
  acc_time : list Z;
  dec_time : list Z;
  cpu_lower_temp : list Z;
  cpu_upper_temp : list Z;
  gpu_lower_temp : list Z;
  gpu_upper_temp : list Z;
  vrm_lower_temp : list Z;
  vrm_upper_temp : list Z
}.

(** The constructor [FanConfigData()]: every vector is [(10, 0)]. *)
Definition FanConfigData_new : FanConfigData :=
  mkFanConfigData (repeat 0 10) (repeat 0 10) (repeat 0 10) (repeat 0 10)
                  (repeat 0 10) (repeat 0 10) (repeat 0 10) (repeat 0 10)
                  (repeat 0 10) (repeat 0 10).

Record FanStatusData := mkFanStatusData {
  st_fan1_speed : Z;
  st_fan2_speed : Z;
  st_fan1_percent : Z;
  st_fan2_percent : Z;
  st_fan1_curve : list Z;
  st_fan2_curve : list Z;
  st_acc_time : list Z;
  st_dec_time : list Z;
  st_cpu_lower_temp : list Z;
  st_cpu_upper_temp : list Z;
  st_gpu_lower_temp : list Z;
  st_gpu_upper_temp : list Z;
  st_vrm_lower_temp : list Z;
  st_vrm_upper_temp : list Z;
  st_chip_id1 : Z;
  st_chip_id2 : Z;
  st_chip_ver : Z;
  st_fw_ver : Z;
  st_fan1_target_duty : Z;
  st_fan2_target_duty : Z;
  st_fan1_target_curve_val : Z;
  st_fan2_target_curve_val : Z;
  st_fan_cur_point : Z
}.

(** The constructor [FanStatusData()]. *)
Definition FanStatusData_new : FanStatusData :=
  mkFanStatusData 0 0 0 0
    (repeat 0 10) (repeat 0 10) (repeat 0 10) (repeat 0 10) (repeat 0 10)
    (repeat 0 10) (repeat 0 10) (repeat 0 10) (repeat 0 10) (repeat 0 10)
    0 0 0 0 0 0 0 0 0.

(** The private members of [FanController].  A handle or a function
    pointer is [None] when it is [nullptr] and [Some a] when it holds the
    address [a]. *)
Record FanController := mkFanController {
  hWinRing0Wrapper : option Z;
  pLoadWinRing0 : option Z;
  pInitWinRing0 : option Z;
  pReadPort : option Z;
  pWritePort : option Z;
  pGetStatus : option Z;
  pDeinitWinRing0 : option Z;
  winring_init_ok : bool;
  lastError : string
}.

(** The constructor [FanController()] with the in-class initialisers. *)
Definition FanController_new : FanController :=
  mkFanController None None None None None None None false EmptyString.

Definition set_hWinRing0Wrapper (v : option Z) (c : FanController) :=
  mkFanController v (pLoadWinRing0 c) (pInitWinRing0 c) (pReadPort c)
    (pWritePort c) (pGetStatus c) (pDeinitWinRing0 c) (winring_init_ok c)
    (lastError c).
Definition set_pLoadWinRing0 (v : option Z) (c : FanController) :=
  mkFanController (hWinRing0Wrapper c) v (pInitWinRing0 c) (pReadPort c)
    (pWritePort c) (pGetStatus c) (pDeinitWinRing0 c) (winring_init_ok c)
    (lastError c).
Definition set_pInitWinRing0 (v : option Z) (c : FanController) :=
  mkFanController (hWinRing0Wrapper c) (pLoadWinRing0 c) v (pReadPort c)
    (pWritePort c) (pGetStatus c) (pDeinitWinRing0 c) (winring_init_ok c)
    (lastError c).
Definition set_pReadPort (v : option Z) (c : FanController) :=
  mkFanController (hWinRing0Wrapper c) (pLoadWinRing0 c) (pInitWinRing0 c) v
    (pWritePort c) (pGetStatus c) (pDeinitWinRing0 c) (winring_init_ok c)
    (lastError c).
Definition set_pWritePort (v : option Z) (c : FanController) :=
  mkFanController (hWinRing0Wrapper c) (pLoadWinRing0 c) (pInitWinRing0 c)
    (pReadPort c) v (pGetStatus c) (pDeinitWinRing0 c) (winring_init_ok c)
    (lastError c).
Definition set_pGetStatus (v : option Z) (c : FanController) :=
  mkFanController (hWinRing0Wrapper c) (pLoadWinRing0 c) (pInitWinRing0 c)
    (pReadPort c) (pWritePort c) v (pDeinitWinRing0 c) (winring_init_ok c)
    (lastError c).
Definition set_pDeinitWinRing0 (v : option Z) (c : FanController) :=
  mkFanController (hWinRing0Wrapper c) (pLoadWinRing0 c) (pInitWinRing0 c)
    (pReadPort c) (pWritePort c) (pGetStatus c) v (winring_init_ok c)
    (lastError c).
Definition set_winring_init_ok (v : bool) (c : FanController) :=
  mkFanController (hWinRing0Wrapper c) (pLoadWinRing0 c) (pInitWinRing0 c)
    (pReadPort c) (pWritePort c) (pGetStatus c) (pDeinitWinRing0 c) v
    (lastError c).
Definition set_lastError (v : string) (c : FanController) :=
  mkFanController (hWinRing0Wrapper c) (pLoadWinRing0 c) (pInitWinRing0 c)
    (pReadPort c) (pWritePort c) (pGetStatus c) (pDeinitWinRing0 c)
    (winring_init_ok c) v.

(** ** The outside world *)

(** One event per call that leaves the controller, with what the call
    returned. *)
Inductive Event : Type :=
| EvLoadLibraryA (name : string) (handle : option Z)
| EvGetLastError (code : Z)
| EvGetProcAddress (handle : Z) (name : string) (address : option Z)
| EvFreeLibrary (handle : option Z)
| EvLoadWinRing0 (ok : bool)
| EvInitWinRing0 (ok : bool)
| EvGetStatus (status : Z)
| EvDeinitWinRing0
| EvReadPort (port : Z) (value : Z)
| EvWritePort (port : Z) (value : Z).

(** What the loader, the wrapper DLL and the hardware answer, each as a
    function of everything that happened before the call. *)
Record Env := mkEnv {
  os_LoadLibraryA : list Event -> string -> option Z;
  os_GetLastError : list Event -> Z;
  os_GetProcAddress : list Event -> Z -> string -> option Z;
  dll_LoadWinRing0 : list Event -> bool;
  dll_InitWinRing0 : list Event -> bool;
  dll_GetStatus : list Event -> Z;
  dll_ReadPort : list Event -> Z -> Z
}.

(** A controller together with the history of its calls. *)
Record Machine := mkMachine {
  ctl : FanController;
  trace : list Event
}.

Definition Machine_new : Machine := mkMachine FanController_new [].

(** ** A state monad over [Machine] *)

Definition M (A : Type) : Type := Machine -> A * Machine.

Definition ret {A} (a : A) : M A := fun s => (a, s).

Definition bind {A B} (m : M A) (k : A -> M B) : M B :=
  fun s => let (a, s') := m s in k a s'.

Declare Scope fan_scope.
Delimit Scope fan_scope with fan.
Notation "x <- m ;; k" := (bind m (fun x => k))
  (at level 61, m at next level, right associativity) : fan_scope.
Notation "m ;; k" := (bind m (fun _ => k))
  (at level 61, right associativity) : fan_scope.
Open Scope fan_scope.

Definition this : M FanController := fun s => (ctl s, s).

Definition update (f : FanController -> FanController) : M unit :=
  fun s => (tt, mkMachine (f (ctl s)) (trace s)).

Definition history : M (list Event) := fun s => (trace s, s).

Definition emit (e : Event) : M unit :=
  fun s => (tt, mkMachine (ctl s) (trace s ++ [e])).

Definition when (b : bool) (m : M unit) : M unit :=
  if b then m else ret tt.

(** ** Floating point of the percent derivation *)

(** [static_cast<double>] of an unsigned 16-bit value (exact). *)
Definition double_of_int (z : Z) : float := PrimFloat.of_uint63 (Uint63.of_Z z).

(** [static_cast<int>] of a double: truncation towards zero. *)
Definition int_of_double (x : float) : Z :=
  match Prim2SF x with
  | S754_finite s m e =>
      let a := if 0 <=? e then Z.shiftl (Z.pos m) e
               else Z.shiftr (Z.pos m) (- e) in
      if s then - a else a
  | _ => 0
  end.

(** The expression of [readStatus] for either fan:
    [(MAX > 0) ? static_cast<int>((static_cast<double>(speed) / MAX) * 100.0) : 0]. *)
Definition fan_percent (speed max_rpm : Z) : Z :=
  if 0 <? max_rpm
  then int_of_double
         (PrimFloat.mul (PrimFloat.div (double_of_int speed) (double_of_int max_rpm))
                        100%float)
  else 0.

(** ** Error messages *)

Definition msg_read_not_initialized : string :=
  "WinRing0 not initialized, cannot read status.".
Definition msg_write_not_initialized : string :=
  "WinRing0 not initialized, cannot write config.".
Definition msg_invalid_config : string :=
  "Invalid configuration data: All arrays must have size 10.".
Definition msg_load_library (errorCode : Z) : string :=
  "Could not load winring_wrapper.dll. Error code: " ++ to_string errorCode
  ++ ". Ensure DLL and dependencies (WinRing0x64.dll, MinGW runtimes) are present.".
Definition msg_get_proc : string :=
  "Could not get one or more function addresses from wrapper DLL.".
Definition msg_load_winring : string := "LoadWinRing0() via wrapper failed.".
Definition msg_init_winring (status : Z) : string :=
  "InitWinRing0() via wrapper failed. Status: " ++ to_string status.
Definition msg_acc_index (idx : Z) : string :=
  "Warning: Invalid ACC_time target index read from EC: " ++ to_string idx.
Definition msg_dec_index (idx : Z) : string :=
  "Warning: Invalid DEC_time target index read from EC: " ++ to_string idx.

(** ** FanController (fan_control.cpp) *)

Section Controller.

Variable env : Env.

(** *** Calls that leave the controller *)

Definition LoadLibraryA (name : string) : M (option Z) :=
  h <- history ;;
  let r := os_LoadLibraryA env h name in
  emit (EvLoadLibraryA name r) ;; ret r.

Definition GetLastError : M Z :=
  h <- history ;;
  let r := u32 (os_GetLastError env h) in
  emit (EvGetLastError r) ;; ret r.

Definition GetProcAddress (hModule : Z) (name : string) : M (option Z) :=
  h <- history ;;
  let r := os_GetProcAddress env h hModule name in
  emit (EvGetProcAddress hModule name r) ;; ret r.

Definition FreeLibrary (hModule : option Z) : M unit :=
  emit (EvFreeLibrary hModule).

Definition call_LoadWinRing0 : M bool :=
  h <- history ;;
  let r := dll_LoadWinRing0 env h in
  emit (EvLoadWinRing0 r) ;; ret r.

Definition call_InitWinRing0 : M bool :=
  h <- history ;;
  let r := dll_InitWinRing0 env h in
  emit (EvInitWinRing0 r) ;; ret r.

Definition call_GetStatus : M Z :=
  h <- history ;;
  let r := u32 (dll_GetStatus env h) in
  emit (EvGetStatus r) ;; ret r.

Definition call_DeinitWinRing0 : M unit := emit EvDeinitWinRing0.

Definition call_ReadPort (port : Z) : M Z :=
  h <- history ;;
  let r := u8 (dll_ReadPort env h port) in
  emit (EvReadPort port r) ;; ret r.

Definition call_WritePort (port value : Z) : M unit :=
  emit (EvWritePort port value).

(** *** Life cycle *)

Definition setError (errorMsg : string) : M unit :=
  update (set_lastError errorMsg).

Definition initialize : M bool :=
  c <- this ;;
  if winring_init_ok c then ret true else
  setError EmptyString ;;
  h <- LoadLibraryA "winring_wrapper.dll" ;;
  update (set_hWinRing0Wrapper h) ;;
  match h with
  | None =>
      errorCode <- GetLastError ;;
      setError (msg_load_library errorCode) ;;
      ret false
  | Some hModule =>
      p <- GetProcAddress hModule "LoadWinRing0" ;; update (set_pLoadWinRing0 p) ;;
      p <- GetProcAddress hModule "InitWinRing0" ;; update (set_pInitWinRing0 p) ;;
      p <- GetProcAddress hModule "ReadPort" ;; update (set_pReadPort p) ;;
      p <- GetProcAddress hModule "WritePort" ;; update (set_pWritePort p) ;;
      p <- GetProcAddress hModule "GetStatus" ;; update (set_pGetStatus p) ;;
      p <- GetProcAddress hModule "DeinitWinRing0" ;; update (set_pDeinitWinRing0 p) ;;
      c <- this ;;
      if is_null (pLoadWinRing0 c) || is_null (pInitWinRing0 c)
         || is_null (pReadPort c) || is_null (pWritePort c)
         || is_null (pGetStatus c) || is_null (pDeinitWinRing0 c)
      then
        setError msg_get_proc ;;
        FreeLibrary (hWinRing0Wrapper c) ;;
        update (set_hWinRing0Wrapper None) ;;
        ret false
      else
        loaded <- call_LoadWinRing0 ;;
        if negb loaded then
          setError msg_load_winring ;;
          FreeLibrary (hWinRing0Wrapper c) ;;
          update (set_hWinRing0Wrapper None) ;;
          ret false
        else
          inited <- call_InitWinRing0 ;;
          if negb inited then
            status <- (if is_null (pGetStatus c) then ret 0 else call_GetStatus) ;;
            setError (msg_init_winring status) ;;
            FreeLibrary (hWinRing0Wrapper c) ;;
            update (set_hWinRing0Wrapper None) ;;
            ret false
          else
            update (set_winring_init_ok true) ;;
            ret true
  end.

Definition deinitialize : M unit :=
  c <- this ;;
  when (negb (is_null (hWinRing0Wrapper c)) && winring_init_ok c
        && negb (is_null (pDeinitWinRing0 c)))
       call_DeinitWinRing0 ;;
  when (negb (is_null (hWinRing0Wrapper c)))
       (FreeLibrary (hWinRing0Wrapper c) ;;
        update (set_hWinRing0Wrapper None)) ;;
  update (set_winring_init_ok false) ;;
  update (set_pLoadWinRing0 None) ;;
  update (set_pInitWinRing0 None) ;;
  update (set_pReadPort None) ;;
  update (set_pWritePort None) ;;
  update (set_pGetStatus None) ;;
  update (set_pDeinitWinRing0 None).

Definition isInitialized : M bool :=
  c <- this ;; ret (winring_init_ok c).

Definition getLastError : M string :=
  c <- this ;; ret (lastError c).

(** *** EC access (private) *)

Definition read_io_port_byte (port : Z) : M Z :=
  let port := u16 port in
  c <- this ;;
  if negb (winring_init_ok c) || is_null (pReadPort c) then ret 0
  else call_ReadPort port.

Definition write_io_port_byte (port value : Z) : M unit :=
  let port := u16 port in
  let value := u8 value in
  c <- this ;;
  if negb (winring_init_ok c) || is_null (pWritePort c) then ret tt
  else call_WritePort port value.

Definition direct_ec_read (addr : Z) : M Z :=
  let addr := u16 addr in
  write_io_port_byte EC_ADDR_PORT 0x2E ;;
  write_io_port_byte EC_DATA_PORT 0x11 ;;
  write_io_port_byte EC_ADDR_PORT 0x2F ;;
  write_io_port_byte EC_DATA_PORT (Z.land (Z.shiftr addr 8) 0xFF) ;;
  write_io_port_byte EC_ADDR_PORT 0x2E ;;
  write_io_port_byte EC_DATA_PORT 0x10 ;;
  write_io_port_byte EC_ADDR_PORT 0x2F ;;
  write_io_port_byte EC_DATA_PORT (Z.land addr 0xFF) ;;
  write_io_port_byte EC_ADDR_PORT 0x2E ;;
  write_io_port_byte EC_DATA_PORT 0x12 ;;
  write_io_port_byte EC_ADDR_PORT 0x2F ;;
  read_io_port_byte EC_DATA_PORT.

Definition direct_ec_write (addr data : Z) : M unit :=
  let addr := u16 addr in
  let data := u8 data in
  write_io_port_byte EC_ADDR_PORT 0x2E ;;
  write_io_port_byte EC_DATA_PORT 0x11 ;;
  write_io_port_byte EC_ADDR_PORT 0x2F ;;
  write_io_port_byte EC_DATA_PORT (Z.land (Z.shiftr addr 8) 0xFF) ;;
  write_io_port_byte EC_ADDR_PORT 0x2E ;;
  write_io_port_byte EC_DATA_PORT 0x10 ;;
  write_io_port_byte EC_ADDR_PORT 0x2F ;;
  write_io_port_byte EC_DATA_PORT (Z.land addr 0xFF) ;;
  write_io_port_byte EC_ADDR_PORT 0x2E ;;
  write_io_port_byte EC_DATA_PORT 0x12 ;;
  write_io_port_byte EC_ADDR_PORT 0x2F ;;
  write_io_port_byte EC_DATA_PORT data.

(** The loop of [direct_ec_read_array] from index [i], [n] elements
    left; the values read are the buffer's elements [i], [i+1], ... *)
Fixpoint ec_read_loop (addr_base i : Z) (n : nat) : M (list Z) :=
  match n with
  | O => ret []
  | S n' =>
      v <- direct_ec_read (addr_base + u16 i) ;;
      rest <- ec_read_loop addr_base (i + 1) n' ;;
      ret (v :: rest)
  end.

Definition direct_ec_read_array (addr_base : Z) (size : nat) : M (list Z) :=
  ec_read_loop (u16 addr_base) 0 size.

(** The loop of [direct_ec_write_array] from index [i] over the
    elements that are left. *)
Fixpoint ec_write_loop (addr_base i : Z) (data : list Z) : M unit :=
  match data with
  | [] => ret tt
  | v :: rest =>
      direct_ec_write (addr_base + u16 i) v ;;
      ec_write_loop addr_base (i + 1) rest
  end.

Definition direct_ec_write_array (addr_base : Z) (data : list Z) : M unit :=
  match data with
  | [] => ret tt
  | _ => ec_write_loop (u16 addr_base) 0 data
  end.

(** *** Status reading (public) *)

(** Every member of [statusData] is assigned inside the [try] block, so
    on success the result is built from the values read.  Nothing the
    block calls throws (allocation failure apart), so the two [catch]
    clauses have no counterpart. *)
Definition readStatus (statusData : FanStatusData) : M (bool * FanStatusData) :=
  c <- this ;;
  if negb (winring_init_ok c) then
    setError msg_read_not_initialized ;;
    ret (false, statusData)
  else
  setError EmptyString ;;
  fan1_low <- direct_ec_read ITE_REGISTER_MAP.FAN1_RPM_LSB ;;
  fan1_high <- direct_ec_read ITE_REGISTER_MAP.FAN1_RPM_MSB ;;
  let fan1_speed := u16 (Z.lor (Z.shiftl (u16 fan1_high) 8) fan1_low) in
  fan2_low <- direct_ec_read ITE_REGISTER_MAP.FAN2_RPM_LSB ;;
  fan2_high <- direct_ec_read ITE_REGISTER_MAP.FAN2_RPM_MSB ;;
  let fan2_speed := u16 (Z.lor (Z.shiftl (u16 fan2_high) 8) fan2_low) in
  let fan1_percent := fan_percent fan1_speed MAX_FAN1_RPM in
  let fan2_percent := fan_percent fan2_speed MAX_FAN2_RPM in
  fan1_curve <- direct_ec_read_array ITE_REGISTER_MAP.FAN1_BASE 10 ;;
  fan2_curve <- direct_ec_read_array ITE_REGISTER_MAP.FAN2_BASE 10 ;;
  acc_time <- direct_ec_read_array ITE_REGISTER_MAP.FAN_ACC_BASE 10 ;;
  dec_time <- direct_ec_read_array ITE_REGISTER_MAP.FAN_DEC_BASE 10 ;;
  cpu_upper_temp <- direct_ec_read_array ITE_REGISTER_MAP.CPU_TEMP 10 ;;
  cpu_lower_temp <- direct_ec_read_array ITE_REGISTER_MAP.CPU_TEMP_HYST 10 ;;
  gpu_upper_temp <- direct_ec_read_array ITE_REGISTER_MAP.GPU_TEMP 10 ;;
  gpu_lower_temp <- direct_ec_read_array ITE_REGISTER_MAP.GPU_TEMP_HYST 10 ;;
  vrm_upper_temp <- direct_ec_read_array ITE_REGISTER_MAP.VRM_TEMP 10 ;;
  vrm_lower_temp <- direct_ec_read_array ITE_REGISTER_MAP.VRM_TEMP_HYST 10 ;;
  chip_id1 <- direct_ec_read ITE_REGISTER_MAP.ECHIPID1 ;;
  chip_id2 <- direct_ec_read ITE_REGISTER_MAP.ECHIPID2 ;;
  chip_ver <- direct_ec_read ITE_REGISTER_MAP.ECHIPVER ;;
  fw_ver <- direct_ec_read ITE_REGISTER_MAP.FW_VER ;;
  fan1_target_duty <- direct_ec_read ITE_REGISTER_MAP.FAN1_TARGET_DUTY ;;
  fan2_target_duty <- direct_ec_read ITE_REGISTER_MAP.FAN2_TARGET_DUTY ;;
  fan1_target_curve_val <- direct_ec_read ITE_REGISTER_MAP.FAN1_TARGET_CURVE_VAL ;;
  fan2_target_curve_val <- direct_ec_read ITE_REGISTER_MAP.FAN2_TARGET_CURVE_VAL ;;
  fan_cur_point <- direct_ec_read ITE_REGISTER_MAP.FAN_CUR_POINT ;;
  ret (true,
       mkFanStatusData fan1_speed fan2_speed fan1_percent fan2_percent
         fan1_curve fan2_curve acc_time dec_time
         cpu_lower_temp cpu_upper_temp gpu_lower_temp gpu_upper_temp
         vrm_lower_temp vrm_upper_temp
         chip_id1 chip_id2 chip_ver fw_ver
         fan1_target_duty fan2_target_duty
         fan1_target_curve_val fan2_target_curve_val fan_cur_point).

(** *** Write configuration (public) *)

(** The size test of [writeConfig]: true when some vector has a size
    other than 10. *)
Definition bad_sizes (configData : FanConfigData) : bool :=
  negb (List.length (fan1_curve configData) =? 10)%nat
  || negb (List.length (fan2_curve configData) =? 10)%nat
  || negb (List.length (acc_time configData) =? 10)%nat
  || negb (List.length (dec_time configData) =? 10)%nat
  || negb (List.length (cpu_lower_temp configData) =? 10)%nat
  || negb (List.length (cpu_upper_temp configData) =? 10)%nat
  || negb (List.length (gpu_lower_temp configData) =? 10)%nat
  || negb (List.length (gpu_upper_temp configData) =? 10)%nat
  || negb (List.length (vrm_lower_temp configData) =? 10)%nat
  || negb (List.length (vrm_upper_temp configData) =? 10)%nat.

(** [data[idx]] for an index already tested against the size. *)
Definition at_index (data : list Z) (idx : Z) : Z := nth (Z.to_nat idx) data 0.

Definition writeConfig (configData : FanConfigData) : M bool :=
  c <- this ;;
  if negb (winring_init_ok c) then
    setError msg_write_not_initialized ;;
    ret false
  else
  setError EmptyString ;;
  if bad_sizes configData then
    setError msg_invalid_config ;;
    ret false
  else
  direct_ec_write_array ITE_REGISTER_MAP.FAN1_BASE (fan1_curve configData) ;;
  direct_ec_write_array ITE_REGISTER_MAP.FAN2_BASE (fan2_curve configData) ;;
  direct_ec_write_array ITE_REGISTER_MAP.CPU_TEMP (cpu_upper_temp configData) ;;
  direct_ec_write_array ITE_REGISTER_MAP.GPU_TEMP (gpu_upper_temp configData) ;;
  direct_ec_write_array ITE_REGISTER_MAP.VRM_TEMP (vrm_upper_temp configData) ;;
  direct_ec_write_array ITE_REGISTER_MAP.CPU_TEMP_HYST (cpu_lower_temp configData) ;;
  direct_ec_write_array ITE_REGISTER_MAP.GPU_TEMP_HYST (gpu_lower_temp configData) ;;
  direct_ec_write_array ITE_REGISTER_MAP.VRM_TEMP_HYST (vrm_lower_temp configData) ;;
  direct_ec_write_array ITE_REGISTER_MAP.FAN_ACC_BASE (acc_time configData) ;;
  direct_ec_write_array ITE_REGISTER_MAP.FAN_DEC_BASE (dec_time configData) ;;
  fan1_curve_target <- direct_ec_read ITE_REGISTER_MAP.FAN1_TARGET_CURVE_VAL ;;
  direct_ec_write ITE_REGISTER_MAP.FAN1_TARGET_DUTY fan1_curve_target ;;
  fan2_curve_target <- direct_ec_read ITE_REGISTER_MAP.FAN2_TARGET_CURVE_VAL ;;
  direct_ec_write ITE_REGISTER_MAP.FAN2_TARGET_DUTY fan2_curve_target ;;
  acc_dec_time_target_idx <- direct_ec_read ITE_REGISTER_MAP.FAN_CUR_POINT ;;
  (if acc_dec_time_target_idx <? Z.of_nat (List.length (acc_time configData)) then
     direct_ec_write ITE_REGISTER_MAP.FAN1_CUR_ACC
       (at_index (acc_time configData) acc_dec_time_target_idx) ;;
     direct_ec_write ITE_REGISTER_MAP.FAN2_CUR_ACC
       (at_index (acc_time configData) acc_dec_time_target_idx)
   else
     setError (msg_acc_index acc_dec_time_target_idx)) ;;
  (if acc_dec_time_target_idx <? Z.of_nat (List.length (dec_time configData)) then
     direct_ec_write ITE_REGISTER_MAP.FAN1_CUR_DEC
       (at_index (dec_time configData) acc_dec_time_target_idx) ;;
     direct_ec_write ITE_REGISTER_MAP.FAN2_CUR_DEC
       (at_index (dec_time configData) acc_dec_time_target_idx)
   else
     setError (msg_dec_index acc_dec_time_target_idx)) ;;
  ret true.

End Controller.

(** ** Test doubles *)

(** Port reads, port writes, and either. *)
Definition is_read (e : Event) : bool :=
  match e with EvReadPort _ _ => true | _ => false end.
Definition is_write (e : Event) : bool :=
  match e with EvWritePort _ _ => true | _ => false end.
Definition is_port_event (e : Event) : bool := is_read e || is_write e.

(** A port device that answers the [n]-th read with the [n]-th byte of a
    script (0 once the script is used up). *)
Definition scripted_reads (script : list Z) (h : list Event) (port : Z) : Z :=
  nth (List.length (filter is_read h)) script 0.

(** The exports of the wrapper DLL (winring_wrapper.cpp) with the
    addresses the mock loader gives them. *)
Definition wrapper_exports : list (string * Z) :=
  [("LoadWinRing0"%string, 0x11000); ("InitWinRing0"%string, 0x11040);
   ("DeinitWinRing0"%string, 0x11080); ("ReadPort"%string, 0x110C0);
   ("WritePort"%string, 0x11100); ("GetStatus"%string, 0x11140)].

Definition lookup_export (name : string) : option Z :=
  option_map snd (find (fun e => String.eqb name (fst e)) wrapper_exports).

(** A wrapper DLL found at handle [0x10000], whose exports resolve except
    the ones named in [missing]; [load_ok] and [init_ok] are what
    [LoadWinRing0] and [InitWinRing0] answer. *)
Definition mock_env (missing : list string) (load_ok init_ok : bool)
    (script : list Z) : Env :=
  mkEnv (fun _ _ => Some 0x10000)
        (fun _ => 126)
        (fun _ _ name => if existsb (String.eqb name) missing then None
                         else lookup_export name)
        (fun _ => load_ok)
        (fun _ => init_ok)
        (fun _ => 3)
        (scripted_reads script).

(** No wrapper DLL at all: [LoadLibraryA] fails with error 126. *)
Definition no_dll_env : Env :=
  mkEnv (fun _ _ => None) (fun _ => 126) (fun _ _ _ => None)
        (fun _ => false) (fun _ => false) (fun _ => 0) (fun _ _ => 0).

(** ** Controller states *)

(** The port guards of [read_io_port_byte] and [write_io_port_byte]. *)
Definition can_read (c : FanController) : bool :=
  winring_init_ok c && negb (is_null (pReadPort c)).
Definition can_write (c : FanController) : bool :=
  winring_init_ok c && negb (is_null (pWritePort c)).

(** Ready: initialised, with the library handle and the six function
    pointers in place. *)
Definition is_ready (c : FanController) : bool :=
  winring_init_ok c
  && negb (is_null (hWinRing0Wrapper c))
  && negb (is_null (pLoadWinRing0 c)) && negb (is_null (pInitWinRing0 c))
  && negb (is_null (pReadPort c)) && negb (is_null (pWritePort c))
  && negb (is_null (pGetStatus c)) && negb (is_null (pDeinitWinRing0 c)).

(** The invariant of the class: the flag is only set when everything is
    in place. *)
Definition ctl_wf (c : FanController) : bool :=
  implb (winring_init_ok c) (is_ready c).

(** Appending events to the history, the controller untouched. *)
Definition log (evs : list Event) (s : Machine) : Machine :=
  mkMachine (ctl s) (trace s ++ evs).

(** Replacing the error string, the history untouched. *)
Definition with_error (msg : string) (s : Machine) : Machine :=
  mkMachine (set_lastError msg (ctl s)) (trace s).

(** The events since an earlier history [old]. *)
Definition events_since (old : list Event) (s : Machine) : list Event :=
  skipn (List.length old) (trace s).

(** Net count of library handles held after a run of events. *)
Fixpoint lib_refs (evs : list Event) : Z :=
  match evs with
  | [] => 0
  | EvLoadLibraryA _ (Some _) :: r => 1 + lib_refs r
  | EvFreeLibrary (Some _) :: r => lib_refs r - 1
  | _ :: r => lib_refs r
  end.

(** ** Port-level shape of the EC transactions *)

(** Select internal index register [reg]. *)
Definition select_index (reg : Z) : list Event :=
  [EvWritePort EC_ADDR_PORT 0x2E; EvWritePort EC_DATA_PORT reg;
   EvWritePort EC_ADDR_PORT 0x2F].

(** The three addressing phases: high byte through register 0x11, low
    byte through register 0x10, then data register 0x12 selected. *)
Definition address_phases (addr : Z) : list Event :=
  select_index 0x11 ++ [EvWritePort EC_DATA_PORT (Z.land (Z.shiftr (u16 addr) 8) 0xFF)]
  ++ select_index 0x10 ++ [EvWritePort EC_DATA_PORT (Z.land (u16 addr) 0xFF)]
  ++ select_index 0x12.

(** One single-byte write transaction. *)
Definition ec_write_tx (addr data : Z) : list Event :=
  address_phases addr ++ [EvWritePort EC_DATA_PORT (u8 data)].

(** One single-byte read transaction that was answered [value]. *)
Definition ec_read_tx (addr value : Z) : list Event :=
  address_phases addr ++ [EvReadPort EC_DATA_PORT value].

(** The list [data] with its indices. *)
Definition indexed {A} (data : list A) : list (nat * A) :=
  combine (seq 0 (List.length data)) data.

(** ** Vocabulary of the statements *)

(** All ten vectors have size 10. *)
Definition all_sizes_10 (configData : FanConfigData) : Prop :=
  List.length (fan1_curve configData) = 10%nat
  /\ List.length (fan2_curve configData) = 10%nat
  /\ List.length (acc_time configData) = 10%nat
  /\ List.length (dec_time configData) = 10%nat
  /\ List.length (cpu_lower_temp configData) = 10%nat
  /\ List.length (cpu_upper_temp configData) = 10%nat
  /\ List.length (gpu_lower_temp configData) = 10%nat
  /\ List.length (gpu_upper_temp configData) = 10%nat
  /\ List.length (vrm_lower_temp configData) = 10%nat
  /\ List.length (vrm_upper_temp configData) = 10%nat.

(** The ten tables of a configuration. *)
Definition tables (configData : FanConfigData) : list (list Z) :=
  [fan1_curve configData; fan2_curve configData; acc_time configData;
   dec_time configData; cpu_lower_temp configData; cpu_upper_temp configData;
   gpu_lower_temp configData; gpu_upper_temp configData;
   vrm_lower_temp configData; vrm_upper_temp configData].

(** One step of the array write, on an element with its index. *)
Definition write_element (addr_base : Z) (st : Machine) (iv : nat * Z) : Machine :=
  snd (direct_ec_write (addr_base + Z.of_nat (fst iv)) (snd iv) st).

Section Vocabulary.

Variable env : Env.

(** What a read of [addr] is answered in state [s]. *)
Definition ec_read_answer (addr : Z) (s : Machine) : Z :=
  if can_read (ctl s)
  then u8 (dll_ReadPort env
             (trace s ++ (if can_write (ctl s) then address_phases addr else []))
             EC_DATA_PORT)
  else 0.

(** The statements of [writeConfig]'s [try] block up to and including
    the read of [FAN_CUR_POINT]: the ten array writes, the two target
    values read and written back, the index read.  The result is the
    index. *)
Definition write_tables_read_index (configData : FanConfigData) : M Z :=
  direct_ec_write_array ITE_REGISTER_MAP.FAN1_BASE (fan1_curve configData) ;;
  direct_ec_write_array ITE_REGISTER_MAP.FAN2_BASE (fan2_curve configData) ;;
  direct_ec_write_array ITE_REGISTER_MAP.CPU_TEMP (cpu_upper_temp configData) ;;
  direct_ec_write_array ITE_REGISTER_MAP.GPU_TEMP (gpu_upper_temp configData) ;;
  direct_ec_write_array ITE_REGISTER_MAP.VRM_TEMP (vrm_upper_temp configData) ;;
  direct_ec_write_array ITE_REGISTER_MAP.CPU_TEMP_HYST (cpu_lower_temp configData) ;;
  direct_ec_write_array ITE_REGISTER_MAP.GPU_TEMP_HYST (gpu_lower_temp configData) ;;
  direct_ec_write_array ITE_REGISTER_MAP.VRM_TEMP_HYST (vrm_lower_temp configData) ;;
  direct_ec_write_array ITE_REGISTER_MAP.FAN_ACC_BASE (acc_time configData) ;;
  direct_ec_write_array ITE_REGISTER_MAP.FAN_DEC_BASE (dec_time configData) ;;
  fan1_curve_target <- direct_ec_read env ITE_REGISTER_MAP.FAN1_TARGET_CURVE_VAL ;;
  direct_ec_write ITE_REGISTER_MAP.FAN1_TARGET_DUTY fan1_curve_target ;;
  fan2_curve_target <- direct_ec_read env ITE_REGISTER_MAP.FAN2_TARGET_CURVE_VAL ;;
  direct_ec_write ITE_REGISTER_MAP.FAN2_TARGET_DUTY fan2_curve_target ;;
  direct_ec_read env ITE_REGISTER_MAP.FAN_CUR_POINT.

(** The rest of the block: the two tests on the index, then
    [return true]. *)
Definition update_live_registers (configData : FanConfigData) (idx : Z) : M bool :=
  (if idx <? Z.of_nat (List.length (acc_time configData)) then
     direct_ec_write ITE_REGISTER_MAP.FAN1_CUR_ACC (at_index (acc_time configData) idx) ;;
     direct_ec_write ITE_REGISTER_MAP.FAN2_CUR_ACC (at_index (acc_time configData) idx)
   else
     setError (msg_acc_index idx)) ;;
  (if idx <? Z.of_nat (List.length (dec_time configData)) then
     direct_ec_write ITE_REGISTER_MAP.FAN1_CUR_DEC (at_index (dec_time configData) idx) ;;
     direct_ec_write ITE_REGISTER_MAP.FAN2_CUR_DEC (at_index (dec_time configData) idx)
   else
     setError (msg_dec_index idx)) ;;
  ret true.

(** Programs whose last step, on a ready controller, is the read
    transaction of [FAN_CUR_POINT], and whose result is what that read
    was answered. *)
Definition ends_with_index_read (m : M Z) : Prop :=
  forall s, is_ready (ctl s) = true ->
  exists before,
    ctl before = ctl s /\
    (exists evs, trace before = trace s ++ evs) /\
    let idx := u8 (dll_ReadPort env
                     (trace before ++ address_phases ITE_REGISTER_MAP.FAN_CUR_POINT)
                     EC_DATA_PORT) in
    m s = (idx, log (ec_read_tx ITE_REGISTER_MAP.FAN_CUR_POINT idx) before).

End Vocabulary.

(** Programs that leave the controller record alone. *)
Definition keeps_ctl {A} (m : M A) : Prop :=
  forall s, ctl (snd (m s)) = ctl s.

(** Programs that change at most the error string of the controller. *)
Definition keeps_ctl_but_error {A} (m : M A) : Prop :=
  forall s, exists e, ctl (snd (m s)) = set_lastError e (ctl s).

(** Programs whose result satisfies [P] from every state. *)
Definition returns {A} (m : M A) (P : A -> Prop) : Prop :=
  forall s, P (fst (m s)).

(** [p] holds on [n] consecutive integers from [lo]. *)
Fixpoint all_from (n : nat) (lo : Z) (p : Z -> bool) : bool :=
  match n with
  | O => true
  | S k => p lo && all_from k (lo + 1) p
  end.

(** Checked on every 16-bit reading above the maximum: 100 up to a
    threshold, more than 100 from it on. *)
Definition above_max_ok (max_rpm threshold rpm : Z) : bool :=
  if rpm <? threshold then fan_percent rpm max_rpm =? 100
  else 100 <? fan_percent rpm max_rpm.

(** *** Life cycle *)

(** The name [initialize] passes to [LoadLibraryA]. *)
Definition wrapper_dll : string := "winring_wrapper.dll".

(** The calls of [initialize] up to the null test on the six pointers,
    when the library was found at [h]. *)
Definition resolve_events (h : Z) (p1 p2 p3 p4 p5 p6 : option Z) : list Event :=
  [EvLoadLibraryA wrapper_dll (Some h);
   EvGetProcAddress h "LoadWinRing0" p1;
   EvGetProcAddress h "InitWinRing0" p2;
   EvGetProcAddress h "ReadPort" p3;
   EvGetProcAddress h "WritePort" p4;
   EvGetProcAddress h "GetStatus" p5;
   EvGetProcAddress h "DeinitWinRing0" p6].

(** The five ways [initialize] can go from a controller that is not
    initialised: result, controller and history at the end. *)
Inductive init_outcome (s : Machine) : bool -> Machine -> Prop :=
| init_no_library code :
    init_outcome s false
      (mkMachine
         (mkFanController None (pLoadWinRing0 (ctl s)) (pInitWinRing0 (ctl s))
            (pReadPort (ctl s)) (pWritePort (ctl s)) (pGetStatus (ctl s))
            (pDeinitWinRing0 (ctl s)) false (msg_load_library code))
         (trace s ++ [EvLoadLibraryA wrapper_dll None; EvGetLastError code]))
| init_missing_export h p1 p2 p3 p4 p5 p6 :
    is_null p1 || is_null p2 || is_null p3 || is_null p4 || is_null p5 || is_null p6 = true ->
    init_outcome s false
      (mkMachine
         (mkFanController None p1 p2 p3 p4 p5 p6 false msg_get_proc)
         (trace s ++ resolve_events h p1 p2 p3 p4 p5 p6 ++ [EvFreeLibrary (Some h)]))
| init_load_failed h a1 a2 a3 a4 a5 a6 :
    init_outcome s false
      (mkMachine
         (mkFanController None (Some a1) (Some a2) (Some a3) (Some a4) (Some a5) (Some a6)
            false msg_load_winring)
         (trace s ++ resolve_events h (Some a1) (Some a2) (Some a3) (Some a4) (Some a5) (Some a6)
          ++ [EvLoadWinRing0 false; EvFreeLibrary (Some h)]))
| init_driver_failed h a1 a2 a3 a4 a5 a6 status :
    init_outcome s false
      (mkMachine
         (mkFanController None (Some a1) (Some a2) (Some a3) (Some a4) (Some a5) (Some a6)
            false (msg_init_winring status))
         (trace s ++ resolve_events h (Some a1) (Some a2) (Some a3) (Some a4) (Some a5) (Some a6)
          ++ [EvLoadWinRing0 true; EvInitWinRing0 false; EvGetStatus status;
              EvFreeLibrary (Some h)]))
| init_success h a1 a2 a3 a4 a5 a6 :
    init_outcome s true
      (mkMachine
         (mkFanController (Some h) (Some a1) (Some a2) (Some a3) (Some a4) (Some a5) (Some a6)
            true EmptyString)
         (trace s ++ resolve_events h (Some a1) (Some a2) (Some a3) (Some a4) (Some a5) (Some a6)
          ++ [EvLoadWinRing0 true; EvInitWinRing0 true])).

(** The same on the pair a run returns. *)
Definition outcome_of (s : Machine) (p : bool * Machine) : Prop :=
  init_outcome s (fst p) (snd p).

(** The calls [deinitialize] makes from a controller [c]. *)
Definition release_events (c : FanController) : list Event :=
  (if negb (is_null (hWinRing0Wrapper c)) && winring_init_ok c
      && negb (is_null (pDeinitWinRing0 c))
   then [EvDeinitWinRing0] else [])
  ++ (if negb (is_null (hWinRing0Wrapper c))
      then [EvFreeLibrary (hWinRing0Wrapper c)] else []).

(** Library loads, and calls of the wrapper's [DeinitWinRing0]. *)
Definition is_load_library (e : Event) : bool :=
  match e with EvLoadLibraryA _ _ => true | _ => false end.
Definition is_deinit (e : Event) : bool :=
  match e with EvDeinitWinRing0 => true | _ => false end.

(** A capability load or a driver initialisation that succeeded. *)
Definition is_capability (e : Event) : bool :=
  match e with
  | EvLoadWinRing0 true | EvInitWinRing0 true => true
  | _ => false
  end.

(** An outside world in which every acquisition step of [initialize]
    succeeds: the wrapper is found at [h], its six exports resolve to
    [a1], ..., [a6], and [LoadWinRing0] and [InitWinRing0] answer true,
    whatever happened before. *)
Definition cooperative (env : Env) (h a1 a2 a3 a4 a5 a6 : Z) : Prop :=
  (forall hist, os_LoadLibraryA env hist "winring_wrapper.dll" = Some h)
  /\ (forall hist, os_GetProcAddress env hist h "LoadWinRing0" = Some a1)
  /\ (forall hist, os_GetProcAddress env hist h "InitWinRing0" = Some a2)
  /\ (forall hist, os_GetProcAddress env hist h "ReadPort" = Some a3)
  /\ (forall hist, os_GetProcAddress env hist h "WritePort" = Some a4)
  /\ (forall hist, os_GetProcAddress env hist h "GetStatus" = Some a5)
  /\ (forall hist, os_GetProcAddress env hist h "DeinitWinRing0" = Some a6)
  /\ (forall hist, dll_LoadWinRing0 env hist = true)
  /\ (forall hist, dll_InitWinRing0 env hist = true).

(** The calls of a successful [initialize], in order. *)
Definition acquisition (h a1 a2 a3 a4 a5 a6 : Z) : list Event :=
  resolve_events h (Some a1) (Some a2) (Some a3) (Some a4) (Some a5) (Some a6)
  ++ [EvLoadWinRing0 true; EvInitWinRing0 true].

(** The six function pointers, in the order [initialize] resolves them. *)
Definition pointers (c : FanController) : list (option Z) :=
  [pLoadWinRing0 c; pInitWinRing0 c; pReadPort c; pWritePort c; pGetStatus c;
   pDeinitWinRing0 c].

(** What the [GetProcAddress] calls of a run of events returned. *)
Definition resolved (evs : list Event) : list (option Z) :=
  flat_map (fun e => match e with EvGetProcAddress _ _ p => [p] | _ => [] end) evs.

(** The machines a client can bring about through the public members. *)
Inductive reachable (env : Env) : Machine -> Prop :=
| reach_new : reachable env Machine_new
| reach_initialize s :
    reachable env s -> reachable env (snd (initialize env s))
| reach_deinitialize s :
    reachable env s -> reachable env (snd (deinitialize s))
| reach_readStatus statusData s :
    reachable env s -> reachable env (snd (readStatus env statusData s))
| reach_writeConfig configData s :
    reachable env s -> reachable env (snd (writeConfig env configData s)).

(** *** Machines and configurations of the concrete runs *)

(** The mock wrapper with everything succeeding, the port reads scripted
    by [script], and the machine a successful [initialize] leaves. *)
Definition ready_env (script : list Z) : Env := mock_env [] true true script.

Definition ready_machine : Machine :=
  mkMachine
    (mkFanController (Some 0x10000) (Some 0x11000) (Some 0x11040) (Some 0x110C0)
       (Some 0x11100) (Some 0x11140) (Some 0x11080) true EmptyString)
    (resolve_events 0x10000 (Some 0x11000) (Some 0x11040) (Some 0x110C0)
       (Some 0x11100) (Some 0x11140) (Some 0x11080)
     ++ [EvLoadWinRing0 true; EvInitWinRing0 true]).

(** The machine left when the driver refuses to initialise
    ([InitWinRing0] answers false, status 3). *)
Definition driver_failed_machine : Machine :=
  mkMachine
    (mkFanController None (Some 0x11000) (Some 0x11040) (Some 0x110C0)
       (Some 0x11100) (Some 0x11140) (Some 0x11080) false (msg_init_winring 3))
    (resolve_events 0x10000 (Some 0x11000) (Some 0x11040) (Some 0x110C0)
       (Some 0x11100) (Some 0x11140) (Some 0x11080)
     ++ [EvLoadWinRing0 true; EvInitWinRing0 false; EvGetStatus 3;
         EvFreeLibrary (Some 0x10000)]).

(** The machine left when the wrapper's [LoadWinRing0] answers false. *)
Definition load_failed_machine : Machine :=
  mkMachine
    (mkFanController None (Some 0x11000) (Some 0x11040) (Some 0x110C0)
       (Some 0x11100) (Some 0x11140) (Some 0x11080) false msg_load_winring)
    (resolve_events 0x10000 (Some 0x11000) (Some 0x11040) (Some 0x110C0)
       (Some 0x11100) (Some 0x11140) (Some 0x11080)
     ++ [EvLoadWinRing0 false; EvFreeLibrary (Some 0x10000)]).

(** A configuration whose first table has nine entries. *)
Definition short_config : FanConfigData :=
  mkFanConfigData (repeat 0 9) (repeat 0 10) (repeat 0 10) (repeat 0 10)
                  (repeat 0 10) (repeat 0 10) (repeat 0 10) (repeat 0 10)
                  (repeat 0 10) (repeat 0 10).

(** ** Program logic *)

(** From a machine satisfying [P], the program [m] returns a result and
    leaves a machine that satisfy [Q]. *)
Definition hoare {A} (P : Machine -> Prop) (m : M A) (Q : A -> Machine -> Prop) : Prop :=
  forall s, P s -> Q (fst (m s)) (snd (m s)).

(** A value of type [uint8_t]. *)
Definition is_byte (z : Z) : Prop := 0 <= z < 256.

(** Port reads and port writes made so far. *)
Definition port_reads (s : Machine) : nat := List.length (filter is_read (trace s)).
Definition port_writes (s : Machine) : nat := List.length (filter is_write (trace s)).

(** Programs that, on a ready controller, make [r] port reads and [w]
    port writes and leave the controller ready. *)
Definition counts (r w : nat) {A} (m : M A) : Prop :=
  forall s, is_ready (ctl s) = true ->
  is_ready (ctl (snd (m s))) = true
  /\ port_reads (snd (m s)) = (port_reads s + r)%nat
  /\ port_writes (snd (m s)) = (port_writes s + w)%nat.

(** ** The EC as a memory *)

(** The device the protocol of [direct_ec_read] and [direct_ec_write]
    speaks to, reduced to what the protocol shows of it: the register
    selected through the address port, the index register behind 0x2E,
    the two address bytes behind index registers 0x11 and 0x10, and a
    memory reached through index register 0x12 that keeps what is
    written to it.  It is not code of the repository: it is the device
    assumed by the theorems that speak of the EC's memory. *)
Record Ec := mkEc {
  ec_selected : Z;
  ec_index : Z;
  ec_addr_hi : Z;
  ec_addr_lo : Z;
  ec_mem : Z -> Z
}.

Definition ec_new (mem0 : Z -> Z) : Ec := mkEc 0 0 0 0 mem0.

Definition ec_address (e : Ec) : Z := ec_addr_hi e * 256 + ec_addr_lo e.

(** Memory [f] with byte [v] at the 16-bit address [a]. *)
Definition store (f : Z -> Z) (a v : Z) : Z -> Z :=
  fun x => if x =? u16 a then u8 v else f x.

(** The byte of memory [f] at the 16-bit address [a]. *)
Definition load (f : Z -> Z) (a : Z) : Z := u8 (f (u16 a)).

Definition ec_step (e : Ec) (ev : Event) : Ec :=
  match ev with
  | EvWritePort port v =>
      if port =? EC_ADDR_PORT then
        mkEc v (ec_index e) (ec_addr_hi e) (ec_addr_lo e) (ec_mem e)
      else if port =? EC_DATA_PORT then
        if ec_selected e =? 0x2E then
          mkEc (ec_selected e) v (ec_addr_hi e) (ec_addr_lo e) (ec_mem e)
        else if ec_selected e =? 0x2F then
          if ec_index e =? 0x11 then
            mkEc (ec_selected e) (ec_index e) v (ec_addr_lo e) (ec_mem e)
          else if ec_index e =? 0x10 then
            mkEc (ec_selected e) (ec_index e) (ec_addr_hi e) v (ec_mem e)
          else if ec_index e =? 0x12 then
            mkEc (ec_selected e) (ec_index e) (ec_addr_hi e) (ec_addr_lo e)
                 (store (ec_mem e) (ec_address e) v)
          else e
        else e
      else e
  | _ => e
  end.

Definition ec_run (e : Ec) (evs : list Event) : Ec := fold_left ec_step evs e.

(** What a port read is answered after the history [h]. *)
Definition ec_read (mem0 : Z -> Z) (h : list Event) (port : Z) : Z :=
  let e := ec_run (ec_new mem0) h in
  if (port =? EC_DATA_PORT) && (ec_selected e =? 0x2F) && (ec_index e =? 0x12)
  then ec_mem e (u16 (ec_address e)) else 0.

(** The port reads of [env] are those of the memory device started with
    memory [mem0]. *)
Definition memory_like (mem0 : Z -> Z) (env : Env) : Prop :=
  forall h port, dll_ReadPort env h port = ec_read mem0 h port.

(** The mock wrapper over the memory device. *)
Definition ec_env (mem0 : Z -> Z) : Env :=
  mkEnv (fun _ _ => Some 0x10000) (fun _ => 126) (fun _ _ name => lookup_export name)
        (fun _ => true) (fun _ => true) (fun _ => 0) (ec_read mem0).

(** The memory of the device after the history of [s]. *)
Definition mem_at (mem0 : Z -> Z) (s : Machine) : Z -> Z :=
  ec_mem (ec_run (ec_new mem0) (trace s)).

(** A ready controller whose device memory is [f]. *)
Definition Mem (mem0 : Z -> Z) (f : Z -> Z) (s : Machine) : Prop :=
  is_ready (ctl s) = true /\ forall x, mem_at mem0 s x = f x.

(** The memory after the array write of [data] at [base], and the bytes
    an array read of [n] elements at [base] returns. *)
Definition store_array (f : Z -> Z) (base : Z) (data : list Z) : Z -> Z :=
  fold_left (fun g iv => store g (base + Z.of_nat (fst iv)) (snd iv)) (indexed data) f.

Definition load_array (f : Z -> Z) (base : Z) (n : nat) : list Z :=
  map (fun i => load f (base + Z.of_nat i)) (seq 0 n).

(** What [readStatus] returns when the device memory is [f]. *)
Definition status_of_memory (f : Z -> Z) : FanStatusData :=
  let fan1_speed :=
    u16 (Z.lor (Z.shiftl (u16 (load f ITE_REGISTER_MAP.FAN1_RPM_MSB)) 8)
               (load f ITE_REGISTER_MAP.FAN1_RPM_LSB)) in
  let fan2_speed :=
    u16 (Z.lor (Z.shiftl (u16 (load f ITE_REGISTER_MAP.FAN2_RPM_MSB)) 8)
               (load f ITE_REGISTER_MAP.FAN2_RPM_LSB)) in
  mkFanStatusData fan1_speed fan2_speed
    (fan_percent fan1_speed MAX_FAN1_RPM) (fan_percent fan2_speed MAX_FAN2_RPM)
    (load_array f ITE_REGISTER_MAP.FAN1_BASE 10)
    (load_array f ITE_REGISTER_MAP.FAN2_BASE 10)
    (load_array f ITE_REGISTER_MAP.FAN_ACC_BASE 10)
    (load_array f ITE_REGISTER_MAP.FAN_DEC_BASE 10)
    (load_array f ITE_REGISTER_MAP.CPU_TEMP_HYST 10)
    (load_array f ITE_REGISTER_MAP.CPU_TEMP 10)
    (load_array f ITE_REGISTER_MAP.GPU_TEMP_HYST 10)
    (load_array f ITE_REGISTER_MAP.GPU_TEMP 10)
    (load_array f ITE_REGISTER_MAP.VRM_TEMP_HYST 10)
    (load_array f ITE_REGISTER_MAP.VRM_TEMP 10)
    (load f ITE_REGISTER_MAP.ECHIPID1) (load f ITE_REGISTER_MAP.ECHIPID2)
    (load f ITE_REGISTER_MAP.ECHIPVER) (load f ITE_REGISTER_MAP.FW_VER)
    (load f ITE_REGISTER_MAP.FAN1_TARGET_DUTY) (load f ITE_REGISTER_MAP.FAN2_TARGET_DUTY)
    (load f ITE_REGISTER_MAP.FAN1_TARGET_CURVE_VAL)
    (load f ITE_REGISTER_MAP.FAN2_TARGET_CURVE_VAL)
    (load f ITE_REGISTER_MAP.FAN_CUR_POINT).

(** The memory after the ten array writes of [writeConfig]. *)
Definition tables_memory (configData : FanConfigData) (f : Z -> Z) : Z -> Z :=
  let f := store_array f ITE_REGISTER_MAP.FAN1_BASE (fan1_curve configData) in
  let f := store_array f ITE_REGISTER_MAP.FAN2_BASE (fan2_curve configData) in
  let f := store_array f ITE_REGISTER_MAP.CPU_TEMP (cpu_upper_temp configData) in
  let f := store_array f ITE_REGISTER_MAP.GPU_TEMP (gpu_upper_temp configData) in
  let f := store_array f ITE_REGISTER_MAP.VRM_TEMP (vrm_upper_temp configData) in
  let f := store_array f ITE_REGISTER_MAP.CPU_TEMP_HYST (cpu_lower_temp configData) in
  let f := store_array f ITE_REGISTER_MAP.GPU_TEMP_HYST (gpu_lower_temp configData) in
  let f := store_array f ITE_REGISTER_MAP.VRM_TEMP_HYST (vrm_lower_temp configData) in
  let f := store_array f ITE_REGISTER_MAP.FAN_ACC_BASE (acc_time configData) in
  store_array f ITE_REGISTER_MAP.FAN_DEC_BASE (dec_time configData).

(** The memory after the two target values are copied. *)
Definition targets_memory (f : Z -> Z) : Z -> Z :=
  let f := store f ITE_REGISTER_MAP.FAN1_TARGET_DUTY
                 (load f ITE_REGISTER_MAP.FAN1_TARGET_CURVE_VAL) in
  store f ITE_REGISTER_MAP.FAN2_TARGET_DUTY (load f ITE_REGISTER_MAP.FAN2_TARGET_CURVE_VAL).

(** The memory after the live acc/dec registers are brought up to date
    for the index [idx]. *)
Definition live_memory (configData : FanConfigData) (idx : Z) (f : Z -> Z) : Z -> Z :=
  let f := if idx <? Z.of_nat (List.length (acc_time configData))
           then store (store f ITE_REGISTER_MAP.FAN1_CUR_ACC
                             (at_index (acc_time configData) idx))
                      ITE_REGISTER_MAP.FAN2_CUR_ACC (at_index (acc_time configData) idx)
           else f in
  if idx <? Z.of_nat (List.length (dec_time configData))
  then store (store f ITE_REGISTER_MAP.FAN1_CUR_DEC (at_index (dec_time configData) idx))
             ITE_REGISTER_MAP.FAN2_CUR_DEC (at_index (dec_time configData) idx)
  else f.

(** The memory a successful [writeConfig] leaves, from memory [f]. *)
Definition config_memory (configData : FanConfigData) (f : Z -> Z) : Z -> Z :=
  let f := targets_memory (tables_memory configData f) in
  live_memory configData (load f ITE_REGISTER_MAP.FAN_CUR_POINT) f.

(** Every entry of every table is a byte. *)
Definition all_bytes (configData : FanConfigData) : Prop :=
  Forall (Forall is_byte) (tables configData).

(** The 16-bit addresses [base], ..., [base + n - 1] and [base'], ...,
    [base' + n' - 1] have nothing in common. *)
Definition apart (base : Z) (n : nat) (base' : Z) (n' : nat) : bool :=
  forallb (fun i => forallb (fun j => negb (u16 (base + Z.of_nat i) =? u16 (base' + Z.of_nat j)))
                            (seq 0 n'))
          (seq 0 n).

(** The copy [main] makes of the configuration part of a status. *)
Definition config_of_status (st : FanStatusData) : FanConfigData :=
  mkFanConfigData (st_fan1_curve st) (st_fan2_curve st) (st_acc_time st) (st_dec_time st)
    (st_cpu_lower_temp st) (st_cpu_upper_temp st) (st_gpu_lower_temp st)
    (st_gpu_upper_temp st) (st_vrm_lower_temp st) (st_vrm_upper_temp st).

(** The bases of the ten tables [writeConfig] writes. *)
Definition table_bases : list Z :=
  [ITE_REGISTER_MAP.FAN1_BASE; ITE_REGISTER_MAP.FAN2_BASE; ITE_REGISTER_MAP.CPU_TEMP;
   ITE_REGISTER_MAP.GPU_TEMP; ITE_REGISTER_MAP.VRM_TEMP; ITE_REGISTER_MAP.CPU_TEMP_HYST;
   ITE_REGISTER_MAP.GPU_TEMP_HYST; ITE_REGISTER_MAP.VRM_TEMP_HYST;
   ITE_REGISTER_MAP.FAN_ACC_BASE; ITE_REGISTER_MAP.FAN_DEC_BASE].

(** The single registers [writeConfig] writes. *)
Definition config_registers : list Z :=
  [ITE_REGISTER_MAP.FAN1_TARGET_DUTY; ITE_REGISTER_MAP.FAN2_TARGET_DUTY;
   ITE_REGISTER_MAP.FAN1_CUR_ACC; ITE_REGISTER_MAP.FAN2_CUR_ACC;
   ITE_REGISTER_MAP.FAN1_CUR_DEC; ITE_REGISTER_MAP.FAN2_CUR_DEC].

(** Address [x] is one of the ten entries of a table or one of the six
    single registers. *)
Definition config_address (x : Z) : bool :=
  existsb (fun base => (base <=? x) && (x <? base + 10)) table_bases
  || existsb (Z.eqb x) config_registers.

(** A device memory holding [idx] as curve point index and 0 elsewhere. *)
Definition index_memory (idx : Z) : Z -> Z :=
  fun x => if x =? ITE_REGISTER_MAP.FAN_CUR_POINT then idx else 0.

(** A device memory with 3 as curve point index and, at every other
    address, the low byte of the address plus 1. *)
Definition sample_memory : Z -> Z :=
  fun x => if x =? ITE_REGISTER_MAP.FAN_CUR_POINT then 3 else (x + 1) mod 256.

(** A configuration of ten different tables, the temperatures of the
    two curves in no order. *)
Definition sample_config : FanConfigData :=
  mkFanConfigData
    [10; 11; 12; 13; 14; 15; 16; 17; 18; 19]
    [20; 21; 22; 23; 24; 25; 26; 27; 28; 29]
    [30; 31; 32; 33; 34; 35; 36; 37; 38; 39]
    [40; 41; 42; 43; 44; 45; 46; 47; 48; 49]
    [50; 51; 52; 53; 54; 55; 56; 57; 58; 59]
    [70; 40; 55; 90; 35; 60; 45; 80; 50; 65]
    [61; 62; 63; 64; 65; 66; 67; 68; 69; 60]
    [75; 45; 95; 85; 35; 65; 55; 100; 50; 70]
    [80; 81; 82; 83; 84; 85; 86; 87; 88; 89]
    [90; 91; 92; 93; 94; 95; 96; 97; 98; 99].

(** ** Port discipline *)

(** The port events of the EC protocol: a byte written to the address
    port or the data port, a byte read from the data port. *)
Definition ec_port_event (e : Event) : bool :=
  match e with
  | EvWritePort port v =>
      ((port =? EC_ADDR_PORT) || (port =? EC_DATA_PORT)) && (0 <=? v) && (v <? 256)
  | EvReadPort port v => (port =? EC_DATA_PORT) && (0 <=? v) && (v <? 256)
  | _ => false
  end.

(** Programs that only add events satisfying [p] to the history. *)
Definition emits (p : Event -> bool) {A} (m : M A) : Prop :=
  forall s, exists evs, trace (snd (m s)) = trace s ++ evs /\ forallb p evs = true.

(** ** The percent derivation over all readings *)

(** Checked on every 16-bit reading but the last: the percent of the
    next reading is not lower. *)
Definition percent_step_ok (rpm : Z) : bool :=
  (fan_percent rpm MAX_FAN1_RPM <=? fan_percent (rpm + 1) MAX_FAN1_RPM)
  && (fan_percent rpm MAX_FAN2_RPM <=? fan_percent (rpm + 1) MAX_FAN2_RPM).

(** The speed [readStatus] builds from the bytes [high] and [low]. *)
Definition speed_of_bytes (high low : Z) : Z :=
  u16 (Z.lor (Z.shiftl (u16 high) 8) low).

(** ** The editor of [main.cpp] *)

Module Gui.

(** [int] is 32 bits wide; arithmetic on it is only defined while its
    results stay in range. *)
Definition INT_MIN : Z := -2147483648.
Definition INT_MAX : Z := 2147483647.
Definition is_int (z : Z) : Prop := INT_MIN <= z <= INT_MAX.

Definition convertVecU8ToVecInt (vec_u8 : list Z) : list Z :=
  map (fun val => val) vec_u8.

(** The body of the loop of [convertVecIntToVecU8] on one value. *)
Definition clamp_to_u8 (val : Z) : Z :=
  let val := if val <? 0 then 0 else val in
  let val := if 255 <? val then 255 else val in
  u8 val.

Definition convertVecIntToVecU8 (vec_int : list Z) : list Z :=
  map clamp_to_u8 vec_int.

Record PlotPoint := mkPlotPoint {
  temp : Z;
  rpm : Z;
  original_index : nat
}.

(** [PlotPoint::operator<]. *)
Definition PlotPoint_lt (p other : PlotPoint) : bool := temp p <? temp other.

(** The points pushed by the loop of [createPlotPoints], before they
    are sorted. *)
Definition pushed_points (temps curve_points_scaled : list Z) : list PlotPoint :=
  let n := Nat.min (List.length temps) (List.length curve_points_scaled) in
  map (fun i => mkPlotPoint (nth i temps 0) (nth i curve_points_scaled 0 * 100) i)
      (seq 0 n).

(** What [std::sort] with [operator<] guarantees of its result: the
    same elements, none before one it is greater than.  The order of
    elements of equal temperature is left open. *)
Definition ascending (points : list PlotPoint) : Prop :=
  StronglySorted (fun p q => PlotPoint_lt q p = false) points.

Definition sorts (sort : list PlotPoint -> list PlotPoint) : Prop :=
  forall points, Permutation (sort points) points /\ ascending (sort points).

(** [createPlotPoints], over the sorting function. *)
Definition createPlotPoints (sort : list PlotPoint -> list PlotPoint)
    (temps curve_points_scaled : list Z) : list PlotPoint :=
  sort (pushed_points temps curve_points_scaled).

(** A sorting function to run the editor with: insertion sort. *)
Fixpoint insert_point (p : PlotPoint) (points : list PlotPoint) : list PlotPoint :=
  match points with
  | [] => [p]
  | q :: rest => if PlotPoint_lt p q then p :: q :: rest else q :: insert_point p rest
  end.

Definition insertion_sort (points : list PlotPoint) : list PlotPoint :=
  fold_right insert_point [] points.

(** [v[i] = x] on a vector, for [i] below its size. *)
Definition assign {A} (i : nat) (x : A) (v : list A) : list A :=
  firstn i v ++ x :: skipn (S i) v.

(** One iteration of the loop of [extractDataFromPlotPoints] on the two
    temporary vectors.  The test is on the size of [temp_temps] only: a
    point whose index passes it and is not below the size of
    [temp_curve_points] writes outside that vector, which is undefined
    behaviour and is [None] here. *)
Definition extract_point (vectors : option (list Z * list Z)) (p : PlotPoint)
    : option (list Z * list Z) :=
  match vectors with
  | None => None
  | Some (temp_temps, temp_curve_points) =>
      if (original_index p <? List.length temp_temps)%nat then
        if (original_index p <? List.length temp_curve_points)%nat then
          Some (assign (original_index p) (temp p) temp_temps,
                assign (original_index p) (Z.quot (rpm p) 100) temp_curve_points)
        else None
      else Some (temp_temps, temp_curve_points)
  end.

(** [extractDataFromPlotPoints]: the new values of [temps] and
    [curve_points_scaled]. *)
Definition extractDataFromPlotPoints (points : list PlotPoint)
    (temps curve_points_scaled : list Z) : option (list Z * list Z) :=
  fold_left extract_point points
    (Some (repeat 0 (List.length temps), repeat 0 (List.length curve_points_scaled))).

(** The variables of [main] the Apply button works on. *)
Record Editor := mkEditor {
  editableConfig : FanConfigData;
  fan1_plot_points : list PlotPoint;
  fan2_plot_points : list PlotPoint;
  fan1_curve_int : list Z;
  fan2_curve_int : list Z;
  cpu_upper_temp_int : list Z;
  gpu_upper_temp_int : list Z;
  cpu_lower_temp_int : list Z;
  gpu_lower_temp_int : list Z;
  fan1_acc_time_int : Z;
  fan1_dec_time_int : Z
}.

(** The configuration the Apply button passes to [writeConfig]. *)
Definition apply_config (e : Editor) : option FanConfigData :=
  match extractDataFromPlotPoints (fan1_plot_points e) (cpu_upper_temp_int e)
          (fan1_curve_int e) with
  | None => None
  | Some (cpu_upper_temp_int', fan1_curve_int') =>
      match extractDataFromPlotPoints (fan2_plot_points e) (gpu_upper_temp_int e)
              (fan2_curve_int e) with
      | None => None
      | Some (gpu_upper_temp_int', fan2_curve_int') =>
          let c := editableConfig e in
          Some (mkFanConfigData
                  (convertVecIntToVecU8 fan1_curve_int')
                  (convertVecIntToVecU8 fan2_curve_int')
                  (if (0 <? List.length (acc_time c))%nat
                   then assign 0 (u8 (fan1_acc_time_int e)) (acc_time c) else acc_time c)
                  (if (0 <? List.length (dec_time c))%nat
                   then assign 0 (u8 (fan1_dec_time_int e)) (dec_time c) else dec_time c)
                  (convertVecIntToVecU8 (cpu_lower_temp_int e))
                  (convertVecIntToVecU8 cpu_upper_temp_int')
                  (convertVecIntToVecU8 (gpu_lower_temp_int e))
                  (convertVecIntToVecU8 gpu_upper_temp_int')
                  (vrm_lower_temp c)
                  (vrm_upper_temp c))
      end
  end.

(** The editor [main] sets up from a configuration (at start-up and on
    Reload). *)
Definition load_editor (sort : list PlotPoint -> list PlotPoint) (c : FanConfigData)
    : Editor :=
  let fan1_curve_int := convertVecU8ToVecInt (fan1_curve c) in
  let fan2_curve_int := convertVecU8ToVecInt (fan2_curve c) in
  let cpu_upper_temp_int := convertVecU8ToVecInt (cpu_upper_temp c) in
  let gpu_upper_temp_int := convertVecU8ToVecInt (gpu_upper_temp c) in
  mkEditor c
    (createPlotPoints sort cpu_upper_temp_int fan1_curve_int)
    (createPlotPoints sort gpu_upper_temp_int fan2_curve_int)
    fan1_curve_int fan2_curve_int cpu_upper_temp_int gpu_upper_temp_int
    (convertVecU8ToVecInt (cpu_lower_temp c))
    (convertVecU8ToVecInt (gpu_lower_temp c))
    (if (0 <? List.length (acc_time c))%nat then nth 0 (acc_time c) 0 else 0)
    (if (0 <? List.length (dec_time c))%nat then nth 0 (dec_time c) 0 else 0).

(** One drag of point [i] of the fan 1 plot, with [temp_in] and
    [rpm_in] the two [static_cast<int>] values of the dragged position:
    the point is clamped, the lower temperature of the next original
    index follows, the points are sorted again. *)
Definition drag_fan1 (sort : list PlotPoint -> list PlotPoint) (i : nat)
    (temp_in rpm_in : Z) (e : Editor) : Editor :=
  let p := nth i (fan1_plot_points e) (mkPlotPoint 0 0 0) in
  let temp' := Z.max 0 (Z.min 127 temp_in) in
  let rpm' := Z.max 0 (Z.min MAX_FAN1_RPM rpm_in) in
  let points := assign i (mkPlotPoint temp' rpm' (original_index p)) (fan1_plot_points e) in
  let original_idx := original_index p in
  let next_lower_idx := S original_idx in
  let cpu_lower_temp_int' :=
    if (next_lower_idx <? List.length (cpu_lower_temp_int e))%nat
    then assign next_lower_idx (Z.max 0 (temp' - 3)) (cpu_lower_temp_int e)
    else cpu_lower_temp_int e in
  mkEditor (editableConfig e) (sort points) (fan2_plot_points e)
    (fan1_curve_int e) (fan2_curve_int e) (cpu_upper_temp_int e) (gpu_upper_temp_int e)
    cpu_lower_temp_int' (gpu_lower_temp_int e)
    (fan1_acc_time_int e) (fan1_dec_time_int e).

End Gui.

(** ** The wrapper DLL (winring_wrapper.cpp) *)

Module Wrapper.

(** A wide string is the list of its code units; [L s] is the literal
    [L"s"] of an ASCII string. *)
Definition wstring : Type := list Z.

Definition L (s : string) : wstring :=
  map (fun a => Z.of_N (N_of_ascii a)) (list_ascii_of_string s).

Definition MAX_PATH : Z := 260.

(** One event per call that leaves the wrapper.  A call through one of
    the five function pointers records the pointer it went through. *)
Inductive Event : Type :=
| EvGetModuleHandleExW (handle : option Z)
| EvGetModuleFileNameW (hModule : option Z) (nSize : Z) (copied : Z)
| EvLoadLibraryW (path : wstring) (handle : option Z)
| EvGetLastError (code : Z)
| EvGetProcAddress (handle : Z) (name : string) (address : option Z)
| EvFreeLibrary (handle : option Z)
| EvInitializeOls (fn : option Z) (ok : bool)
| EvDeinitializeOls (fn : option Z)
| EvGetDllStatus (fn : option Z) (status : Z)
| EvReadIoPortByte (fn : option Z) (port : Z) (value : Z)
| EvWriteIoPortByte (fn : option Z) (port : Z) (value : Z).

(** What the loader and WinRing0 answer, each as a function of the
    history.  [os_GetModuleHandleExW] is the handle the call stores in
    [hSelf] ([None], the initial [NULL], when it fails) and
    [module_path] the file name [GetModuleFileNameW] finds for a
    handle (empty when the call fails). *)
Record Env := mkEnv {
  os_GetModuleHandleExW : list Event -> option Z;
  module_path : option Z -> wstring;
  os_LoadLibraryW : list Event -> wstring -> option Z;
  os_GetLastError : list Event -> Z;
  os_GetProcAddress : list Event -> Z -> string -> option Z;
  ols_InitializeOls : list Event -> bool;
  ols_GetDllStatus : list Event -> Z;
  ols_ReadIoPortByte : list Event -> Z -> Z
}.

(** The global variables. *)
Record Globals := mkGlobals {
  hWinRing0 : option Z;
  InitializeOlsFunc : option Z;
  DeinitializeOlsFunc : option Z;
  GetDllStatusFunc : option Z;
  ReadIoPortByteFunc : option Z;
  WriteIoPortByteFunc : option Z;
  winRingLoaded : bool;
  winRingInitialized : bool;
  lastLoadError : Z
}.

(** Their initialisers. *)
Definition Globals_new : Globals :=
  mkGlobals None None None None None None false false 0.

Definition set_hWinRing0 (v : option Z) (g : Globals) :=
  mkGlobals v (InitializeOlsFunc g) (DeinitializeOlsFunc g) (GetDllStatusFunc g)
    (ReadIoPortByteFunc g) (WriteIoPortByteFunc g) (winRingLoaded g)
    (winRingInitialized g) (lastLoadError g).
Definition set_InitializeOlsFunc (v : option Z) (g : Globals) :=
  mkGlobals (hWinRing0 g) v (DeinitializeOlsFunc g) (GetDllStatusFunc g)
    (ReadIoPortByteFunc g) (WriteIoPortByteFunc g) (winRingLoaded g)
    (winRingInitialized g) (lastLoadError g).
Definition set_DeinitializeOlsFunc (v : option Z) (g : Globals) :=
  mkGlobals (hWinRing0 g) (InitializeOlsFunc g) v (GetDllStatusFunc g)
    (ReadIoPortByteFunc g) (WriteIoPortByteFunc g) (winRingLoaded g)
    (winRingInitialized g) (lastLoadError g).
Definition set_GetDllStatusFunc (v : option Z) (g : Globals) :=
  mkGlobals (hWinRing0 g) (InitializeOlsFunc g) (DeinitializeOlsFunc g) v
    (ReadIoPortByteFunc g) (WriteIoPortByteFunc g) (winRingLoaded g)
    (winRingInitialized g) (lastLoadError g).
Definition set_ReadIoPortByteFunc (v : option Z) (g : Globals) :=
  mkGlobals (hWinRing0 g) (InitializeOlsFunc g) (DeinitializeOlsFunc g)
    (GetDllStatusFunc g) v (WriteIoPortByteFunc g) (winRingLoaded g)
    (winRingInitialized g) (lastLoadError g).
Definition set_WriteIoPortByteFunc (v : option Z) (g : Globals) :=
  mkGlobals (hWinRing0 g) (InitializeOlsFunc g) (DeinitializeOlsFunc g)
    (GetDllStatusFunc g) (ReadIoPortByteFunc g) v (winRingLoaded g)
    (winRingInitialized g) (lastLoadError g).
Definition set_winRingLoaded (v : bool) (g : Globals) :=
  mkGlobals (hWinRing0 g) (InitializeOlsFunc g) (DeinitializeOlsFunc g)
    (GetDllStatusFunc g) (ReadIoPortByteFunc g) (WriteIoPortByteFunc g) v
    (winRingInitialized g) (lastLoadError g).
Definition set_winRingInitialized (v : bool) (g : Globals) :=
  mkGlobals (hWinRing0 g) (InitializeOlsFunc g) (DeinitializeOlsFunc g)
    (GetDllStatusFunc g) (ReadIoPortByteFunc g) (WriteIoPortByteFunc g)
    (winRingLoaded g) v (lastLoadError g).
Definition set_lastLoadError (v : Z) (g : Globals) :=
  mkGlobals (hWinRing0 g) (InitializeOlsFunc g) (DeinitializeOlsFunc g)
    (GetDllStatusFunc g) (ReadIoPortByteFunc g) (WriteIoPortByteFunc g)
    (winRingLoaded g) (winRingInitialized g) v.

(** The globals together with the history of the calls. *)
Record State := mkState {
  globals : Globals;
  trace : list Event
}.

Definition State_new : State := mkState Globals_new [].

(** *** A state monad over [State] *)

Definition W (A : Type) : Type := State -> A * State.

Definition ret {A} (a : A) : W A := fun s => (a, s).

Definition bind {A B} (m : W A) (k : A -> W B) : W B :=
  fun s => let (a, s') := m s in k a s'.

Declare Scope wrapper_scope.
Delimit Scope wrapper_scope with wrapper.
Notation "x <- m ;; k" := (bind m (fun x => k))
  (at level 61, m at next level, right associativity) : wrapper_scope.
Notation "m ;; k" := (bind m (fun _ => k))
  (at level 61, right associativity) : wrapper_scope.
Local Open Scope wrapper_scope.

Definition get : W Globals := fun s => (globals s, s).

Definition put (f : Globals -> Globals) : W unit :=
  fun s => (tt, mkState (f (globals s)) (trace s)).

Definition history : W (list Event) := fun s => (trace s, s).

Definition emit (e : Event) : W unit :=
  fun s => (tt, mkState (globals s) (trace s ++ [e])).

Definition when (b : bool) (m : W unit) : W unit :=
  if b then m else ret tt.

(** *** Wide strings *)

(** What [GetModuleFileNameW] does for a module whose file name is
    [path], with a buffer of [nSize] code units: the return value and
    the buffer.  A name that does not fit with its terminator is
    truncated and the return value is [nSize]. *)
Definition file_name_into (path : wstring) (nSize : Z) : Z * wstring :=
  let len := Z.of_nat (List.length path) in
  if len <? nSize
  then (len, path ++ repeat 0 (Z.to_nat (nSize - len)))
  else (nSize, firstn (Z.to_nat (nSize - 1)) path ++ [0]).

(** [find_last_of]: the position of the last code unit of [s] that is
    in [chars]. *)
Fixpoint find_last_of (s chars : wstring) : option nat :=
  match s with
  | [] => None
  | c :: rest =>
      match find_last_of rest chars with
      | Some i => Some (S i)
      | None => if existsb (Z.eqb c) chars then Some 0%nat else None
      end
  end.

(** *** Calls that leave the wrapper *)

Section Exports.

Variable env : Env.

Definition GetModuleHandleExW : W (option Z) :=
  h <- history ;;
  let r := os_GetModuleHandleExW env h in
  emit (EvGetModuleHandleExW r) ;; ret r.

Definition GetModuleFileNameW (hModule : option Z) (nSize : Z) : W (Z * wstring) :=
  let r := file_name_into (module_path env hModule) nSize in
  emit (EvGetModuleFileNameW hModule nSize (fst r)) ;; ret r.

Definition LoadLibraryW (path : wstring) : W (option Z) :=
  h <- history ;;
  let r := os_LoadLibraryW env h path in
  emit (EvLoadLibraryW path r) ;; ret r.

Definition GetLastError : W Z :=
  h <- history ;;
  let r := u32 (os_GetLastError env h) in
  emit (EvGetLastError r) ;; ret r.

Definition GetProcAddress (hModule : Z) (name : string) : W (option Z) :=
  h <- history ;;
  let r := os_GetProcAddress env h hModule name in
  emit (EvGetProcAddress hModule name r) ;; ret r.

Definition FreeLibrary (hModule : option Z) : W unit :=
  emit (EvFreeLibrary hModule).

Definition call_InitializeOls (fn : option Z) : W bool :=
  h <- history ;;
  let r := ols_InitializeOls env h in
  emit (EvInitializeOls fn r) ;; ret r.

Definition call_DeinitializeOls (fn : option Z) : W unit :=
  emit (EvDeinitializeOls fn).

Definition call_GetDllStatus (fn : option Z) : W Z :=
  h <- history ;;
  let r := u32 (ols_GetDllStatus env h) in
  emit (EvGetDllStatus fn r) ;; ret r.

Definition call_ReadIoPortByte (fn : option Z) (port : Z) : W Z :=
  h <- history ;;
  let r := u8 (ols_ReadIoPortByte env h port) in
  emit (EvReadIoPortByte fn port r) ;; ret r.

Definition call_WriteIoPortByte (fn : option Z) (port value : Z) : W unit :=
  emit (EvWriteIoPortByte fn port value).

(** *** [GetModuleDirectory] *)

(** The [do] loop: the buffer grows by [MAX_PATH] until the name fits.
    [size] is the size of the buffer before the iteration, the result
    is the last return value with the buffer; [fuel] bounds the number
    of further iterations. *)
Fixpoint fill_buffer (fuel : nat) (hModule : option Z) (size : Z) : W (Z * wstring) :=
  let size := size + MAX_PATH in
  r <- GetModuleFileNameW hModule size ;;
  match fuel with
  | O => ret r
  | S fuel' => if size <=? fst r then fill_buffer fuel' hModule size else ret r
  end.

Definition GetModuleDirectory (hModule : option Z) : W wstring :=
  r <- fill_buffer (List.length (module_path env hModule)) hModule 0 ;;
  let path := firstn (Z.to_nat (fst r)) (snd r) in
  match find_last_of path (L "\/") with
  | Some lastBackslash => ret (firstn lastBackslash path)
  | None => ret (L ".")
  end.

(** *** The exported functions *)

Definition LoadWinRing0 : W bool :=
  g <- get ;;
  if winRingLoaded g then ret true else
  put (set_lastLoadError 0) ;;
  hSelf <- GetModuleHandleExW ;;
  wrapperDir <- GetModuleDirectory hSelf ;;
  let winRingPath := wrapperDir ++ L "\WinRing0x64.dll" in
  h <- LoadLibraryW winRingPath ;;
  put (set_hWinRing0 h) ;;
  match h with
  | None =>
      code <- GetLastError ;;
      put (set_lastLoadError code) ;;
      ret false
  | Some hModule =>
      p <- GetProcAddress hModule "InitializeOls" ;; put (set_InitializeOlsFunc p) ;;
      p <- GetProcAddress hModule "DeinitializeOls" ;; put (set_DeinitializeOlsFunc p) ;;
      p <- GetProcAddress hModule "GetDllStatus" ;; put (set_GetDllStatusFunc p) ;;
      p <- GetProcAddress hModule "ReadIoPortByte" ;; put (set_ReadIoPortByteFunc p) ;;
      p <- GetProcAddress hModule "WriteIoPortByte" ;; put (set_WriteIoPortByteFunc p) ;;
      g <- get ;;
      if is_null (InitializeOlsFunc g) || is_null (DeinitializeOlsFunc g)
         || is_null (GetDllStatusFunc g) || is_null (ReadIoPortByteFunc g)
         || is_null (WriteIoPortByteFunc g)
      then
        code <- GetLastError ;;
        put (set_lastLoadError code) ;;
        FreeLibrary (hWinRing0 g) ;;
        put (set_hWinRing0 None) ;;
        ret false
      else
        put (set_winRingLoaded true) ;;
        ret true
  end.

Definition InitWinRing0 : W bool :=
  g <- get ;;
  if negb (winRingLoaded g) then ret false else
  if winRingInitialized g then ret true else
  ok <- call_InitializeOls (InitializeOlsFunc g) ;;
  if ok then
    put (set_winRingInitialized true) ;;
    ret true
  else ret false.

Definition DeinitWinRing0 : W unit :=
  g <- get ;;
  when (winRingInitialized g && negb (is_null (DeinitializeOlsFunc g)))
       (call_DeinitializeOls (DeinitializeOlsFunc g)) ;;
  when (negb (is_null (hWinRing0 g))) (FreeLibrary (hWinRing0 g)) ;;
  put (set_hWinRing0 None) ;;
  put (set_InitializeOlsFunc None) ;;
  put (set_DeinitializeOlsFunc None) ;;
  put (set_GetDllStatusFunc None) ;;
  put (set_ReadIoPortByteFunc None) ;;
  put (set_WriteIoPortByteFunc None) ;;
  put (set_winRingLoaded false) ;;
  put (set_winRingInitialized false) ;;
  put (set_lastLoadError 0).

Definition ReadPort (port : Z) : W Z :=
  let port := u16 port in
  g <- get ;;
  if negb (winRingInitialized g) || is_null (ReadIoPortByteFunc g) then ret 0
  else call_ReadIoPortByte (ReadIoPortByteFunc g) port.

Definition WritePort (port value : Z) : W unit :=
  let port := u16 port in
  let value := u8 value in
  g <- get ;;
  if negb (winRingInitialized g) || is_null (WriteIoPortByteFunc g) then ret tt
  else call_WriteIoPortByte (WriteIoPortByteFunc g) port value.

Definition GetStatus : W Z :=
  g <- get ;;
  if negb (winRingLoaded g) && negb (lastLoadError g =? 0) then ret (lastLoadError g)
  else if negb (is_null (GetDllStatusFunc g)) then call_GetDllStatus (GetDllStatusFunc g)
  else ret 0xFFFFFFFF.

End Exports.

(** *** States and histories *)

(** The states the exported functions can reach from the initial one. *)
Inductive reachable (env : Env) : State -> Prop :=
| reach_new : reachable env State_new
| reach_LoadWinRing0 s :
    reachable env s -> reachable env (snd (LoadWinRing0 env s))
| reach_InitWinRing0 s :
    reachable env s -> reachable env (snd (InitWinRing0 env s))
| reach_DeinitWinRing0 s :
    reachable env s -> reachable env (snd (DeinitWinRing0 s))
| reach_ReadPort port s :
    reachable env s -> reachable env (snd (ReadPort env port s))
| reach_WritePort port value s :
    reachable env s -> reachable env (snd (WritePort port value s))
| reach_GetStatus s :
    reachable env s -> reachable env (snd (GetStatus env s)).

(** The five function pointers are all set. *)
Definition resolved (g : Globals) : bool :=
  negb (is_null (InitializeOlsFunc g)) && negb (is_null (DeinitializeOlsFunc g))
  && negb (is_null (GetDllStatusFunc g)) && negb (is_null (ReadIoPortByteFunc g))
  && negb (is_null (WriteIoPortByteFunc g)).

(** The flags, the handle and the pointers agree. *)
Definition consistent (g : Globals) : bool :=
  implb (winRingInitialized g) (winRingLoaded g)
  && implb (winRingLoaded g) (resolved g)
  && Bool.eqb (winRingLoaded g) (negb (is_null (hWinRing0 g))).

(** Whether WinRing0 is loaded after a history, started with [live]. *)
Fixpoint live_after (live : bool) (evs : list Event) : bool :=
  match evs with
  | [] => live
  | EvLoadLibraryW _ (Some _) :: r => live_after true r
  | EvFreeLibrary _ :: r => live_after false r
  | _ :: r => live_after live r
  end.

(** Every call through a function pointer of a history is made through
    a pointer that is set, at a time WinRing0 is loaded. *)
Definition is_driver_call (e : Event) : option (option Z) :=
  match e with
  | EvInitializeOls fn _ | EvDeinitializeOls fn | EvGetDllStatus fn _
  | EvReadIoPortByte fn _ _ | EvWriteIoPortByte fn _ _ => Some fn
  | _ => None
  end.

Fixpoint calls_safe (live : bool) (evs : list Event) : bool :=
  match evs with
  | [] => true
  | e :: r =>
      match is_driver_call e with
      | Some fn => live && negb (is_null fn)
      | None => true
      end && calls_safe (live_after live [e]) r
  end.

(** Loads of WinRing0 minus calls of [FreeLibrary]. *)
Fixpoint lib_refs (evs : list Event) : Z :=
  match evs with
  | [] => 0
  | EvLoadLibraryW _ (Some _) :: r => 1 + lib_refs r
  | EvFreeLibrary _ :: r => lib_refs r - 1
  | _ :: r => lib_refs r
  end.

(** The events since an earlier history [old]. *)
Definition events_since (old : list Event) (s : State) : list Event :=
  skipn (List.length old) (trace s).

(** The directory part of a file name: the name up to its last
    backslash or slash, [L"."] when it has none. *)
Definition directory_of (path : wstring) : wstring :=
  match find_last_of path (L "\/") with
  | Some lastBackslash => firstn lastBackslash path
  | None => L "."
  end.

(** The calls of the loop of [GetModuleDirectory] for a module whose
    file name is [path], from a buffer of [size] code units. *)
Fixpoint file_name_events (fuel : nat) (hModule : option Z) (path : wstring) (size : Z)
    : list Event :=
  let size := size + MAX_PATH in
  let copied := fst (file_name_into path size) in
  EvGetModuleFileNameW hModule size copied
  :: match fuel with
     | O => []
     | S fuel' => if size <=? copied then file_name_events fuel' hModule path size else []
     end.

(** The handle [LoadWinRing0] gets for the wrapper itself in state
    [s], the queries it starts with, and the path it passes to
    [LoadLibraryW]. *)
Definition self_handle (env : Env) (s : State) : option Z :=
  os_GetModuleHandleExW env (trace s).

Definition query_events (env : Env) (hSelf : option Z) : list Event :=
  EvGetModuleHandleExW hSelf
  :: file_name_events (List.length (module_path env hSelf)) hSelf (module_path env hSelf) 0.

Definition winring_path (env : Env) (hSelf : option Z) : wstring :=
  directory_of (module_path env hSelf) ++ L "\WinRing0x64.dll".

(** The calls of [LoadWinRing0] from [LoadLibraryW] up to the null test
    on the five pointers, when WinRing0 was found at [h]. *)
Definition load_events (env : Env) (hSelf : option Z) (h : Z)
    (p1 p2 p3 p4 p5 : option Z) : list Event :=
  [EvLoadLibraryW (winring_path env hSelf) (Some h);
   EvGetProcAddress h "InitializeOls" p1;
   EvGetProcAddress h "DeinitializeOls" p2;
   EvGetProcAddress h "GetDllStatus" p3;
   EvGetProcAddress h "ReadIoPortByte" p4;
   EvGetProcAddress h "WriteIoPortByte" p5].

(** [code] is an answer of [GetLastError]. *)
Definition error_code (env : Env) (code : Z) : Prop :=
  exists h, code = u32 (os_GetLastError env h).

(** The three ways [LoadWinRing0] can go when WinRing0 is not loaded:
    result, globals and history at the end. *)
Inductive load_outcome (env : Env) (s : State) : bool -> State -> Prop :=
| load_no_library code :
    error_code env code ->
    load_outcome env s false
      (mkState
         (mkGlobals None (InitializeOlsFunc (globals s)) (DeinitializeOlsFunc (globals s))
            (GetDllStatusFunc (globals s)) (ReadIoPortByteFunc (globals s))
            (WriteIoPortByteFunc (globals s)) false (winRingInitialized (globals s)) code)
         (trace s ++ query_events env (self_handle env s)
          ++ [EvLoadLibraryW (winring_path env (self_handle env s)) None;
              EvGetLastError code]))
| load_missing_export h p1 p2 p3 p4 p5 code :
    is_null p1 || is_null p2 || is_null p3 || is_null p4 || is_null p5 = true ->
    error_code env code ->
    load_outcome env s false
      (mkState
         (mkGlobals None p1 p2 p3 p4 p5 false (winRingInitialized (globals s)) code)
         (trace s ++ query_events env (self_handle env s)
          ++ load_events env (self_handle env s) h p1 p2 p3 p4 p5
          ++ [EvGetLastError code; EvFreeLibrary (Some h)]))
| load_success h a1 a2 a3 a4 a5 :
    load_outcome env s true
      (mkState
         (mkGlobals (Some h) (Some a1) (Some a2) (Some a3) (Some a4) (Some a5)
            true (winRingInitialized (globals s)) 0)
         (trace s ++ query_events env (self_handle env s)
          ++ load_events env (self_handle env s) h
               (Some a1) (Some a2) (Some a3) (Some a4) (Some a5))).

(** The calls [DeinitWinRing0] makes from the globals [g]. *)
Definition release_events (g : Globals) : list Event :=
  (if winRingInitialized g && negb (is_null (DeinitializeOlsFunc g))
   then [EvDeinitializeOls (DeinitializeOlsFunc g)] else [])
  ++ (if negb (is_null (hWinRing0 g)) then [EvFreeLibrary (hWinRing0 g)] else []).

(** What holds of every reachable state: the flags, the handle and the
    pointers agree, and the history has loaded WinRing0 once more than
    it has freed it exactly when the loaded flag is set. *)
Definition balanced (s : State) : Prop :=
  consistent (globals s) = true
  /\ live_after false (trace s) = winRingLoaded (globals s)
  /\ lib_refs (trace s) = (if winRingLoaded (globals s) then 1 else 0).

(** With error codes that are not 0: a pointer kept from a failed load
    is never called, and every call through a pointer was safe. *)
Definition guarded (s : State) : Prop :=
  (winRingLoaded (globals s) = false ->
   is_null (GetDllStatusFunc (globals s)) = false ->
   lastLoadError (globals s) <> 0)
  /\ calls_safe false (trace s) = true.

(** [GetLastError] never answers 0 (it is only called after a call that
    failed). *)
Definition errors_nonzero (env : Env) : Prop :=
  forall h, u32 (os_GetLastError env h) <> 0.

(** *** Test doubles *)

(** A WinRing0 with all five exports, found at handle [0x20000], that
    initialises when [init_ok]; the wrapper DLL is the module at handle
    [0x30000], with file name [path]. *)
Definition mock_env (path : wstring) (init_ok : bool) : Env :=
  mkEnv (fun _ => Some 0x30000) (fun _ => path)
        (fun _ _ => Some 0x20000) (fun _ => 127)
        (fun _ _ name => Some (0x21000 + Z.of_nat (String.length name)))
        (fun _ => init_ok) (fun _ => 1) (fun _ port => port).

(** The wrapper installed as [C:\fan\winring_wrapper.dll]. *)
Definition installed_env : Env := mock_env (L "C:\fan\winring_wrapper.dll") true.

(** The state after [LoadWinRing0] and [InitWinRing0] there. *)
Definition running_state : State :=
  snd (InitWinRing0 installed_env (snd (LoadWinRing0 installed_env State_new))).

(** A WinRing0x64.dll without the export [WriteIoPortByte], and a
    [GetLastError] that answers 0. *)
Definition silent_env : Env :=
  mkEnv (fun _ => Some 0x30000) (fun _ => L "C:\fan\winring_wrapper.dll")
        (fun _ _ => Some 0x20000) (fun _ => 0)
        (fun _ _ name => if String.eqb name "WriteIoPortByte" then None
                         else Some (0x21000 + Z.of_nat (String.length name)))
        (fun _ => true) (fun _ => 1) (fun _ port => port).

(** No WinRing0x64.dll next to the wrapper: error 126. *)
Definition missing_env (path : wstring) : Env :=
  mkEnv (fun _ => Some 0x30000) (fun _ => path)
        (fun _ _ => None) (fun _ => 126) (fun _ _ _ => None)
        (fun _ => false) (fun _ => 0) (fun _ _ => 0).

End Wrapper.

(** * Proofs *)

(** ** The monad *)

Lemma bind_run {A B} (m : M A) (k : A -> M B) s a s' :
  m s = (a, s') -> bind m k s = k a s'.
Proof. intros H. unfold bind. rewrite H. reflexivity. Qed.

Lemma log_nil s : log [] s = s.
Proof. destruct s. unfold log. simpl. rewrite app_nil_r. reflexivity. Qed.

Lemma log_log e1 e2 s : log e2 (log e1 s) = log (e1 ++ e2) s.
Proof. unfold log. simpl. rewrite app_assoc. reflexivity. Qed.

Lemma ctl_log evs s : ctl (log evs s) = ctl s.
Proof. reflexivity. Qed.

Lemma trace_log evs s : trace (log evs s) = trace s ++ evs.
Proof. reflexivity. Qed.

Lemma events_since_log evs s : events_since (trace s) (log evs s) = evs.
Proof.
  unfold events_since. simpl.
  rewrite skipn_app, skipn_all, Nat.sub_diag. reflexivity.
Qed.

Lemma u16_u16 z : u16 (u16 z) = u16 z.
Proof. unfold u16. apply Z.mod_mod. lia. Qed.

Lemma u8_u8 z : u8 (u8 z) = u8 z.
Proof. unfold u8. apply Z.mod_mod. lia. Qed.

Lemma u8_byte z : u8 (Z.land z 0xFF) = Z.land z 0xFF.
Proof.
  unfold u8. change 0xFF with (Z.ones 8). rewrite Z.land_ones by lia.
  change (2 ^ 8) with 256. apply Z.mod_mod. lia.
Qed.

Lemma u16_add z i : u16 (u16 z + u16 i) = u16 (z + i).
Proof. unfold u16. rewrite <- Z.add_mod by lia. reflexivity. Qed.

Lemma is_ready_can_read c : is_ready c = true -> can_read c = true.
Proof.
  unfold is_ready, can_read. intros H.
  repeat (apply andb_true_iff in H; destruct H as [H ?]).
  rewrite H. assumption.
Qed.

Lemma is_ready_can_write c : is_ready c = true -> can_write c = true.
Proof.
  unfold is_ready, can_write. intros H.
  repeat (apply andb_true_iff in H; destruct H as [H ?]).
  rewrite H. assumption.
Qed.

Lemma is_ready_init_ok c : is_ready c = true -> winring_init_ok c = true.
Proof.
  unfold is_ready. intros H.
  repeat (apply andb_true_iff in H; destruct H as [H ?]). assumption.
Qed.

Lemma uninitialized_cannot c :
  winring_init_ok c = false -> can_read c = false /\ can_write c = false.
Proof. unfold can_read, can_write. intros ->. split; reflexivity. Qed.

(** ** Port and EC primitives *)

Section Primitives.

Variable env : Env.

Lemma write_io_port_byte_run port value s :
  write_io_port_byte port value s
  = (tt, log (if can_write (ctl s) then [EvWritePort (u16 port) (u8 value)] else []) s).
Proof.
  unfold write_io_port_byte, bind, this, can_write.
  destruct (winring_init_ok (ctl s)); simpl.
  - destruct (pWritePort (ctl s)); simpl.
    + reflexivity.
    + unfold ret. rewrite log_nil. reflexivity.
  - unfold ret. rewrite log_nil. reflexivity.
Qed.

Lemma read_io_port_byte_run port s :
  read_io_port_byte env port s
  = if can_read (ctl s)
    then let v := u8 (dll_ReadPort env (trace s) (u16 port)) in
         (v, log [EvReadPort (u16 port) v] s)
    else (0, s).
Proof.
  unfold read_io_port_byte, bind, this, can_read.
  destruct (winring_init_ok (ctl s)); simpl.
  - destruct (pReadPort (ctl s)); simpl; reflexivity.
  - reflexivity.
Qed.

Lemma direct_ec_write_run addr data s :
  direct_ec_write addr data s
  = (tt, log (if can_write (ctl s) then ec_write_tx addr data else []) s).
Proof.
  unfold direct_ec_write.
  repeat (erewrite bind_run by apply write_io_port_byte_run;
          rewrite ?ctl_log).
  rewrite write_io_port_byte_run.
  rewrite ?ctl_log, ?log_log.
  destruct (can_write (ctl s)); simpl.
  - rewrite u8_u8, !u8_byte. reflexivity.
  - reflexivity.
Qed.

Lemma direct_ec_read_run addr s :
  direct_ec_read env addr s
  = (ec_read_answer env addr s,
     log ((if can_write (ctl s) then address_phases addr else [])
          ++ (if can_read (ctl s)
              then [EvReadPort EC_DATA_PORT (ec_read_answer env addr s)] else []))
         s).
Proof.
  unfold direct_ec_read.
  repeat (erewrite bind_run by apply write_io_port_byte_run;
          rewrite ?ctl_log).
  rewrite read_io_port_byte_run.
  rewrite ?ctl_log, ?log_log. unfold ec_read_answer.
  destruct (can_read (ctl s)), (can_write (ctl s)); simpl;
    rewrite ?log_log, ?app_nil_r, ?log_nil, ?u8_byte; reflexivity.
Qed.

End Primitives.

(** ** Array transfers *)

Section Arrays.

Variable env : Env.

(** The address bytes of a transaction spell the 16-bit address. *)
Lemma address_bytes addr :
  Z.land (Z.shiftr (u16 addr) 8) 0xFF * 256 + Z.land (u16 addr) 0xFF = u16 addr.
Proof.
  change 0xFF with (Z.ones 8). rewrite !Z.land_ones by lia.
  rewrite Z.shiftr_div_pow2 by lia. change (2 ^ 8) with 256.
  assert (0 <= u16 addr < 65536) by (unfold u16; apply Z.mod_pos_bound; lia).
  rewrite (Z.mod_small (u16 addr / 256)).
  - pose proof (Z.div_mod (u16 addr) 256). lia.
  - split.
    + apply Z.div_pos; lia.
    + apply Z.div_lt_upper_bound; lia.
Qed.

Lemma address_phases_u16 base i :
  address_phases (u16 base + u16 i) = address_phases (base + i).
Proof. unfold address_phases. rewrite u16_add. reflexivity. Qed.

Lemma direct_ec_write_u16 base i v s :
  direct_ec_write (u16 base + u16 i) v s = direct_ec_write (base + i) v s.
Proof.
  rewrite !direct_ec_write_run. unfold ec_write_tx.
  rewrite address_phases_u16. reflexivity.
Qed.

Lemma ec_write_loop_fold addr_base data : forall i s,
  ec_write_loop (u16 addr_base) (Z.of_nat i) data s
  = (tt, fold_left (write_element addr_base)
                   (combine (seq i (List.length data)) data) s).
Proof.
  induction data as [|v rest IH]; intros i s.
  - reflexivity.
  - cbn [ec_write_loop List.length seq combine fold_left].
    unfold bind. rewrite direct_ec_write_u16.
    unfold write_element at 2. cbn [fst snd].
    destruct (direct_ec_write (addr_base + Z.of_nat i) v s) as [[] s1].
    cbn [snd]. replace (Z.of_nat i + 1) with (Z.of_nat (S i)) by lia.
    apply IH.
Qed.

Lemma write_elements_log addr_base l : forall s,
  fold_left (write_element addr_base) l s
  = log (if can_write (ctl s)
         then flat_map (fun iv => ec_write_tx (addr_base + Z.of_nat (fst iv)) (snd iv)) l
         else []) s.
Proof.
  induction l as [|iv l IH]; intros s.
  - cbn [fold_left flat_map]. destruct (can_write (ctl s)); rewrite log_nil; reflexivity.
  - cbn [fold_left flat_map]. rewrite IH. unfold write_element.
    rewrite direct_ec_write_run. cbn [snd]. rewrite ctl_log, log_log.
    destruct (can_write (ctl s)); reflexivity.
Qed.

Lemma direct_ec_write_array_fold addr_base data s :
  direct_ec_write_array addr_base data s
  = (tt, fold_left (write_element addr_base) (indexed data) s).
Proof.
  unfold direct_ec_write_array, indexed. destruct data as [|v rest].
  - reflexivity.
  - apply (ec_write_loop_fold addr_base (v :: rest) 0 s).
Qed.

Lemma direct_ec_write_array_run addr_base data s :
  direct_ec_write_array addr_base data s
  = (tt, log (if can_write (ctl s)
              then flat_map (fun iv => ec_write_tx (addr_base + Z.of_nat (fst iv)) (snd iv))
                            (indexed data)
              else []) s).
Proof. rewrite direct_ec_write_array_fold, write_elements_log. reflexivity. Qed.

(** C9. The array write is one single-byte write transaction per
    element, in index order, element [i] going to address
    [addr_base + i] with the element's value: as calls of
    [direct_ec_write], and as port events whenever the controller lets
    port writes through.  On the empty sequence nothing happens at
    all. *)
Theorem direct_ec_write_array_transactions addr_base data s :
  direct_ec_write_array addr_base data s
    = (tt, fold_left (write_element addr_base) (indexed data) s)
  /\ direct_ec_write_array addr_base data s
    = (tt, log (if can_write (ctl s)
                then flat_map (fun iv => ec_write_tx (addr_base + Z.of_nat (fst iv)) (snd iv))
                              (indexed data)
                else []) s)
  /\ List.length (indexed data) = List.length data
  /\ direct_ec_write_array addr_base [] s = (tt, s).
Proof.
  split; [apply direct_ec_write_array_fold|].
  split; [apply direct_ec_write_array_run|].
  split; [|reflexivity].
  unfold indexed. rewrite length_combine, length_seq. apply Nat.min_id.
Qed.

(** The same for reads: [n] read transactions at [addr_base + i]. *)
Lemma ec_read_loop_ctl addr_base n : forall i s,
  ctl (snd (ec_read_loop env addr_base i n s)) = ctl s.
Proof.
  induction n as [|n IH]; intros i s.
  - reflexivity.
  - cbn [ec_read_loop]. unfold bind. rewrite direct_ec_read_run.
    match goal with |- context [ec_read_loop env addr_base (i + 1) n ?st] =>
      specialize (IH (i + 1) st); destruct (ec_read_loop env addr_base (i + 1) n st) end.
    exact IH.
Qed.

Lemma ec_read_loop_length addr_base n : forall i s,
  List.length (fst (ec_read_loop env addr_base i n s)) = n.
Proof.
  induction n as [|n IH]; intros i s.
  - reflexivity.
  - cbn [ec_read_loop]. unfold bind. rewrite direct_ec_read_run.
    match goal with |- context [ec_read_loop env addr_base (i + 1) n ?st] =>
      specialize (IH (i + 1) st); destruct (ec_read_loop env addr_base (i + 1) n st) end.
    cbn [fst] in *. simpl. rewrite IH. reflexivity.
Qed.

Lemma ec_read_loop_idle addr_base n : forall i s,
  winring_init_ok (ctl s) = false ->
  ec_read_loop env addr_base i n s = (repeat 0 n, s).
Proof.
  induction n as [|n IH]; intros i s H.
  - reflexivity.
  - cbn [ec_read_loop]. unfold bind. rewrite direct_ec_read_run.
    unfold ec_read_answer.
    destruct (uninitialized_cannot _ H) as [-> ->]. cbn [app]. rewrite log_nil.
    rewrite IH by assumption. reflexivity.
Qed.

End Arrays.

(** ** Single-byte read of [0xC580 + 3] *)

Lemma direct_ec_read_ready env addr s :
  is_ready (ctl s) = true ->
  let value := u8 (dll_ReadPort env (trace s ++ address_phases addr) EC_DATA_PORT) in
  direct_ec_read env addr s = (value, log (ec_read_tx addr value) s).
Proof.
  intros H. rewrite direct_ec_read_run. unfold ec_read_answer.
  rewrite (is_ready_can_read _ H), (is_ready_can_write _ H). reflexivity.
Qed.

(** C2. On a ready controller the read of EC address [0xC580 + 3] is
    eleven port writes, namely index register 0x11 selected and the high
    byte 0xC5 written, index register 0x10 selected and the low byte 0x83
    written, data register 0x12 selected, and then one port read; the
    address port is 0x4E and the data port 0x4F throughout, and the value
    returned is the byte that read was answered. *)
Theorem direct_ec_read_0xC583 env s :
  is_ready (ctl s) = true ->
  let phases :=
    [EvWritePort 0x4E 0x2E; EvWritePort 0x4F 0x11; EvWritePort 0x4E 0x2F;
     EvWritePort 0x4F 0xC5;
     EvWritePort 0x4E 0x2E; EvWritePort 0x4F 0x10; EvWritePort 0x4E 0x2F;
     EvWritePort 0x4F 0x83;
     EvWritePort 0x4E 0x2E; EvWritePort 0x4F 0x12; EvWritePort 0x4E 0x2F] in
  let value := u8 (dll_ReadPort env (trace s ++ phases) 0x4F) in
  direct_ec_read env (ITE_REGISTER_MAP.CPU_TEMP + 3) s
    = (value, log (phases ++ [EvReadPort 0x4F value]) s)
  /\ phases = select_index 0x11 ++ [EvWritePort EC_DATA_PORT 0xC5]
              ++ select_index 0x10 ++ [EvWritePort EC_DATA_PORT 0x83]
              ++ select_index 0x12
  /\ List.length (filter is_write (phases ++ [EvReadPort 0x4F value])) = 11%nat
  /\ List.length (filter is_read (phases ++ [EvReadPort 0x4F value])) = 1%nat
  /\ EC_ADDR_PORT = 0x4E /\ EC_DATA_PORT = 0x4F
  /\ ITE_REGISTER_MAP.CPU_TEMP + 3 = 0xC5 * 256 + 0x83.
Proof.
  intros H phases value. split.
  - apply (direct_ec_read_ready env (ITE_REGISTER_MAP.CPU_TEMP + 3) s H).
  - repeat split; reflexivity.
Qed.

(** ** Guards of the two public operations *)

Lemma bad_sizes_false configData :
  bad_sizes configData = false <-> all_sizes_10 configData.
Proof.
  unfold bad_sizes, all_sizes_10.
  rewrite !orb_false_iff, !negb_false_iff, !Nat.eqb_eq. tauto.
Qed.

Lemma bad_sizes_true configData :
  bad_sizes configData = true <-> ~ all_sizes_10 configData.
Proof.
  rewrite <- bad_sizes_false. destruct (bad_sizes configData); intuition congruence.
Qed.

(** C1. On an initialised controller, a configuration in which some
    table has a size other than 10 makes [writeConfig] return false with
    the invalid-configuration message as last error, and nothing else
    changes: there is no port read, no port write, no call at all. *)
Theorem writeConfig_rejects_bad_sizes env configData s :
  winring_init_ok (ctl s) = true ->
  ~ all_sizes_10 configData ->
  writeConfig env configData s = (false, with_error msg_invalid_config s)
  /\ trace (snd (writeConfig env configData s)) = trace s
  /\ filter is_port_event (events_since (trace s) (snd (writeConfig env configData s))) = [].
Proof.
  intros Hok Hbad. apply bad_sizes_true in Hbad.
  assert (E : writeConfig env configData s = (false, with_error msg_invalid_config s)).
  { unfold writeConfig, bind, this. rewrite Hok. cbn [negb setError update].
    rewrite Hbad. reflexivity. }
  rewrite E. cbn [snd with_error trace]. repeat split.
  unfold events_since. cbn [trace]. rewrite skipn_all. reflexivity.
Qed.

Lemma readStatus_uninitialized env statusData s :
  winring_init_ok (ctl s) = false ->
  readStatus env statusData s
  = ((false, statusData), with_error msg_read_not_initialized s).
Proof. intros H. unfold readStatus, bind, this. rewrite H. reflexivity. Qed.

Lemma writeConfig_uninitialized env configData s :
  winring_init_ok (ctl s) = false ->
  writeConfig env configData s = (false, with_error msg_write_not_initialized s).
Proof. intros H. unfold writeConfig, bind, this. rewrite H. reflexivity. Qed.

(** C3. On a controller whose [winring_init_ok] is false, [readStatus]
    and [writeConfig] return false, leave the not-initialised message of
    the operation as last error, hand [statusData] back untouched, and
    make no port read, no port write and no other call. *)
Theorem uninitialized_operations_fail env statusData configData s :
  winring_init_ok (ctl s) = false ->
  readStatus env statusData s
    = ((false, statusData), with_error msg_read_not_initialized s)
  /\ writeConfig env configData s
    = (false, with_error msg_write_not_initialized s)
  /\ trace (snd (readStatus env statusData s)) = trace s
  /\ trace (snd (writeConfig env configData s)) = trace s.
Proof.
  intros H.
  rewrite (readStatus_uninitialized env statusData s H),
          (writeConfig_uninitialized env configData s H).
  repeat split.
Qed.

(** ** The body of [writeConfig] *)

Lemma bind_assoc {A B C} (m : M A) (k : A -> M B) (k' : B -> M C) s :
  bind (bind m k) k' s = bind m (fun a => bind (k a) k') s.
Proof. unfold bind. destruct (m s). reflexivity. Qed.

Lemma bind_ext {A B} (m : M A) (k k' : A -> M B) s :
  (forall a s', k a s' = k' a s') -> bind m k s = bind m k' s.
Proof. intros H. unfold bind. destruct (m s). apply H. Qed.

Lemma keeps_ctl_ret {A} (a : A) : keeps_ctl (ret a).
Proof. intros s. reflexivity. Qed.

Lemma keeps_ctl_bind {A B} (m : M A) (k : A -> M B) :
  keeps_ctl m -> (forall a, keeps_ctl (k a)) -> keeps_ctl (bind m k).
Proof.
  intros Hm Hk s. unfold bind. specialize (Hm s).
  destruct (m s) as [a s1]. cbn [snd] in Hm. rewrite Hk. exact Hm.
Qed.

Lemma keeps_ctl_direct_ec_write addr data : keeps_ctl (direct_ec_write addr data).
Proof. intros s. rewrite direct_ec_write_run. reflexivity. Qed.

Lemma keeps_ctl_direct_ec_read env addr : keeps_ctl (direct_ec_read env addr).
Proof. intros s. rewrite direct_ec_read_run. reflexivity. Qed.

Lemma keeps_ctl_direct_ec_write_array addr_base data :
  keeps_ctl (direct_ec_write_array addr_base data).
Proof. intros s. rewrite direct_ec_write_array_run. cbn [snd]. apply ctl_log. Qed.

Lemma keeps_ctl_direct_ec_read_array env addr_base size :
  keeps_ctl (direct_ec_read_array env addr_base size).
Proof. intros s. unfold direct_ec_read_array. apply ec_read_loop_ctl. Qed.

Create HintDb fan.

#[local] Hint Resolve keeps_ctl_ret keeps_ctl_direct_ec_write
  keeps_ctl_direct_ec_read keeps_ctl_direct_ec_write_array
  keeps_ctl_direct_ec_read_array : fan.

Ltac keeps_ctl_tac :=
  repeat first [ solve [auto with fan]
               | apply keeps_ctl_bind; [|intros ?; cbv beta] ].

Section WriteConfig.

Variable env : Env.

(** Past its two guards, [writeConfig] is these two parts in sequence,
    started with the error string cleared. *)
Lemma writeConfig_body configData s :
  winring_init_ok (ctl s) = true ->
  bad_sizes configData = false ->
  writeConfig env configData s
  = (idx <- write_tables_read_index env configData ;;
     update_live_registers configData idx) (with_error EmptyString s).
Proof.
  intros Hok Hsz. unfold writeConfig.
  unfold bind at 1, this. rewrite Hok. cbn [negb].
  unfold bind at 1. cbn [setError update]. rewrite Hsz.
  change (mkMachine (set_lastError EmptyString (ctl s)) (trace s)) with (with_error EmptyString s).
  unfold write_tables_read_index.
  repeat first [ rewrite bind_assoc | apply bind_ext; intros ? ? ].
  reflexivity.
Qed.

Lemma write_tables_read_index_ctl configData :
  keeps_ctl (write_tables_read_index env configData).
Proof. unfold write_tables_read_index. keeps_ctl_tac. Qed.

Lemma ends_with_index_read_here :
  ends_with_index_read env (direct_ec_read env ITE_REGISTER_MAP.FAN_CUR_POINT).
Proof.
  intros s H. exists s. split; [reflexivity|].
  split; [exists []; symmetry; apply app_nil_r|].
  apply direct_ec_read_ready. exact H.
Qed.

Lemma ends_with_index_read_bind {A} (m : M A) (k : A -> M Z) :
  keeps_ctl m ->
  (forall s, exists evs, trace (snd (m s)) = trace s ++ evs) ->
  (forall a, ends_with_index_read env (k a)) ->
  ends_with_index_read env (bind m k).
Proof.
  intros Hm Ht Hk s H. unfold bind.
  specialize (Hm s). specialize (Ht s). destruct (m s) as [a s1]. cbn [snd] in Hm, Ht.
  destruct (Hk a s1) as (before & Hc & (evs & He) & Hrun).
  - rewrite Hm. exact H.
  - exists before. split; [congruence|]. split; [|exact Hrun].
    destruct Ht as (evs0 & Ht). exists (evs0 ++ evs).
    rewrite He, Ht, app_assoc. reflexivity.
Qed.

Lemma grows_direct_ec_write addr data s :
  exists evs, trace (snd (direct_ec_write addr data s)) = trace s ++ evs.
Proof. rewrite direct_ec_write_run. eexists. reflexivity. Qed.

Lemma grows_direct_ec_read addr s :
  exists evs, trace (snd (direct_ec_read env addr s)) = trace s ++ evs.
Proof. rewrite direct_ec_read_run. eexists. reflexivity. Qed.

Lemma grows_direct_ec_write_array addr_base data s :
  exists evs, trace (snd (direct_ec_write_array addr_base data s)) = trace s ++ evs.
Proof. rewrite direct_ec_write_array_run. eexists. reflexivity. Qed.

(** The index read is the last thing the first part does. *)
Lemma write_tables_read_index_last configData :
  ends_with_index_read env (write_tables_read_index env configData).
Proof.
  unfold write_tables_read_index.
  repeat first
    [ apply ends_with_index_read_here
    | apply ends_with_index_read_bind;
      [ auto with fan
      | first [ apply grows_direct_ec_write_array
              | apply grows_direct_ec_write
              | apply grows_direct_ec_read ]
      | intros ?; cbv beta ] ].
Qed.

Lemma update_live_registers_out_of_range configData idx s :
  Z.of_nat (List.length (acc_time configData)) <= idx ->
  Z.of_nat (List.length (dec_time configData)) <= idx ->
  update_live_registers configData idx s = (true, with_error (msg_dec_index idx) s).
Proof.
  intros Ha Hd. unfold update_live_registers.
  apply Z.ltb_ge in Ha, Hd. rewrite Ha, Hd. reflexivity.
Qed.

Lemma update_live_registers_in_range configData idx s :
  idx < Z.of_nat (List.length (acc_time configData)) ->
  idx < Z.of_nat (List.length (dec_time configData)) ->
  update_live_registers configData idx s
  = (true,
     log (if can_write (ctl s) then
            ec_write_tx ITE_REGISTER_MAP.FAN1_CUR_ACC (at_index (acc_time configData) idx)
            ++ ec_write_tx ITE_REGISTER_MAP.FAN2_CUR_ACC (at_index (acc_time configData) idx)
            ++ ec_write_tx ITE_REGISTER_MAP.FAN1_CUR_DEC (at_index (dec_time configData) idx)
            ++ ec_write_tx ITE_REGISTER_MAP.FAN2_CUR_DEC (at_index (dec_time configData) idx)
          else []) s).
Proof.
  intros Ha Hd. unfold update_live_registers.
  apply Z.ltb_lt in Ha, Hd. rewrite Ha, Hd.
  repeat (rewrite ?bind_assoc;
          erewrite bind_run by apply direct_ec_write_run; rewrite ?ctl_log, ?log_log).
  unfold ret. destruct (can_write (ctl s)); rewrite <- ?app_assoc; reflexivity.
Qed.

(** Whatever the index, the second part returns true, and the error
    string it leaves is the old one or one of the two warnings. *)
Lemma update_live_registers_true configData idx s :
  fst (update_live_registers configData idx s) = true
  /\ (let e := lastError (ctl (snd (update_live_registers configData idx s))) in
      e = lastError (ctl s) \/ e = msg_acc_index idx \/ e = msg_dec_index idx).
Proof.
  unfold update_live_registers.
  destruct (idx <? Z.of_nat (List.length (acc_time configData)));
    destruct (idx <? Z.of_nat (List.length (dec_time configData)));
    unfold bind, setError, update, ret; rewrite ?direct_ec_write_run; cbv zeta;
    cbn [fst snd ctl lastError set_lastError log]; auto.
Qed.

End WriteConfig.

(** ** The out-of-range breakpoint index *)

Lemma warning_is_not_invalid_config idx :
  msg_acc_index idx <> msg_invalid_config /\ msg_dec_index idx <> msg_invalid_config.
Proof. split; unfold msg_acc_index, msg_dec_index, msg_invalid_config; cbn [append]; discriminate. Qed.

(** C4. With a ready controller and ten tables of size 10, let [r] be
    the outcome of [writeConfig]'s steps up to and including the read of
    the current-curve-point register.  If the index read, [fst r], is 10
    or more, then [writeConfig] returns true, the machine it leaves is the
    one right after that read except for the last-error string, which is
    the DEC_time warning carrying the index in decimal; so the history
    ends with the read transaction of [FAN_CUR_POINT] and none of the four
    live acc/dec registers is written. *)
Theorem writeConfig_index_out_of_range env configData s :
  is_ready (ctl s) = true ->
  all_sizes_10 configData ->
  let r := write_tables_read_index env configData (with_error EmptyString s) in
  10 <= fst r ->
  writeConfig env configData s = (true, with_error (msg_dec_index (fst r)) (snd r))
  /\ (exists before,
        snd r = log (ec_read_tx ITE_REGISTER_MAP.FAN_CUR_POINT (fst r)) before)
  /\ lastError (ctl (snd (writeConfig env configData s)))
     = ("Warning: Invalid DEC_time target index read from EC: " ++ to_string (fst r))%string.
Proof.
  intros Hready Hsz r Hidx.
  assert (E : writeConfig env configData s
              = (true, with_error (msg_dec_index (fst r)) (snd r))).
  { rewrite writeConfig_body.
    - unfold bind. fold r. destruct r as [idx s1]. cbn [fst snd] in *.
      destruct Hsz as (_ & _ & Ha & Hd & _).
      apply update_live_registers_out_of_range; rewrite ?Ha, ?Hd; exact Hidx.
    - apply is_ready_init_ok. exact Hready.
    - apply bad_sizes_false. exact Hsz. }
  split; [exact E|]. split.
  - destruct (write_tables_read_index_last env configData (with_error EmptyString s) Hready)
      as (before & _ & _ & Hrun).
    exists before. unfold r. cbv zeta in Hrun. rewrite Hrun. reflexivity.
  - rewrite E. reflexivity.
Qed.

(** For contrast: an index below 10 makes [writeConfig] write the four
    live registers from the entries at that index, and leaves the error
    string empty. *)
Lemma writeConfig_index_in_range env configData s :
  is_ready (ctl s) = true ->
  all_sizes_10 configData ->
  let r := write_tables_read_index env configData (with_error EmptyString s) in
  let idx := fst r in
  idx < 10 ->
  writeConfig env configData s
  = (true,
     log (ec_write_tx ITE_REGISTER_MAP.FAN1_CUR_ACC (at_index (acc_time configData) idx)
          ++ ec_write_tx ITE_REGISTER_MAP.FAN2_CUR_ACC (at_index (acc_time configData) idx)
          ++ ec_write_tx ITE_REGISTER_MAP.FAN1_CUR_DEC (at_index (dec_time configData) idx)
          ++ ec_write_tx ITE_REGISTER_MAP.FAN2_CUR_DEC (at_index (dec_time configData) idx))
         (snd r))
  /\ lastError (ctl (snd (writeConfig env configData s))) = EmptyString.
Proof.
  intros Hready Hsz r idx Hidx.
  assert (Hc : ctl (snd r) = ctl (with_error EmptyString s))
    by apply write_tables_read_index_ctl.
  assert (E : writeConfig env configData s
              = update_live_registers configData idx (snd r)).
  { rewrite writeConfig_body.
    - unfold bind. fold r. unfold idx. destruct r. reflexivity.
    - apply is_ready_init_ok. exact Hready.
    - apply bad_sizes_false. exact Hsz. }
  rewrite E. destruct Hsz as (_ & _ & Ha & Hd & _).
  rewrite update_live_registers_in_range by (rewrite ?Ha, ?Hd; exact Hidx).
  assert (Hw : can_write (ctl (snd r)) = true).
  { rewrite Hc. apply is_ready_can_write. exact Hready. }
  rewrite Hw. split; [reflexivity|].
  cbn [snd]. rewrite ctl_log, Hc. reflexivity.
Qed.

(** ** The default configuration *)

(** C10. Each of the ten tables of a default-constructed configuration
    is ten zeros, and on an initialised controller [writeConfig] of that
    configuration passes the size test: it returns true and the error
    string it leaves is not the invalid-configuration message. *)
Theorem writeConfig_default_config env s :
  Forall (fun t => t = [0; 0; 0; 0; 0; 0; 0; 0; 0; 0]) (tables FanConfigData_new)
  /\ all_sizes_10 FanConfigData_new
  /\ bad_sizes FanConfigData_new = false
  /\ (winring_init_ok (ctl s) = true ->
      fst (writeConfig env FanConfigData_new s) = true
      /\ lastError (ctl (snd (writeConfig env FanConfigData_new s))) <> msg_invalid_config).
Proof.
  split; [repeat constructor|].
  split; [repeat split|].
  split; [reflexivity|].
  intros Hok. rewrite writeConfig_body by (assumption || reflexivity).
  unfold bind.
  pose proof (write_tables_read_index_ctl env FanConfigData_new (with_error EmptyString s)) as Hc.
  destruct (write_tables_read_index env FanConfigData_new (with_error EmptyString s))
    as [idx s1].
  cbn [snd] in Hc.
  destruct (update_live_registers_true FanConfigData_new idx s1) as [Ht He].
  split; [exact Ht|].
  cbv zeta in He. rewrite Hc in He. cbn [with_error ctl set_lastError lastError] in He.
  destruct (warning_is_not_invalid_config idx) as [Na Nd].
  destruct He as [-> | [-> | ->]]; [discriminate | exact Na | exact Nd].
Qed.

(** ** The percent derivation *)

Lemma all_from_spec n : forall lo p,
  all_from n lo p = true ->
  forall z, lo <= z < lo + Z.of_nat n -> p z = true.
Proof.
  induction n as [|n IH]; intros lo p H z Hz.
  - lia.
  - cbn [all_from] in H. apply andb_true_iff in H. destruct H as [H0 H1].
    destruct (Z.eq_dec z lo) as [->|Hne]; [exact H0|].
    apply (IH (lo + 1) p H1). lia.
Qed.

Lemma returns_bind {A B} (m : M A) (k : A -> M B) (P : B -> Prop) :
  (forall a, returns (k a) P) -> returns (bind m k) P.
Proof. intros H s. unfold bind. destruct (m s) as [a s1]. apply H. Qed.

Lemma u16_range z : 0 <= u16 z < 65536.
Proof. unfold u16. apply Z.mod_pos_bound. lia. Qed.

(** What [readStatus] stores in the two percent members is
    [fan_percent] of the speed it stores, with the maximum of that fan;
    the speeds are 16-bit values. *)
Lemma readStatus_percent_derivation env statusData s :
  winring_init_ok (ctl s) = true ->
  let st := snd (fst (readStatus env statusData s)) in
  fst (fst (readStatus env statusData s)) = true
  /\ st_fan1_percent st = fan_percent (st_fan1_speed st) MAX_FAN1_RPM
  /\ st_fan2_percent st = fan_percent (st_fan2_speed st) MAX_FAN2_RPM
  /\ 0 <= st_fan1_speed st < 65536
  /\ 0 <= st_fan2_speed st < 65536.
Proof.
  intros Hok. cbv zeta.
  set (P := fun r : bool * FanStatusData =>
              fst r = true
              /\ st_fan1_percent (snd r) = fan_percent (st_fan1_speed (snd r)) MAX_FAN1_RPM
              /\ st_fan2_percent (snd r) = fan_percent (st_fan2_speed (snd r)) MAX_FAN2_RPM
              /\ 0 <= st_fan1_speed (snd r) < 65536
              /\ 0 <= st_fan2_speed (snd r) < 65536).
  change (P (fst (readStatus env statusData s))).
  unfold readStatus. unfold bind at 1, this. rewrite Hok. cbn [negb].
  clear Hok.
  match goal with |- P (fst (?m ?st)) => generalize st end.
  change (returns
    (setError EmptyString ;;
     fan1_low <- direct_ec_read env ITE_REGISTER_MAP.FAN1_RPM_LSB ;;
     fan1_high <- direct_ec_read env ITE_REGISTER_MAP.FAN1_RPM_MSB ;;
     fan2_low <- direct_ec_read env ITE_REGISTER_MAP.FAN2_RPM_LSB ;;
     fan2_high <- direct_ec_read env ITE_REGISTER_MAP.FAN2_RPM_MSB ;;
     fan1_curve <- direct_ec_read_array env ITE_REGISTER_MAP.FAN1_BASE 10 ;;
     fan2_curve <- direct_ec_read_array env ITE_REGISTER_MAP.FAN2_BASE 10 ;;
     acc_time <- direct_ec_read_array env ITE_REGISTER_MAP.FAN_ACC_BASE 10 ;;
     dec_time <- direct_ec_read_array env ITE_REGISTER_MAP.FAN_DEC_BASE 10 ;;
     cpu_upper_temp <- direct_ec_read_array env ITE_REGISTER_MAP.CPU_TEMP 10 ;;
     cpu_lower_temp <- direct_ec_read_array env ITE_REGISTER_MAP.CPU_TEMP_HYST 10 ;;
     gpu_upper_temp <- direct_ec_read_array env ITE_REGISTER_MAP.GPU_TEMP 10 ;;
     gpu_lower_temp <- direct_ec_read_array env ITE_REGISTER_MAP.GPU_TEMP_HYST 10 ;;
     vrm_upper_temp <- direct_ec_read_array env ITE_REGISTER_MAP.VRM_TEMP 10 ;;
     vrm_lower_temp <- direct_ec_read_array env ITE_REGISTER_MAP.VRM_TEMP_HYST 10 ;;
     chip_id1 <- direct_ec_read env ITE_REGISTER_MAP.ECHIPID1 ;;
     chip_id2 <- direct_ec_read env ITE_REGISTER_MAP.ECHIPID2 ;;
     chip_ver <- direct_ec_read env ITE_REGISTER_MAP.ECHIPVER ;;
     fw_ver <- direct_ec_read env ITE_REGISTER_MAP.FW_VER ;;
     fan1_target_duty <- direct_ec_read env ITE_REGISTER_MAP.FAN1_TARGET_DUTY ;;
     fan2_target_duty <- direct_ec_read env ITE_REGISTER_MAP.FAN2_TARGET_DUTY ;;
     fan1_target_curve_val <- direct_ec_read env ITE_REGISTER_MAP.FAN1_TARGET_CURVE_VAL ;;
     fan2_target_curve_val <- direct_ec_read env ITE_REGISTER_MAP.FAN2_TARGET_CURVE_VAL ;;
     fan_cur_point <- direct_ec_read env ITE_REGISTER_MAP.FAN_CUR_POINT ;;
     ret (true,
          mkFanStatusData
            (u16 (Z.lor (Z.shiftl (u16 fan1_high) 8) fan1_low))
            (u16 (Z.lor (Z.shiftl (u16 fan2_high) 8) fan2_low))
            (fan_percent (u16 (Z.lor (Z.shiftl (u16 fan1_high) 8) fan1_low)) MAX_FAN1_RPM)
            (fan_percent (u16 (Z.lor (Z.shiftl (u16 fan2_high) 8) fan2_low)) MAX_FAN2_RPM)
            fan1_curve fan2_curve acc_time dec_time
            cpu_lower_temp cpu_upper_temp gpu_lower_temp gpu_upper_temp
            vrm_lower_temp vrm_upper_temp
            chip_id1 chip_id2 chip_ver fw_ver
            fan1_target_duty fan2_target_duty
            fan1_target_curve_val fan2_target_curve_val fan_cur_point)) P).
  repeat (apply returns_bind; intros ?).
  intros s0. unfold P. cbn [ret fst snd st_fan1_percent st_fan2_percent
                            st_fan1_speed st_fan2_speed].
  repeat split; apply u16_range.
Qed.

Lemma fan1_above_max_checked :
  all_from (Z.to_nat 60335) 5201 (above_max_ok MAX_FAN1_RPM 5252) = true.
Proof. vm_compute. reflexivity. Qed.

Lemma fan2_above_max_checked :
  all_from (Z.to_nat 60535) 5001 (above_max_ok MAX_FAN2_RPM 5050) = true.
Proof. vm_compute. reflexivity. Qed.

Lemma above_max_ok_spec max_rpm threshold rpm :
  above_max_ok max_rpm threshold rpm = true ->
  (rpm < threshold -> fan_percent rpm max_rpm = 100)
  /\ (threshold <= rpm -> 100 < fan_percent rpm max_rpm).
Proof.
  unfold above_max_ok. destruct (Z.ltb_spec rpm threshold) as [Hlt|Hge]; intros H.
  - apply Z.eqb_eq in H. split; [auto | lia].
  - apply Z.ltb_lt in H. split; [lia | auto].
Qed.

Lemma fan1_above_max rpm :
  MAX_FAN1_RPM < rpm <= 65535 ->
  (rpm < 5252 -> fan_percent rpm MAX_FAN1_RPM = 100)
  /\ (5252 <= rpm -> 100 < fan_percent rpm MAX_FAN1_RPM).
Proof.
  intros H. apply above_max_ok_spec.
  apply (all_from_spec _ _ _ fan1_above_max_checked rpm).
  unfold MAX_FAN1_RPM in H. lia.
Qed.

Lemma fan2_above_max rpm :
  MAX_FAN2_RPM < rpm <= 65535 ->
  (rpm < 5050 -> fan_percent rpm MAX_FAN2_RPM = 100)
  /\ (5050 <= rpm -> 100 < fan_percent rpm MAX_FAN2_RPM).
Proof.
  intros H. apply above_max_ok_spec.
  apply (all_from_spec _ _ _ fan2_above_max_checked rpm).
  unfold MAX_FAN2_RPM in H. lia.
Qed.

(** The double arithmetic stays within one of the exact quotient: the
    percent is the integer part of [100 * rpm / max] or one less. *)
Lemma fan_percent_near_quotient_checked :
  all_from (Z.to_nat 65536) 0
    (fun rpm => (let q := 100 * rpm / MAX_FAN1_RPM in
                 let p := fan_percent rpm MAX_FAN1_RPM in (q - 1 <=? p) && (p <=? q))
                && (let q := 100 * rpm / MAX_FAN2_RPM in
                    let p := fan_percent rpm MAX_FAN2_RPM in (q - 1 <=? p) && (p <=? q)))
  = true.
Proof. vm_compute. reflexivity. Qed.

Lemma fan_percent_near_quotient rpm :
  0 <= rpm < 65536 ->
  100 * rpm / MAX_FAN1_RPM - 1 <= fan_percent rpm MAX_FAN1_RPM <= 100 * rpm / MAX_FAN1_RPM
  /\ 100 * rpm / MAX_FAN2_RPM - 1 <= fan_percent rpm MAX_FAN2_RPM <= 100 * rpm / MAX_FAN2_RPM.
Proof.
  intros H.
  pose proof (all_from_spec _ _ _ fan_percent_near_quotient_checked rpm) as C.
  cbv beta zeta in C.
  rewrite Z2Nat.id in C by lia. specialize (C ltac:(lia)).
  rewrite !andb_true_iff, !Z.leb_le in C. lia.
Qed.

(** The rounding of the division shows: 1508 / 5200 * 100 is 29 in exact
    arithmetic, and 28 here. *)
Example fan_percent_1508 :
  fan_percent 1508 MAX_FAN1_RPM = 28 /\ 100 * 1508 / MAX_FAN1_RPM = 29.
Proof. split; vm_compute; reflexivity. Qed.

(** C5, as the code has it.  The percent is the truncation of
    [(double) rpm / max * 100.0]: 2600 against 5200 gives 50, 0 gives 0,
    and there is no clamping, so a 16-bit reading above the fan's maximum
    gives a percent of at least 100 (up to 1260 on fan 1 and 1310 on
    fan 2); it is exactly 100 below 5252 on fan 1 and below 5050 on fan 2,
    and strictly more than 100 from there on. *)
Theorem fan_percent_truncates_without_clamping :
  fan_percent 2600 5200 = 50
  /\ fan_percent 0 MAX_FAN1_RPM = 0 /\ fan_percent 0 MAX_FAN2_RPM = 0
  /\ (forall rpm, MAX_FAN1_RPM < rpm <= 65535 ->
        100 <= fan_percent rpm MAX_FAN1_RPM
        /\ (rpm < 5252 -> fan_percent rpm MAX_FAN1_RPM = 100)
        /\ (5252 <= rpm -> 100 < fan_percent rpm MAX_FAN1_RPM))
  /\ (forall rpm, MAX_FAN2_RPM < rpm <= 65535 ->
        100 <= fan_percent rpm MAX_FAN2_RPM
        /\ (rpm < 5050 -> fan_percent rpm MAX_FAN2_RPM = 100)
        /\ (5050 <= rpm -> 100 < fan_percent rpm MAX_FAN2_RPM))
  /\ fan_percent 65535 MAX_FAN1_RPM = 1260 /\ fan_percent 65535 MAX_FAN2_RPM = 1310.
Proof.
  split; [vm_compute; reflexivity|].
  split; [vm_compute; reflexivity|].
  split; [vm_compute; reflexivity|].
  split.
  { intros rpm H. destruct (fan1_above_max rpm H) as [Hlo Hhi].
    split; [|split; assumption].
    destruct (Z.lt_ge_cases rpm 5252) as [L|G]; [rewrite Hlo by exact L; lia|].
    specialize (Hhi G). lia. }
  split.
  { intros rpm H. destruct (fan2_above_max rpm H) as [Hlo Hhi].
    split; [|split; assumption].
    destruct (Z.lt_ge_cases rpm 5050) as [L|G]; [rewrite Hlo by exact L; lia|].
    specialize (Hhi G). lia. }
  split; vm_compute; reflexivity.
Qed.

(** ** Life cycle *)

Ltac fields :=
  cbv beta iota delta
    [ctl trace log hWinRing0Wrapper pLoadWinRing0 pInitWinRing0 pReadPort
     pWritePort pGetStatus pDeinitWinRing0 winring_init_ok lastError
     set_hWinRing0Wrapper set_pLoadWinRing0 set_pInitWinRing0 set_pReadPort
     set_pWritePort set_pGetStatus set_pDeinitWinRing0 set_winring_init_ok
     set_lastError update setError FreeLibrary emit ret fst snd].

Section LifeCycle.

Variable env : Env.

Lemma LoadLibraryA_run name s :
  LoadLibraryA env name s
  = (os_LoadLibraryA env (trace s) name,
     log [EvLoadLibraryA name (os_LoadLibraryA env (trace s) name)] s).
Proof. reflexivity. Qed.

Lemma GetLastError_run s :
  GetLastError env s
  = (u32 (os_GetLastError env (trace s)),
     log [EvGetLastError (u32 (os_GetLastError env (trace s)))] s).
Proof. reflexivity. Qed.

Lemma GetProcAddress_run h name s :
  GetProcAddress env h name s
  = (os_GetProcAddress env (trace s) h name,
     log [EvGetProcAddress h name (os_GetProcAddress env (trace s) h name)] s).
Proof. reflexivity. Qed.

Lemma call_LoadWinRing0_run s :
  call_LoadWinRing0 env s
  = (dll_LoadWinRing0 env (trace s), log [EvLoadWinRing0 (dll_LoadWinRing0 env (trace s))] s).
Proof. reflexivity. Qed.

Lemma call_InitWinRing0_run s :
  call_InitWinRing0 env s
  = (dll_InitWinRing0 env (trace s), log [EvInitWinRing0 (dll_InitWinRing0 env (trace s))] s).
Proof. reflexivity. Qed.

Lemma call_GetStatus_run s :
  call_GetStatus env s
  = (u32 (dll_GetStatus env (trace s)),
     log [EvGetStatus (u32 (dll_GetStatus env (trace s)))] s).
Proof. reflexivity. Qed.

Lemma initialize_again s :
  winring_init_ok (ctl s) = true -> initialize env s = (true, s).
Proof. intros H. unfold initialize, bind, this. rewrite H. reflexivity. Qed.

Lemma initialize_cases s :
    winring_init_ok (ctl s) = false ->
    init_outcome s (fst (initialize env s)) (snd (initialize env s)).
Proof.
  intros H.
  change (outcome_of s (initialize env s)).
  destruct s as [[h0 q1 q2 q3 q4 q5 q6 ok err] tr].
  cbn [ctl winring_init_ok] in H. subst ok.
  unfold initialize. unfold bind at 1, this. cbn [ctl winring_init_ok].
  unfold bind at 1. cbn [setError update].
  erewrite bind_run by apply LoadLibraryA_run.
  cbn [trace].
  match goal with |- context [os_LoadLibraryA env ?t ?n] =>
    generalize (os_LoadLibraryA env t n); intros [h|] end.
  - unfold bind at 1. cbn [update].
    do 6 (erewrite bind_run by apply GetProcAddress_run;
          match goal with |- context [os_GetProcAddress env ?t ?h ?n] =>
            generalize (os_GetProcAddress env t h n); intros ? end;
          unfold bind at 1; cbn [update log ctl trace]).
    unfold bind at 1, this. fields.
    match goal with |- context [if ?b then _ else _] => destruct b eqn:Hnull end.
    + unfold bind, outcome_of; fields. rewrite <- !app_assoc. cbn [app].
      match goal with |- init_outcome ?m _ _ =>
        apply (init_missing_export m h _ _ _ _ _ _ Hnull) end.
    + repeat match type of Hnull with
             | _ || is_null ?o = false =>
                 let Ho := fresh "Ho" in
                 apply orb_false_iff in Hnull; destruct Hnull as [Hnull Ho];
                 destruct o; [clear Ho|discriminate Ho]
             end.
      match type of Hnull with
      | is_null ?o = false => destruct o; [clear Hnull|discriminate Hnull]
      end.
      erewrite bind_run by apply call_LoadWinRing0_run.
      match goal with |- context [dll_LoadWinRing0 env ?t] =>
        generalize (dll_LoadWinRing0 env t); intros [|] end; cbn [negb].
      * erewrite bind_run by apply call_InitWinRing0_run.
        match goal with |- context [dll_InitWinRing0 env ?t] =>
          generalize (dll_InitWinRing0 env t); intros [|] end; cbn [negb].
        -- unfold bind, outcome_of; fields. rewrite <- !app_assoc. cbn [app].
           match goal with |- init_outcome ?m _ _ => apply (init_success m) end.
        -- cbn [is_null]. erewrite bind_run by apply call_GetStatus_run.
           match goal with |- context [dll_GetStatus env ?t] =>
             generalize (u32 (dll_GetStatus env t)); intros status end.
           unfold bind, outcome_of; fields. rewrite <- !app_assoc. cbn [app].
           match goal with |- init_outcome ?m _ _ => apply (init_driver_failed m) end.
      * unfold bind, outcome_of; fields. rewrite <- !app_assoc. cbn [app].
        match goal with |- init_outcome ?m _ _ => apply (init_load_failed m) end.
  - unfold bind at 1. cbn [update].
    erewrite bind_run by apply GetLastError_run.
    match goal with |- context [os_GetLastError env ?t] =>
      generalize (u32 (os_GetLastError env t)); intros code end.
    unfold bind, outcome_of; fields. rewrite <- !app_assoc. cbn [app].
    match goal with |- init_outcome ?m _ _ => apply (init_no_library m) end.
Qed.

(** With every acquisition step answered favourably, [initialize] on a
    controller that is not initialised makes the nine calls and returns
    true. *)
Lemma initialize_acquires h a1 a2 a3 a4 a5 a6 s :
  cooperative env h a1 a2 a3 a4 a5 a6 ->
  winring_init_ok (ctl s) = false ->
  initialize env s
  = (true,
     mkMachine
       (mkFanController (Some h) (Some a1) (Some a2) (Some a3) (Some a4) (Some a5)
          (Some a6) true EmptyString)
       (trace s ++ acquisition h a1 a2 a3 a4 a5 a6)).
Proof.
  intros (HL & H1 & H2 & H3 & H4 & H5 & H6 & HW & HI) H.
  destruct s as [[h0 q1 q2 q3 q4 q5 q6 ok err] tr].
  cbn [ctl winring_init_ok] in H. subst ok.
  unfold initialize. unfold bind at 1, this. cbn [ctl winring_init_ok].
  unfold bind at 1. cbn [setError update].
  erewrite bind_run by apply LoadLibraryA_run.
  cbn [trace]. rewrite HL.
  unfold bind at 1. cbn [update].
  erewrite bind_run by apply GetProcAddress_run. rewrite H1.
  unfold bind at 1; cbn [update log ctl trace].
  erewrite bind_run by apply GetProcAddress_run. rewrite H2.
  unfold bind at 1; cbn [update log ctl trace].
  erewrite bind_run by apply GetProcAddress_run. rewrite H3.
  unfold bind at 1; cbn [update log ctl trace].
  erewrite bind_run by apply GetProcAddress_run. rewrite H4.
  unfold bind at 1; cbn [update log ctl trace].
  erewrite bind_run by apply GetProcAddress_run. rewrite H5.
  unfold bind at 1; cbn [update log ctl trace].
  erewrite bind_run by apply GetProcAddress_run. rewrite H6.
  unfold bind at 1; cbn [update log ctl trace].
  unfold bind at 1, this. fields. cbn [is_null orb].
  erewrite bind_run by apply call_LoadWinRing0_run. rewrite HW. cbn [negb].
  erewrite bind_run by apply call_InitWinRing0_run. rewrite HI. cbn [negb].
  unfold bind; fields. unfold acquisition, resolve_events, wrapper_dll.
  rewrite <- !app_assoc. reflexivity.
Qed.

End LifeCycle.

(** ** Initialisation twice, and initialisation that fails *)

Lemma events_since_trace c tr evs :
  events_since tr (mkMachine c (tr ++ evs)) = evs.
Proof.
  unfold events_since. cbn [trace].
  rewrite skipn_app, skipn_all, Nat.sub_diag. reflexivity.
Qed.

(** C6. When every acquisition step is answered favourably (the
    wrapper found, its six exports resolved, [LoadWinRing0] and
    [InitWinRing0] true), [initialize] on a controller that is not
    initialised - a new one, for instance - returns true after exactly
    one [LoadLibraryA], the six [GetProcAddress], one [LoadWinRing0]
    and one [InitWinRing0], in that order, and leaves the controller
    ready; a second [initialize] returns true as well, makes no call
    and leaves the controller as it is.  The calls of the two together
    are the acquisition once. *)
Theorem initialize_idempotent env h a1 a2 a3 a4 a5 a6 s :
  cooperative env h a1 a2 a3 a4 a5 a6 ->
  winring_init_ok (ctl s) = false ->
  let s1 :=
    mkMachine
      (mkFanController (Some h) (Some a1) (Some a2) (Some a3) (Some a4) (Some a5)
         (Some a6) true EmptyString)
      (trace s ++ acquisition h a1 a2 a3 a4 a5 a6) in
  initialize env s = (true, s1)
  /\ initialize env s1 = (true, s1)
  /\ is_ready (ctl s1) = true
  /\ events_since (trace s) (snd (initialize env (snd (initialize env s))))
     = acquisition h a1 a2 a3 a4 a5 a6
  /\ acquisition h a1 a2 a3 a4 a5 a6
     = [EvLoadLibraryA "winring_wrapper.dll" (Some h);
        EvGetProcAddress h "LoadWinRing0" (Some a1);
        EvGetProcAddress h "InitWinRing0" (Some a2);
        EvGetProcAddress h "ReadPort" (Some a3);
        EvGetProcAddress h "WritePort" (Some a4);
        EvGetProcAddress h "GetStatus" (Some a5);
        EvGetProcAddress h "DeinitWinRing0" (Some a6);
        EvLoadWinRing0 true; EvInitWinRing0 true]
  /\ List.length (filter is_load_library
                    (events_since (trace s)
                       (snd (initialize env (snd (initialize env s)))))) = 1%nat
  /\ filter is_capability
       (events_since (trace s) (snd (initialize env (snd (initialize env s)))))
     = [EvLoadWinRing0 true; EvInitWinRing0 true].
Proof.
  intros Hc Hs. cbv zeta.
  rewrite (initialize_acquires env h a1 a2 a3 a4 a5 a6 s Hc Hs). cbn [snd].
  assert (A : forall m, winring_init_ok (ctl m) = true -> initialize env m = (true, m))
    by (intros m Hm; apply initialize_again; exact Hm).
  match goal with |- context [initialize env ?m] => rewrite (A m eq_refl) end.
  cbn [snd]. rewrite events_since_trace.
  repeat split.
Qed.

Lemma msg_load_library_not_empty code : msg_load_library code <> EmptyString.
Proof. unfold msg_load_library. cbn [append]. discriminate. Qed.

Lemma msg_init_winring_not_empty status : msg_init_winring status <> EmptyString.
Proof. unfold msg_init_winring. cbn [append]. discriminate. Qed.

Lemma msg_get_proc_not_empty : msg_get_proc <> EmptyString.
Proof. discriminate. Qed.

Lemma msg_load_winring_not_empty : msg_load_winring <> EmptyString.
Proof. discriminate. Qed.

(** C7, as the code has it.  When [initialize], started on a controller
    that is not initialised, returns false, then: the flag is still false
    and the library handle is null; the last error is a non-empty message;
    every library handle obtained in the call has been freed again, and
    unless the failure was at the driver initialisation no capability
    was acquired, so that everything acquired has been released; the six
    function pointers are not reset, they hold what [GetProcAddress]
    returned in this call, or what they held before when the library did
    not load; and with those pointers left behind [readStatus] and
    [writeConfig] still refuse without a single call. *)
Theorem initialize_failure_releases env s s1 :
  winring_init_ok (ctl s) = false ->
  initialize env s = (false, s1) ->
  winring_init_ok (ctl s1) = false
  /\ hWinRing0Wrapper (ctl s1) = None
  /\ lastError (ctl s1) <> EmptyString
  /\ lib_refs (events_since (trace s) s1) = 0
  /\ (~ In (EvInitWinRing0 false) (events_since (trace s) s1) ->
      filter is_capability (events_since (trace s) s1) = [])
  /\ (pointers (ctl s1) = resolved (events_since (trace s) s1)
      \/ (resolved (events_since (trace s) s1) = []
          /\ pointers (ctl s1) = pointers (ctl s)))
  /\ (forall statusData configData,
        readStatus env statusData s1
          = ((false, statusData), with_error msg_read_not_initialized s1)
        /\ writeConfig env configData s1
          = (false, with_error msg_write_not_initialized s1)).
Proof.
  intros Hs E.
  pose proof (initialize_cases env s Hs) as C. rewrite E in C. cbn [fst snd] in C.
  inversion C as [code|h p1 p2 p3 p4 p5 p6 Hnull|h a1 a2 a3 a4 a5 a6
                  |h a1 a2 a3 a4 a5 a6 status|];
    subst; rewrite events_since_trace;
    cbn [ctl winring_init_ok hWinRing0Wrapper lastError];
    (split; [reflexivity|]); (split; [reflexivity|]);
    (split; [first [ apply msg_load_library_not_empty | apply msg_init_winring_not_empty
                   | apply msg_get_proc_not_empty | apply msg_load_winring_not_empty ]|]);
    (split; [reflexivity|]);
    (split; [|split; [|intros statusData configData;
              split; [apply readStatus_uninitialized | apply writeConfig_uninitialized];
              reflexivity]]).
  - intros _. reflexivity.
  - right. split; reflexivity.
  - intros _. reflexivity.
  - left. reflexivity.
  - intros _. reflexivity.
  - left. reflexivity.
  - intros N. exfalso. apply N. unfold resolve_events. cbn [app In]. tauto.
  - left. reflexivity.
Qed.

(** ** Deinitialisation *)

Lemma deinitialize_run s :
  deinitialize s
  = (tt, mkMachine (set_lastError (lastError (ctl s)) FanController_new)
                   (trace s ++ release_events (ctl s))).
Proof.
  destruct s as [[h0 q1 q2 q3 q4 q5 q6 ok err] tr].
  unfold deinitialize, release_events.
  destruct h0, ok, q6;
    cbv [bind this when call_DeinitWinRing0 FreeLibrary update emit ret
         ctl trace hWinRing0Wrapper pDeinitWinRing0 winring_init_ok lastError
         is_null negb andb set_hWinRing0Wrapper set_pLoadWinRing0 set_pInitWinRing0
         set_pReadPort set_pWritePort set_pGetStatus set_pDeinitWinRing0
         set_winring_init_ok set_lastError FanController_new pLoadWinRing0
         pInitWinRing0 pReadPort pWritePort pGetStatus];
    rewrite <- ?app_assoc, ?app_nil_r; reflexivity.
Qed.

(** C8, as the code has it.  [deinitialize] always completes; it calls
    [DeinitWinRing0] when the controller was initialised, frees the
    library when a handle is held, and resets the handle, the flag and
    the six function pointers to their defaults, leaving the last-error
    string as it was.  A second call in a row, or a call on a controller
    that was never initialised, makes no call and changes nothing. *)
Theorem deinitialize_resets_all_but_lastError s :
  let s1 := snd (deinitialize s) in
  ctl s1 = set_lastError (lastError (ctl s)) FanController_new
  /\ lastError (ctl s1) = lastError (ctl s)
  /\ trace s1 = trace s ++ release_events (ctl s)
  /\ (is_ready (ctl s) = true ->
      release_events (ctl s) = [EvDeinitWinRing0; EvFreeLibrary (hWinRing0Wrapper (ctl s))])
  /\ deinitialize s1 = (tt, s1)
  /\ (hWinRing0Wrapper (ctl s) = None -> trace s1 = trace s)
  /\ deinitialize Machine_new = (tt, Machine_new).
Proof.
  cbv zeta. rewrite deinitialize_run. cbn [snd ctl trace].
  split; [reflexivity|]. split; [reflexivity|]. split; [reflexivity|].
  split.
  { intros H. unfold is_ready in H.
    repeat (apply andb_true_iff in H; destruct H as [H ?]).
    unfold release_events.
    repeat match goal with
           | E : negb (is_null ?x) = true |- _ => rewrite E; clear E
           end.
    rewrite H. reflexivity. }
  split.
  { rewrite deinitialize_run. cbn [ctl trace lastError set_lastError FanController_new].
    unfold release_events at 2. cbn. rewrite app_nil_r. reflexivity. }
  split.
  { intros H. unfold release_events. rewrite H. cbn. apply app_nil_r. }
  reflexivity.
Qed.

(** ** The class invariant *)

Lemma set_lastError_twice e e' c :
  set_lastError e (set_lastError e' c) = set_lastError e c.
Proof. reflexivity. Qed.

Lemma set_lastError_same c : set_lastError (lastError c) c = c.
Proof. destruct c. reflexivity. Qed.

Lemma keeps_ctl_weaken {A} (m : M A) : keeps_ctl m -> keeps_ctl_but_error m.
Proof.
  intros H s. exists (lastError (ctl s)). rewrite H. symmetry. apply set_lastError_same.
Qed.

Lemma keeps_but_error_bind {A B} (m : M A) (k : A -> M B) :
  keeps_ctl_but_error m -> (forall a, keeps_ctl_but_error (k a)) ->
  keeps_ctl_but_error (bind m k).
Proof.
  intros Hm Hk s. unfold bind. destruct (Hm s) as [e He].
  destruct (m s) as [a s1]. cbn [snd] in He.
  destruct (Hk a s1) as [e' He']. exists e'.
  rewrite He', He. apply set_lastError_twice.
Qed.

Lemma keeps_but_error_setError msg : keeps_ctl_but_error (setError msg).
Proof. intros s. exists msg. reflexivity. Qed.

Lemma keeps_but_error_this {B} (k : FanController -> M B) :
  (forall c, keeps_ctl_but_error (k c)) -> keeps_ctl_but_error (bind this k).
Proof. intros H s. unfold bind, this. apply H. Qed.

Lemma keeps_but_error_if {A} (b : bool) (m1 m2 : M A) :
  keeps_ctl_but_error m1 -> keeps_ctl_but_error m2 ->
  keeps_ctl_but_error (if b then m1 else m2).
Proof. destruct b; auto. Qed.

Ltac keeps_but_error_tac :=
  repeat first
    [ apply keeps_but_error_setError
    | apply keeps_ctl_weaken; solve [auto with fan]
    | apply keeps_but_error_this; intros ?
    | apply keeps_but_error_if
    | apply keeps_but_error_bind; [|intros ?; cbv beta] ].

Lemma readStatus_keeps env statusData : keeps_ctl_but_error (readStatus env statusData).
Proof. unfold readStatus. keeps_but_error_tac. Qed.

Lemma writeConfig_keeps env configData : keeps_ctl_but_error (writeConfig env configData).
Proof. unfold writeConfig. keeps_but_error_tac. Qed.

Lemma ctl_wf_set_lastError e c : ctl_wf (set_lastError e c) = ctl_wf c.
Proof. reflexivity. Qed.

(** On every reachable machine the flag implies that the handle and the
    six pointers are in place: initialised and ready are the same. *)
Theorem reachable_wf env s : reachable env s -> ctl_wf (ctl s) = true.
Proof.
  induction 1 as [|s R IH|s R IH|st s R IH|cfg s R IH].
  - reflexivity.
  - destruct (winring_init_ok (ctl s)) eqn:Hs.
    + rewrite (initialize_again env s Hs). exact IH.
    + pose proof (initialize_cases env s Hs) as C.
      inversion C; reflexivity.
  - rewrite deinitialize_run. reflexivity.
  - destruct (readStatus_keeps env st s) as [e ->].
    rewrite ctl_wf_set_lastError. exact IH.
  - destruct (writeConfig_keeps env cfg s) as [e ->].
    rewrite ctl_wf_set_lastError. exact IH.
Qed.

Corollary reachable_initialized_is_ready env s :
  reachable env s -> winring_init_ok (ctl s) = true -> is_ready (ctl s) = true.
Proof.
  intros R H. apply reachable_wf in R. unfold ctl_wf in R.
  rewrite H in R. exact R.
Qed.

(** * Concrete runs *)

Example initialize_ready_env script :
  initialize (ready_env script) Machine_new = (true, ready_machine).
Proof. reflexivity. Qed.

Example ready_machine_is_ready : is_ready (ctl ready_machine) = true.
Proof. reflexivity. Qed.

Example initialize_driver_failed :
  initialize (mock_env [] true false []) Machine_new = (false, driver_failed_machine).
Proof. vm_compute. reflexivity. Qed.

(** On that path the capability load that succeeded is not undone: the
    call ends with [FreeLibrary], without a call of [DeinitWinRing0]. *)
Example initialize_driver_failed_events :
  filter is_capability (trace driver_failed_machine) = [EvLoadWinRing0 true]
  /\ filter is_deinit (trace driver_failed_machine) = []
  /\ lib_refs (trace driver_failed_machine) = 0.
Proof. repeat split. Qed.

Lemma writeConfig_rejects_bad_sizes_witness :
  writeConfig (ready_env []) short_config ready_machine
  = (false, with_error msg_invalid_config ready_machine).
Proof.
  refine (proj1 (writeConfig_rejects_bad_sizes (ready_env []) short_config
                   ready_machine eq_refl _)).
  intros (H & _). discriminate H.
Defined.

Lemma direct_ec_read_0xC583_witness :
  fst (direct_ec_read (ready_env [0x28]) (ITE_REGISTER_MAP.CPU_TEMP + 3) ready_machine)
  = 0x28.
Proof.
  pose proof (direct_ec_read_0xC583 (ready_env [0x28]) ready_machine eq_refl) as T.
  cbv zeta in T. destruct T as [E _].
  rewrite E. reflexivity.
Defined.

Lemma uninitialized_operations_fail_witness :
  readStatus no_dll_env FanStatusData_new Machine_new
  = ((false, FanStatusData_new), with_error msg_read_not_initialized Machine_new).
Proof.
  exact (proj1 (uninitialized_operations_fail no_dll_env FanStatusData_new
                  FanConfigData_new Machine_new eq_refl)).
Defined.

Lemma all_sizes_10_new : all_sizes_10 FanConfigData_new.
Proof. repeat split. Qed.

(** The third port read of [writeConfig] is the index; here it is
    answered 0xFF. *)
Lemma index_read_255 :
  fst (write_tables_read_index (ready_env [1; 2; 0xFF]) FanConfigData_new
         (with_error EmptyString ready_machine)) = 255.
Proof. vm_compute. reflexivity. Qed.

Lemma writeConfig_index_out_of_range_witness :
  fst (writeConfig (ready_env [1; 2; 0xFF]) FanConfigData_new ready_machine) = true
  /\ lastError (ctl (snd (writeConfig (ready_env [1; 2; 0xFF]) FanConfigData_new
                            ready_machine)))
     = "Warning: Invalid DEC_time target index read from EC: 255"%string.
Proof.
  assert (Hidx : 10 <= fst (write_tables_read_index (ready_env [1; 2; 0xFF])
                              FanConfigData_new
                              (with_error EmptyString ready_machine)))
    by (rewrite index_read_255; lia).
  destruct (writeConfig_index_out_of_range (ready_env [1; 2; 0xFF]) FanConfigData_new
              ready_machine eq_refl all_sizes_10_new Hidx)
    as (E & _ & L).
  split.
  - rewrite E. reflexivity.
  - rewrite L, index_read_255. reflexivity.
Defined.

Lemma fan_percent_truncates_without_clamping_witness :
  100 <= fan_percent 6000 MAX_FAN1_RPM.
Proof.
  destruct fan_percent_truncates_without_clamping as (_ & _ & _ & H & _).
  apply (H 6000). unfold MAX_FAN1_RPM. lia.
Defined.

Lemma ready_env_cooperative script :
  cooperative (ready_env script) 0x10000 0x11000 0x11040 0x110C0 0x11100 0x11140 0x11080.
Proof. repeat split. Qed.

Lemma initialize_idempotent_witness :
  initialize (ready_env []) Machine_new = (true, ready_machine)
  /\ initialize (ready_env []) ready_machine = (true, ready_machine)
  /\ events_since (trace Machine_new)
       (snd (initialize (ready_env []) (snd (initialize (ready_env []) Machine_new))))
     = acquisition 0x10000 0x11000 0x11040 0x110C0 0x11100 0x11140 0x11080.
Proof.
  destruct (initialize_idempotent (ready_env []) 0x10000 0x11000 0x11040 0x110C0
              0x11100 0x11140 0x11080 Machine_new (ready_env_cooperative []) eq_refl)
    as (H1 & H2 & _ & H3 & _).
  split; [exact H1|]. split; [exact H2|exact H3].
Defined.

Example initialize_load_failed :
  initialize (mock_env [] false true []) Machine_new = (false, load_failed_machine).
Proof. vm_compute. reflexivity. Qed.

Lemma initialize_failure_releases_witness :
  hWinRing0Wrapper (ctl load_failed_machine) = None
  /\ lib_refs (events_since (trace Machine_new) load_failed_machine) = 0
  /\ filter is_capability (events_since (trace Machine_new) load_failed_machine) = []
  /\ pReadPort (ctl load_failed_machine) = Some 0x110C0.
Proof.
  destruct (initialize_failure_releases (mock_env [] false true []) Machine_new
              load_failed_machine eq_refl initialize_load_failed)
    as (_ & H & _ & L & K & _).
  split; [exact H|]. split; [exact L|]. split; [|reflexivity].
  apply K. cbn. intros [E|[E|[E|[E|[E|[E|[E|[E|[E|[]]]]]]]]]]; discriminate E.
Defined.

Lemma deinitialize_resets_all_but_lastError_witness :
  release_events (ctl ready_machine)
  = [EvDeinitWinRing0; EvFreeLibrary (hWinRing0Wrapper (ctl ready_machine))].
Proof.
  destruct (deinitialize_resets_all_but_lastError ready_machine)
    as (_ & _ & _ & H & _).
  exact (H eq_refl).
Defined.

Lemma writeConfig_default_config_witness :
  fst (writeConfig (ready_env []) FanConfigData_new ready_machine) = true.
Proof.
  destruct (writeConfig_default_config (ready_env []) ready_machine)
    as (_ & _ & _ & H).
  exact (proj1 (H eq_refl)).
Defined.

(** ** Where the code departs from the specification *)

(** A fan 1 reading of 5201 (bytes 0x51, 0x14) is above the maximum of
    5200, and [readStatus] reports 100 percent, not more. *)
Lemma readStatus_percent_not_above_100 :
  let st := snd (fst (readStatus (ready_env [0x51; 0x14]) FanStatusData_new
                        ready_machine)) in
  st_fan1_speed st = 5201
  /\ MAX_FAN1_RPM < st_fan1_speed st
  /\ st_fan1_percent st = 100
  /\ ~ (100 < st_fan1_percent st).
Proof. vm_compute. repeat split; discriminate. Qed.

(** [LoadWinRing0] answers false: [initialize] fails, and the six
    pointers keep the addresses just resolved, so the controller is not
    the default one even with the error string put aside. *)
Lemma initialize_failure_keeps_pointers :
  let r := initialize (mock_env [] false true []) Machine_new in
  fst r = false
  /\ pReadPort (ctl (snd r)) = Some 0x110C0
  /\ set_lastError EmptyString (ctl (snd r)) <> FanController_new.
Proof. vm_compute. repeat split; discriminate. Qed.

(** After an [initialize] that found no library, [deinitialize] leaves
    the error message of that failure in place. *)
Lemma deinitialize_keeps_lastError :
  let s := snd (initialize no_dll_env Machine_new) in
  lastError (ctl (snd (deinitialize s))) = msg_load_library 126
  /\ ctl (snd (deinitialize s)) <> FanController_new.
Proof. vm_compute. split; [reflexivity | discriminate]. Qed.

(** ** End-to-end examples *)

Example readStatus_half_speed :
  let st := snd (fst (readStatus (ready_env [0x28; 0x0A]) FanStatusData_new
                        ready_machine)) in
  st_fan1_speed st = 2600 /\ st_fan1_percent st = 50
  /\ st_fan2_speed st = 0 /\ st_fan2_percent st = 0.
Proof. vm_compute. repeat split. Qed.

Example initialize_missing_export :
  initialize (mock_env ["GetStatus"%string] true true []) Machine_new
  = (false,
     mkMachine
       (mkFanController None (Some 0x11000) (Some 0x11040) (Some 0x110C0) (Some 0x11100)
          None (Some 0x11080) false msg_get_proc)
       (resolve_events 0x10000 (Some 0x11000) (Some 0x11040) (Some 0x110C0)
          (Some 0x11100) None (Some 0x11080)
        ++ [EvFreeLibrary (Some 0x10000)])).
Proof. vm_compute. reflexivity. Qed.

(** * Further properties of the code *)

(** ** Program logic *)

Lemma hoare_bind {A B} P (m : M A) (Qs : Machine -> Prop) (Qa : A -> Prop)
    (k : A -> M B) R :
  hoare P m (fun a s => Qs s /\ Qa a) ->
  (forall a, Qa a -> hoare Qs (k a) R) ->
  hoare P (bind m k) R.
Proof.
  intros Hm Hk s HP. unfold bind. specialize (Hm s HP).
  destruct (m s) as [a s1]. cbn [fst snd] in Hm. destruct Hm as [Hs Ha].
  apply (Hk a Ha s1 Hs).
Qed.

Lemma hoare_ret {A} (P : Machine -> Prop) (a : A) (Q : A -> Machine -> Prop) :
  (forall s, P s -> Q a s) -> hoare P (ret a) Q.
Proof. intros H s HP. apply H. exact HP. Qed.

Lemma hoare_weaken {A} (P P' : Machine -> Prop) (m : M A) (Q Q' : A -> Machine -> Prop) :
  hoare P' m Q' -> (forall s, P s -> P' s) -> (forall a s, Q' a s -> Q a s) ->
  hoare P m Q.
Proof. intros H HP HQ s Hs. apply HQ, H, HP, Hs. Qed.

Lemma hoare_this {A} (P : Machine -> Prop) (k : FanController -> M A) Q :
  (forall c, hoare (fun s => P s /\ ctl s = c) (k c) Q) ->
  hoare P (bind this k) Q.
Proof. intros H s HP. unfold bind, this. apply (H (ctl s) s). split; [exact HP|reflexivity]. Qed.

Lemma hoare_assoc {A B C} P (m : M A) (k : A -> M B) (k' : B -> M C) Q :
  hoare P (bind m (fun a => bind (k a) k')) Q -> hoare P (bind (bind m k) k') Q.
Proof. intros H s HP. rewrite bind_assoc. apply H. exact HP. Qed.

(** ** The memory device under the transactions *)

Lemma ec_run_app e evs1 evs2 : ec_run e (evs1 ++ evs2) = ec_run (ec_run e evs1) evs2.
Proof. apply fold_left_app. Qed.

Lemma u8_range z : 0 <= u8 z < 256.
Proof. unfold u8. apply Z.mod_pos_bound. lia. Qed.

Lemma land_255_range z : 0 <= Z.land z 0xFF < 256.
Proof. rewrite <- u8_byte. apply u8_range. Qed.

(** The addressing phases leave the device addressed at [addr], data
    register selected, memory untouched. *)
Lemma ec_run_address_phases e addr :
  ec_run e (address_phases addr)
  = mkEc 0x2F 0x12 (Z.land (Z.shiftr (u16 addr) 8) 0xFF) (Z.land (u16 addr) 0xFF) (ec_mem e).
Proof. reflexivity. Qed.

Lemma ec_step_data_write hi lo m v :
  ec_step (mkEc 0x2F 0x12 hi lo m) (EvWritePort EC_DATA_PORT v)
  = mkEc 0x2F 0x12 hi lo (store m (hi * 256 + lo) v).
Proof. reflexivity. Qed.

Lemma ec_run_write_tx e addr data x :
  ec_mem (ec_run e (ec_write_tx addr data)) x = store (ec_mem e) addr data x.
Proof.
  unfold ec_write_tx. rewrite ec_run_app, ec_run_address_phases.
  change (ec_run ?e [?ev]) with (ec_step e ev).
  rewrite ec_step_data_write. cbn [ec_mem].
  unfold store. rewrite address_bytes, u16_u16, u8_u8. reflexivity.
Qed.

Lemma ec_run_read_tx e addr v x :
  ec_mem (ec_run e (ec_read_tx addr v)) x = ec_mem e x.
Proof.
  unfold ec_read_tx. rewrite ec_run_app, ec_run_address_phases. reflexivity.
Qed.

Lemma ec_read_after_phases mem0 h addr :
  ec_read mem0 (h ++ address_phases addr) EC_DATA_PORT
  = ec_mem (ec_run (ec_new mem0) h) (u16 addr).
Proof.
  unfold ec_read. rewrite ec_run_app, ec_run_address_phases.
  cbv beta zeta. cbn [ec_selected ec_index ec_mem].
  change ((EC_DATA_PORT =? EC_DATA_PORT) && (0x2F =? 0x2F) && (0x12 =? 0x12)) with true.
  cbv iota. unfold ec_address. cbn [ec_addr_hi ec_addr_lo].
  rewrite address_bytes, u16_u16. reflexivity.
Qed.

(** *** Loads and stores *)

Lemma load_store_same f a v : load (store f a v) a = u8 v.
Proof. unfold load, store. rewrite Z.eqb_refl. apply u8_u8. Qed.

Lemma load_store_other f a v x :
  u16 x <> u16 a -> load (store f a v) x = load f x.
Proof.
  intros H. unfold load, store. apply Z.eqb_neq in H. rewrite H. reflexivity.
Qed.

Lemma apart_spec base n base' n' :
  apart base n base' n' = true ->
  forall i j, (i < n)%nat -> (j < n')%nat ->
  u16 (base + Z.of_nat i) <> u16 (base' + Z.of_nat j).
Proof.
  unfold apart. intros H i j Hi Hj.
  rewrite forallb_forall in H. specialize (H i ltac:(apply in_seq; lia)).
  rewrite forallb_forall in H. specialize (H j ltac:(apply in_seq; lia)).
  apply negb_true_iff, Z.eqb_neq in H. exact H.
Qed.

Lemma apart_intro base n base' n' :
  (forall i j, (i < n)%nat -> (j < n')%nat ->
     u16 (base + Z.of_nat i) <> u16 (base' + Z.of_nat j)) ->
  apart base n base' n' = true.
Proof.
  intros H. unfold apart. apply forallb_forall. intros i Hi. apply in_seq in Hi.
  apply forallb_forall. intros j Hj. apply in_seq in Hj.
  apply negb_true_iff, Z.eqb_neq, H; lia.
Qed.

Lemma load_array_ext f g base n :
  (forall i, (i < n)%nat -> load f (base + Z.of_nat i) = load g (base + Z.of_nat i)) ->
  load_array f base n = load_array g base n.
Proof.
  intros H. unfold load_array. apply map_ext_in. intros i Hi.
  apply H. apply in_seq in Hi. lia.
Qed.

Lemma load_array_store_other f a v base n :
  apart base n a 1 = true ->
  load_array (store f a v) base n = load_array f base n.
Proof.
  intros H. apply load_array_ext. intros i Hi. apply load_store_other.
  pose proof (apart_spec _ _ _ _ H i 0%nat Hi ltac:(lia)) as N.
  replace (a + Z.of_nat 0) with a in N by (cbn; lia). exact N.
Qed.

Lemma load_stores_other f base' (l : list (nat * Z)) x : forall g,
  (forall iv, In iv l -> u16 x <> u16 (base' + Z.of_nat (fst iv))) ->
  (load g x = load f x) ->
  load (fold_left (fun g iv => store g (base' + Z.of_nat (fst iv)) (snd iv)) l g) x
  = load f x.
Proof.
  induction l as [|iv l IH]; intros g Hl Hg.
  - exact Hg.
  - cbn [fold_left]. apply IH.
    + intros iv' Hin. apply Hl. right. exact Hin.
    + rewrite load_store_other; [exact Hg|]. apply Hl. left. reflexivity.
Qed.

Lemma indexed_index {A} (data : list A) i v :
  In (i, v) (indexed data) -> (i < List.length data)%nat.
Proof.
  unfold indexed. intros H. apply in_combine_l in H. apply in_seq in H. lia.
Qed.

Lemma load_array_store_array_other f base' data base n :
  apart base n base' (List.length data) = true ->
  load_array (store_array f base' data) base n = load_array f base n.
Proof.
  intros H. apply load_array_ext. intros i Hi. unfold store_array.
  apply load_stores_other; [|reflexivity].
  intros [j v] Hin. cbn [fst]. apply (apart_spec _ _ _ _ H); [exact Hi|].
  apply (indexed_index data j v Hin).
Qed.

Lemma combine_app_same {A B} (l1 l1' : list A) (l2 l2' : list B) :
  List.length l1 = List.length l2 ->
  combine (l1 ++ l1') (l2 ++ l2') = combine l1 l2 ++ combine l1' l2'.
Proof.
  revert l2. induction l1 as [|a l1 IH]; intros [|b l2] H; try discriminate.
  - reflexivity.
  - cbn [app combine]. rewrite IH by (cbn in H; lia). reflexivity.
Qed.

Lemma indexed_snoc {A} (data : list A) v :
  indexed (data ++ [v]) = indexed data ++ [(List.length data, v)].
Proof.
  unfold indexed. rewrite length_app. cbn [List.length].
  rewrite Nat.add_1_r, seq_S, combine_app_same by apply length_seq.
  reflexivity.
Qed.

Lemma u16_apart_within base i n :
  (i < n)%nat -> Z.of_nat n < 65536 ->
  u16 (base + Z.of_nat i) <> u16 (base + Z.of_nat n).
Proof.
  intros Hi Hn E. unfold u16 in E.
  assert (D : (base + Z.of_nat n - (base + Z.of_nat i)) mod 65536 = 0).
  { rewrite Zminus_mod, E, Z.sub_diag. reflexivity. }
  replace (base + Z.of_nat n - (base + Z.of_nat i)) with (Z.of_nat n - Z.of_nat i) in D by lia.
  rewrite Z.mod_small in D by lia. lia.
Qed.

Lemma load_array_S f base n :
  load_array f base (S n) = load_array f base n ++ [load f (base + Z.of_nat n)].
Proof. unfold load_array. rewrite seq_S, map_app. reflexivity. Qed.

Lemma load_array_store_array_same f base data :
  Z.of_nat (List.length data) <= 65536 ->
  load_array (store_array f base data) base (List.length data) = map u8 data.
Proof.
  induction data as [|v data IH] using rev_ind; intros Hlen.
  - reflexivity.
  - rewrite length_app in *. cbn [List.length] in *. rewrite Nat.add_1_r in *.
    unfold store_array. rewrite indexed_snoc, fold_left_app. cbn [fold_left fst snd].
    fold (store_array f base data).
    rewrite load_array_S, map_app. cbn [map]. f_equal.
    + rewrite <- IH by lia. apply load_array_ext. intros i Hi.
      apply load_store_other. apply u16_apart_within; lia.
    + rewrite load_store_same. reflexivity.
Qed.

Lemma load_array_store_array_here f base data n :
  List.length data = n -> Z.of_nat n <= 65536 ->
  load_array (store_array f base data) base n = map u8 data.
Proof. intros <- H. apply load_array_store_array_same. exact H. Qed.

Lemma map_u8_bytes data : Forall is_byte data -> map u8 data = data.
Proof.
  induction 1 as [|v data Hv _ IH]; [reflexivity|].
  cbn [map]. rewrite IH. f_equal. unfold u8. apply Z.mod_small. exact Hv.
Qed.

Section MemoryDevice.

Variable mem0 : Z -> Z.
Variable env : Env.
Hypothesis Hmem : memory_like mem0 env.

Lemma Mem_direct_ec_write f addr data :
  hoare (Mem mem0 f) (direct_ec_write addr data)
        (fun _ s => Mem mem0 (store f addr data) s /\ True).
Proof.
  intros s [Hr Hf]. rewrite direct_ec_write_run, (is_ready_can_write _ Hr).
  cbn [fst snd]. split; [|exact I]. split; [exact Hr|].
  intros x. unfold mem_at. cbn [log trace]. rewrite ec_run_app, ec_run_write_tx.
  unfold store. destruct (x =? u16 addr); [reflexivity|apply Hf].
Qed.

Lemma Mem_direct_ec_read f addr :
  hoare (Mem mem0 f) (direct_ec_read env addr)
        (fun v s => Mem mem0 f s /\ v = load f addr).
Proof.
  intros s [Hr Hf]. pose proof (direct_ec_read_ready env addr s Hr) as E.
  cbv zeta in E. rewrite E. cbn [fst snd]. split.
  - split; [exact Hr|]. intros x. unfold mem_at. cbn [log trace].
    rewrite ec_run_app, ec_run_read_tx. apply Hf.
  - rewrite Hmem, ec_read_after_phases. unfold load. f_equal. apply Hf.
Qed.

Lemma Mem_setError f msg :
  hoare (Mem mem0 f) (setError msg) (fun _ s => Mem mem0 f s /\ True).
Proof. intros s [Hr Hf]. split; [|exact I]. split; [exact Hr|exact Hf]. Qed.

Lemma Mem_write_elements f addr_base l : forall s,
  Mem mem0 f s ->
  Mem mem0 (fold_left (fun g iv => store g (addr_base + Z.of_nat (fst iv)) (snd iv)) l f)
      (fold_left (write_element addr_base) l s).
Proof.
  revert f. induction l as [|iv l IH]; intros f s H.
  - exact H.
  - cbn [fold_left]. apply IH. unfold write_element.
    apply (Mem_direct_ec_write f _ _ s H).
Qed.

Lemma Mem_direct_ec_write_array f addr_base data :
  hoare (Mem mem0 f) (direct_ec_write_array addr_base data)
        (fun _ s => Mem mem0 (store_array f addr_base data) s /\ True).
Proof.
  intros s H. rewrite direct_ec_write_array_fold. cbn [fst snd].
  split; [|exact I]. apply Mem_write_elements. exact H.
Qed.

Lemma Mem_ec_read_loop f addr_base n : forall i,
  hoare (Mem mem0 f) (ec_read_loop env (u16 addr_base) (Z.of_nat i) n)
        (fun r s => Mem mem0 f s
                    /\ r = map (fun j => load f (addr_base + Z.of_nat j)) (seq i n)).
Proof.
  induction n as [|n IH]; intros i.
  - apply hoare_ret. intros s H. split; [exact H|reflexivity].
  - cbn [ec_read_loop seq map].
    eapply hoare_bind; [apply Mem_direct_ec_read|].
    intros v Hv. cbv beta.
    eapply hoare_bind.
    + replace (Z.of_nat i + 1) with (Z.of_nat (S i)) by lia. apply IH.
    + intros rest Hrest. apply hoare_ret. intros s H. split; [exact H|].
      cbv beta in Hv, Hrest. subst v rest. f_equal. unfold load. rewrite u16_add. reflexivity.
Qed.

Lemma Mem_direct_ec_read_array f addr_base n :
  hoare (Mem mem0 f) (direct_ec_read_array env addr_base n)
        (fun r s => Mem mem0 f s /\ r = load_array f addr_base n).
Proof. apply (Mem_ec_read_loop f addr_base n 0%nat). Qed.

End MemoryDevice.
Ltac mem_step Hmem :=
  repeat lazymatch goal with
         | |- hoare _ (bind (bind _ _) _) _ => apply hoare_assoc
         end;
  eapply hoare_bind;
  [ lazymatch goal with
    | |- hoare _ (setError _) _ => apply Mem_setError
    | |- hoare _ (direct_ec_write_array _ _) _ => apply Mem_direct_ec_write_array
    | |- hoare _ (direct_ec_write _ _) _ => apply Mem_direct_ec_write
    | |- hoare _ (direct_ec_read_array _ _ _) _ => apply (Mem_direct_ec_read_array _ _ Hmem)
    | |- hoare _ (direct_ec_read _ _) _ => apply (Mem_direct_ec_read _ _ Hmem)
    end
  | let a := fresh "a" in
    let Ha := fresh "Ha" in
    intros a Ha; cbv beta in Ha; try subst a; cbv beta ].

Section MemorySemantics.

Variable mem0 : Z -> Z.
Variable env : Env.
Hypothesis Hmem : memory_like mem0 env.

(** [readStatus] returns the snapshot of the memory and leaves the
    memory as it was. *)
Lemma readStatus_memory f statusData :
  hoare (Mem mem0 f) (readStatus env statusData)
        (fun r s => r = (true, status_of_memory f) /\ Mem mem0 f s).
Proof.
  unfold readStatus. apply hoare_this. intros c.
  destruct (winring_init_ok c) eqn:Hc; cbn [negb].
  2:{ intros s [[Hr _] E]. apply is_ready_init_ok in Hr. congruence. }
  apply hoare_weaken with (P' := Mem mem0 f)
    (Q' := fun r s => r = (true, status_of_memory f) /\ Mem mem0 f s);
    [|intros s [H _]; exact H|auto].
  repeat mem_step Hmem.
  apply hoare_ret. intros s Hs. subst. split; [reflexivity|exact Hs].
Qed.

(** Past its guards, [writeConfig] returns true and turns the memory
    [f] into [config_memory configData f]. *)
Lemma writeConfig_memory f configData :
  bad_sizes configData = false ->
  hoare (Mem mem0 f) (writeConfig env configData)
        (fun r s => r = true /\ Mem mem0 (config_memory configData f) s).
Proof.
  intros Hsz. unfold writeConfig. apply hoare_this. intros c.
  destruct (winring_init_ok c) eqn:Hc; cbn [negb].
  2:{ intros s [[Hr _] E]. apply is_ready_init_ok in Hr. congruence. }
  apply hoare_weaken with (P' := Mem mem0 f)
    (Q' := fun r s => r = true /\ Mem mem0 (config_memory configData f) s);
    [|intros s [H _]; exact H|auto].
  mem_step Hmem. rewrite Hsz.
  do 15 mem_step Hmem.
  unfold config_memory, live_memory. cbv zeta.
  fold (tables_memory configData f).
  change (store (store (tables_memory configData f) ITE_REGISTER_MAP.FAN1_TARGET_DUTY
                   (load (tables_memory configData f) ITE_REGISTER_MAP.FAN1_TARGET_CURVE_VAL))
                ITE_REGISTER_MAP.FAN2_TARGET_DUTY
                (load (store (tables_memory configData f) ITE_REGISTER_MAP.FAN1_TARGET_DUTY
                   (load (tables_memory configData f) ITE_REGISTER_MAP.FAN1_TARGET_CURVE_VAL))
                   ITE_REGISTER_MAP.FAN2_TARGET_CURVE_VAL))
    with (targets_memory (tables_memory configData f)).
  set (g := targets_memory (tables_memory configData f)).
  destruct (load g ITE_REGISTER_MAP.FAN_CUR_POINT <? Z.of_nat (List.length (acc_time configData)));
    destruct (load g ITE_REGISTER_MAP.FAN_CUR_POINT <? Z.of_nat (List.length (dec_time configData)));
    repeat mem_step Hmem;
    apply hoare_ret; intros s Hs; (split; [reflexivity|exact Hs]).
Qed.

End MemorySemantics.
(** *** What [writeConfig] leaves in the tables *)

Ltac use_sizes :=
  repeat match goal with
         | H : List.length _ = 10%nat |- _ => rewrite H
         end.

Ltac frames :=
  repeat first
    [ rewrite load_array_store_other by reflexivity
    | rewrite load_array_store_array_other by (use_sizes; reflexivity) ];
  rewrite load_array_store_array_here by (assumption || lia).

Lemma config_memory_tables configData f :
  all_sizes_10 configData ->
  config_of_status (status_of_memory (config_memory configData f))
  = mkFanConfigData
      (map u8 (fan1_curve configData)) (map u8 (fan2_curve configData))
      (map u8 (acc_time configData)) (map u8 (dec_time configData))
      (map u8 (cpu_lower_temp configData)) (map u8 (cpu_upper_temp configData))
      (map u8 (gpu_lower_temp configData)) (map u8 (gpu_upper_temp configData))
      (map u8 (vrm_lower_temp configData)) (map u8 (vrm_upper_temp configData)).
Proof.
  intros (H1 & H2 & H3 & H4 & H5 & H6 & H7 & H8 & H9 & H10).
  unfold config_of_status, status_of_memory. cbv zeta.
  cbn [st_fan1_curve st_fan2_curve st_acc_time st_dec_time st_cpu_lower_temp
       st_cpu_upper_temp st_gpu_lower_temp st_gpu_upper_temp st_vrm_lower_temp
       st_vrm_upper_temp].
  unfold config_memory, live_memory. cbv zeta.
  set (idx := load (targets_memory (tables_memory configData f)) ITE_REGISTER_MAP.FAN_CUR_POINT).
  rewrite H3, H4.
  destruct (idx <? Z.of_nat 10);
    unfold targets_memory, tables_memory; cbv zeta;
    f_equal; frames; reflexivity.
Qed.
Lemma load_store_array_other f base' data x :
  apart x 1 base' (List.length data) = true ->
  load (store_array f base' data) x = load f x.
Proof.
  intros H. unfold store_array. apply load_stores_other; [|reflexivity].
  intros [j v] Hin. cbn [fst].
  pose proof (apart_spec _ _ _ _ H 0%nat j ltac:(lia) (indexed_index data j v Hin)) as N.
  replace (x + Z.of_nat 0) with x in N by (cbn; lia). exact N.
Qed.

Ltac load_frames :=
  repeat first
    [ rewrite load_store_other by (vm_compute; discriminate)
    | rewrite load_store_array_other by (use_sizes; reflexivity) ].

Lemma tables_memory_elsewhere configData f x :
  all_sizes_10 configData ->
  apart x 1 ITE_REGISTER_MAP.FAN1_BASE 160 = true ->
  load (tables_memory configData f) x = load f x.
Proof.
  intros (H1 & H2 & H3 & H4 & H5 & H6 & H7 & H8 & H9 & H10) Hx.
  assert (A : forall k, (k < 10)%nat ->
              apart x 1 (ITE_REGISTER_MAP.FAN1_BASE + 16 * Z.of_nat k) 10 = true).
  { intros k Hk. apply apart_intro. intros i j Hi Hj.
    pose proof (apart_spec _ _ _ _ Hx i (16 * k + j)%nat Hi ltac:(lia)) as N.
    replace (ITE_REGISTER_MAP.FAN1_BASE + 16 * Z.of_nat k + Z.of_nat j)
      with (ITE_REGISTER_MAP.FAN1_BASE + Z.of_nat (16 * k + j)) by lia.
    exact N. }
  unfold tables_memory. cbv zeta.
  rewrite (load_store_array_other _ ITE_REGISTER_MAP.FAN_DEC_BASE) by (rewrite H4; exact (A 3%nat ltac:(lia))).
  rewrite (load_store_array_other _ ITE_REGISTER_MAP.FAN_ACC_BASE) by (rewrite H3; exact (A 2%nat ltac:(lia))).
  rewrite (load_store_array_other _ ITE_REGISTER_MAP.VRM_TEMP_HYST) by (rewrite H9; exact (A 9%nat ltac:(lia))).
  rewrite (load_store_array_other _ ITE_REGISTER_MAP.GPU_TEMP_HYST) by (rewrite H7; exact (A 7%nat ltac:(lia))).
  rewrite (load_store_array_other _ ITE_REGISTER_MAP.CPU_TEMP_HYST) by (rewrite H5; exact (A 5%nat ltac:(lia))).
  rewrite (load_store_array_other _ ITE_REGISTER_MAP.VRM_TEMP) by (rewrite H10; exact (A 8%nat ltac:(lia))).
  rewrite (load_store_array_other _ ITE_REGISTER_MAP.GPU_TEMP) by (rewrite H8; exact (A 6%nat ltac:(lia))).
  rewrite (load_store_array_other _ ITE_REGISTER_MAP.CPU_TEMP) by (rewrite H6; exact (A 4%nat ltac:(lia))).
  rewrite (load_store_array_other _ ITE_REGISTER_MAP.FAN2_BASE) by (rewrite H2; exact (A 1%nat ltac:(lia))).
  rewrite (load_store_array_other _ ITE_REGISTER_MAP.FAN1_BASE) by (rewrite H1; exact (A 0%nat ltac:(lia))).
  reflexivity.
Qed.

Lemma Mem_here mem0 s : is_ready (ctl s) = true -> Mem mem0 (mem_at mem0 s) s.
Proof. intros H. split; [exact H|reflexivity]. Qed.

Lemma load_ext f g a : (forall x, f x = g x) -> load f a = load g a.
Proof. intros E. unfold load. rewrite E. reflexivity. Qed.

Lemma u8_load f a : u8 (load f a) = load f a.
Proof. unfold load. apply u8_u8. Qed.

Lemma status_of_memory_ext f g :
  (forall x, f x = g x) -> status_of_memory f = status_of_memory g.
Proof.
  intros E. unfold status_of_memory. cbv zeta.
  rewrite !(load_ext f g _ E).
  rewrite !(load_array_ext f g) by (intros; apply load_ext, E).
  reflexivity.
Qed.

Lemma all_bytes_tables configData :
  all_bytes configData ->
  mkFanConfigData
    (map u8 (fan1_curve configData)) (map u8 (fan2_curve configData))
    (map u8 (acc_time configData)) (map u8 (dec_time configData))
    (map u8 (cpu_lower_temp configData)) (map u8 (cpu_upper_temp configData))
    (map u8 (gpu_lower_temp configData)) (map u8 (gpu_upper_temp configData))
    (map u8 (vrm_lower_temp configData)) (map u8 (vrm_upper_temp configData))
  = configData.
Proof.
  unfold all_bytes, tables. intros H.
  repeat match goal with
         | H : Forall _ (_ :: _) |- _ =>
             let Hd := fresh "Hd" in let Tl := fresh "Tl" in
             apply Forall_cons_iff in H; destruct H as [Hd Tl];
             apply map_u8_bytes in Hd; rewrite Hd
         end.
  destruct configData; reflexivity.
Qed.

(** X1. Over a device that keeps what is written to it, a configuration
    of ten tables of ten bytes written by [writeConfig] on an
    initialised controller is what the next [readStatus] reads back:
    both calls return true and the ten tables of the status are the ten
    tables written.  This is the comparison the Apply button of [main]
    makes after writing. *)
Theorem writeConfig_readStatus_round_trip mem0 env configData statusData s :
  memory_like mem0 env ->
  is_ready (ctl s) = true ->
  all_sizes_10 configData ->
  all_bytes configData ->
  fst (writeConfig env configData s) = true
  /\ fst (fst (readStatus env statusData (snd (writeConfig env configData s)))) = true
  /\ config_of_status
       (snd (fst (readStatus env statusData (snd (writeConfig env configData s)))))
     = configData.
Proof.
  intros Hmem Hs Hsz Hb.
  destruct (writeConfig_memory mem0 env Hmem (mem_at mem0 s) configData
              (proj2 (bad_sizes_false configData) Hsz) s (Mem_here mem0 s Hs)) as [Hw Hm].
  destruct (readStatus_memory mem0 env Hmem _ statusData _ Hm) as [Hr _].
  rewrite Hw, Hr. cbn [fst snd].
  rewrite config_memory_tables by exact Hsz.
  repeat split. apply all_bytes_tables, Hb.
Qed.

Lemma all_bytes_new : all_bytes FanConfigData_new.
Proof. unfold all_bytes, is_byte. cbn. repeat constructor; lia. Qed.

Lemma ec_env_memory_like mem0 : memory_like mem0 (ec_env mem0).
Proof. intros h port. reflexivity. Qed.

Lemma all_sizes_10_sample : all_sizes_10 sample_config.
Proof. repeat split. Qed.

Lemma all_bytes_sample : all_bytes sample_config.
Proof.
  unfold all_bytes, tables, sample_config.
  cbn [fan1_curve fan2_curve acc_time dec_time cpu_lower_temp cpu_upper_temp
       gpu_lower_temp gpu_upper_temp vrm_lower_temp vrm_upper_temp].
  repeat (apply Forall_cons; [unfold is_byte; repeat (apply Forall_cons; [lia|]);
                              apply Forall_nil|]).
  apply Forall_nil.
Qed.

Lemma writeConfig_readStatus_round_trip_witness :
  fst (writeConfig (ec_env sample_memory) sample_config ready_machine) = true
  /\ fst (fst (readStatus (ec_env sample_memory) FanStatusData_new
                 (snd (writeConfig (ec_env sample_memory) sample_config ready_machine))))
     = true
  /\ config_of_status
       (snd (fst (readStatus (ec_env sample_memory) FanStatusData_new
                    (snd (writeConfig (ec_env sample_memory) sample_config ready_machine)))))
     = sample_config.
Proof.
  exact (writeConfig_readStatus_round_trip sample_memory (ec_env sample_memory)
           sample_config FanStatusData_new ready_machine
           (ec_env_memory_like sample_memory) eq_refl all_sizes_10_sample all_bytes_sample).
Defined.

(** Before the write the device held other tables: the first entry of
    the fan 1 curve was 65, and is 10 afterwards. *)
Example sample_memory_before_the_write :
  fst (fst (readStatus (ec_env sample_memory) FanStatusData_new ready_machine)) = true
  /\ nth 0 (st_fan1_curve
              (snd (fst (readStatus (ec_env sample_memory) FanStatusData_new
                           ready_machine)))) 0 = 65
  /\ nth 0 (fan1_curve sample_config) 0 = 10.
Proof. vm_compute. repeat split. Qed.

(** X2. Over a device that keeps what is written to it, [readStatus] on
    an initialised controller is a snapshot of the device: it returns
    true, the status does not depend on the status passed in, the
    memory of the device is what it was, and a second call returns the
    same status. *)
Theorem readStatus_is_a_snapshot mem0 env statusData statusData' s :
  memory_like mem0 env ->
  is_ready (ctl s) = true ->
  fst (readStatus env statusData s) = (true, status_of_memory (mem_at mem0 s))
  /\ (forall x, mem_at mem0 (snd (readStatus env statusData s)) x = mem_at mem0 s x)
  /\ fst (readStatus env statusData' (snd (readStatus env statusData s)))
     = fst (readStatus env statusData s).
Proof.
  intros Hmem Hs.
  destruct (readStatus_memory mem0 env Hmem _ statusData s (Mem_here mem0 s Hs)) as [Hr Hm].
  destruct (readStatus_memory mem0 env Hmem _ statusData' _ Hm) as [Hr' _].
  split; [exact Hr|]. split; [exact (proj2 Hm)|].
  rewrite Hr', Hr. reflexivity.
Qed.

Lemma readStatus_is_a_snapshot_witness :
  fst (readStatus (ec_env (fun x => x)) FanStatusData_new ready_machine)
  = (true, status_of_memory (mem_at (fun x => x) ready_machine))
  /\ (forall x, mem_at (fun x => x)
                  (snd (readStatus (ec_env (fun x => x)) FanStatusData_new ready_machine)) x
                = mem_at (fun x => x) ready_machine x)
  /\ fst (readStatus (ec_env (fun x => x)) FanStatusData_new
            (snd (readStatus (ec_env (fun x => x)) FanStatusData_new ready_machine)))
     = fst (readStatus (ec_env (fun x => x)) FanStatusData_new ready_machine).
Proof.
  exact (readStatus_is_a_snapshot (fun x => x) (ec_env (fun x => x))
           FanStatusData_new FanStatusData_new ready_machine
           (ec_env_memory_like (fun x => x)) eq_refl).
Defined.

(** *** The single registers and the rest of the memory *)

Lemma targets_memory_elsewhere f x :
  u16 x <> u16 ITE_REGISTER_MAP.FAN1_TARGET_DUTY ->
  u16 x <> u16 ITE_REGISTER_MAP.FAN2_TARGET_DUTY ->
  load (targets_memory f) x = load f x.
Proof.
  intros N1 N2. unfold targets_memory. cbv zeta.
  rewrite !load_store_other by assumption. reflexivity.
Qed.

Lemma index_after_tables configData f :
  all_sizes_10 configData ->
  load (targets_memory (tables_memory configData f)) ITE_REGISTER_MAP.FAN_CUR_POINT
  = load f ITE_REGISTER_MAP.FAN_CUR_POINT.
Proof.
  intros Hsz.
  rewrite targets_memory_elsewhere by (vm_compute; discriminate).
  apply tables_memory_elsewhere; [exact Hsz|reflexivity].
Qed.

(** X3. Over a device that keeps what is written to it, a successful
    [writeConfig] leaves in each target duty register the target curve
    value the device held before the call, and, when the curve point
    index the device holds is below 10, the acc and dec entries of that
    index in the four live registers; when the index is 10 or more the
    four live registers keep their values. *)
Theorem writeConfig_single_registers mem0 env configData s :
  memory_like mem0 env ->
  is_ready (ctl s) = true ->
  all_sizes_10 configData ->
  let f := mem_at mem0 s in
  let f' := mem_at mem0 (snd (writeConfig env configData s)) in
  let idx := load f ITE_REGISTER_MAP.FAN_CUR_POINT in
  load f' ITE_REGISTER_MAP.FAN1_TARGET_DUTY = load f ITE_REGISTER_MAP.FAN1_TARGET_CURVE_VAL
  /\ load f' ITE_REGISTER_MAP.FAN2_TARGET_DUTY = load f ITE_REGISTER_MAP.FAN2_TARGET_CURVE_VAL
  /\ (idx < 10 ->
      load f' ITE_REGISTER_MAP.FAN1_CUR_ACC = u8 (at_index (acc_time configData) idx)
      /\ load f' ITE_REGISTER_MAP.FAN2_CUR_ACC = u8 (at_index (acc_time configData) idx)
      /\ load f' ITE_REGISTER_MAP.FAN1_CUR_DEC = u8 (at_index (dec_time configData) idx)
      /\ load f' ITE_REGISTER_MAP.FAN2_CUR_DEC = u8 (at_index (dec_time configData) idx))
  /\ (10 <= idx ->
      load f' ITE_REGISTER_MAP.FAN1_CUR_ACC = load f ITE_REGISTER_MAP.FAN1_CUR_ACC
      /\ load f' ITE_REGISTER_MAP.FAN2_CUR_ACC = load f ITE_REGISTER_MAP.FAN2_CUR_ACC
      /\ load f' ITE_REGISTER_MAP.FAN1_CUR_DEC = load f ITE_REGISTER_MAP.FAN1_CUR_DEC
      /\ load f' ITE_REGISTER_MAP.FAN2_CUR_DEC = load f ITE_REGISTER_MAP.FAN2_CUR_DEC).
Proof.
  intros Hmem Hs Hsz. cbv zeta.
  destruct (writeConfig_memory mem0 env Hmem (mem_at mem0 s) configData
              (proj2 (bad_sizes_false configData) Hsz) s (Mem_here mem0 s Hs)) as [_ [_ Hm]].
  rewrite !(load_ext _ _ _ Hm).
  set (f := mem_at mem0 s).
  unfold config_memory, live_memory. cbv zeta.
  rewrite (index_after_tables configData f Hsz).
  set (idx := load f ITE_REGISTER_MAP.FAN_CUR_POINT).
  destruct Hsz as (H1 & H2 & H3 & H4 & H5 & H6 & H7 & H8 & H9 & H10).
  assert (Hsz : all_sizes_10 configData) by (repeat split; assumption).
  rewrite H3, H4.
  change (Z.of_nat 10) with 10.
  destruct (idx <? 10) eqn:E; [apply Z.ltb_lt in E|apply Z.ltb_ge in E];
    unfold targets_memory; cbv zeta;
    repeat split; try (intros; lia); intros;
    repeat first
      [ rewrite load_store_same
      | rewrite load_store_other by (vm_compute; discriminate)
      | rewrite (tables_memory_elsewhere configData f) by (exact Hsz || reflexivity)
      | rewrite u8_load ];
    reflexivity.
Qed.

Lemma writeConfig_single_registers_witness :
  let f := mem_at sample_memory ready_machine in
  let f' := mem_at sample_memory
              (snd (writeConfig (ec_env sample_memory) sample_config ready_machine)) in
  load f ITE_REGISTER_MAP.FAN_CUR_POINT = 3
  /\ load f' ITE_REGISTER_MAP.FAN1_TARGET_DUTY = 253
  /\ load f' ITE_REGISTER_MAP.FAN2_TARGET_DUTY = 254
  /\ load f' ITE_REGISTER_MAP.FAN1_CUR_ACC = 33
  /\ load f' ITE_REGISTER_MAP.FAN2_CUR_ACC = 33
  /\ load f' ITE_REGISTER_MAP.FAN1_CUR_DEC = 43
  /\ load f' ITE_REGISTER_MAP.FAN2_CUR_DEC = 43.
Proof.
  destruct (writeConfig_single_registers sample_memory (ec_env sample_memory)
              sample_config ready_machine
              (ec_env_memory_like sample_memory) eq_refl all_sizes_10_sample)
    as (D1 & D2 & Hin & _).
  destruct (Hin eq_refl) as (A1 & A2 & B1 & B2).
  split; [reflexivity|].
  split; [exact (eq_trans D1 eq_refl)|]. split; [exact (eq_trans D2 eq_refl)|].
  split; [exact (eq_trans A1 eq_refl)|]. split; [exact (eq_trans A2 eq_refl)|].
  split; [exact (eq_trans B1 eq_refl)|exact (eq_trans B2 eq_refl)].
Defined.

Example sample_registers_before :
  let f := mem_at sample_memory ready_machine in
  load f ITE_REGISTER_MAP.FAN1_TARGET_DUTY = 229
  /\ load f ITE_REGISTER_MAP.FAN2_TARGET_DUTY = 230
  /\ load f ITE_REGISTER_MAP.FAN1_CUR_ACC = 221
  /\ load f ITE_REGISTER_MAP.FAN2_CUR_ACC = 223
  /\ load f ITE_REGISTER_MAP.FAN1_CUR_DEC = 222
  /\ load f ITE_REGISTER_MAP.FAN2_CUR_DEC = 224.
Proof. vm_compute. repeat split. Qed.

Lemma table_apart base x :
  0 <= base -> base + 10 <= 65536 ->
  (base <=? u16 x) && (u16 x <? base + 10) = false ->
  apart x 1 base 10 = true.
Proof.
  intros H0 H1 H. apply apart_intro. intros i j Hi Hj.
  replace i with 0%nat by lia. replace (x + Z.of_nat 0) with x by (cbn; lia).
  replace (u16 (base + Z.of_nat j)) with (base + Z.of_nat j)
    by (unfold u16; symmetry; apply Z.mod_small; lia).
  apply andb_false_iff in H. rewrite Z.leb_gt, Z.ltb_ge in H. lia.
Qed.

Lemma register_apart a x :
  (u16 x =? a) = false -> u16 a = a -> u16 x <> u16 a.
Proof. intros H E. rewrite E. apply Z.eqb_neq. exact H. Qed.

Lemma config_memory_elsewhere configData f x :
  all_sizes_10 configData ->
  config_address (u16 x) = false ->
  load (config_memory configData f) x = load f x.
Proof.
  intros (H1 & H2 & H3 & H4 & H5 & H6 & H7 & H8 & H9 & H10) Hx.
  unfold config_address, table_bases, config_registers in Hx.
  cbn [existsb] in Hx. rewrite !orb_false_iff in Hx.
  destruct Hx as [(T1 & T2 & T3 & T4 & T5 & T6 & T7 & T8 & T9 & T10 & _)
                  (R1 & R2 & R3 & R4 & R5 & R6 & _)].
  apply table_apart in T1; [|discriminate|discriminate].
  apply table_apart in T2; [|discriminate|discriminate].
  apply table_apart in T3; [|discriminate|discriminate].
  apply table_apart in T4; [|discriminate|discriminate].
  apply table_apart in T5; [|discriminate|discriminate].
  apply table_apart in T6; [|discriminate|discriminate].
  apply table_apart in T7; [|discriminate|discriminate].
  apply table_apart in T8; [|discriminate|discriminate].
  apply table_apart in T9; [|discriminate|discriminate].
  apply table_apart in T10; [|discriminate|discriminate].
  apply register_apart in R1; [|reflexivity].
  apply register_apart in R2; [|reflexivity].
  apply register_apart in R3; [|reflexivity].
  apply register_apart in R4; [|reflexivity].
  apply register_apart in R5; [|reflexivity].
  apply register_apart in R6; [|reflexivity].
  unfold config_memory, live_memory. cbv zeta.
  set (idx := load (targets_memory (tables_memory configData f)) ITE_REGISTER_MAP.FAN_CUR_POINT).
  destruct (idx <? Z.of_nat (List.length (acc_time configData)));
    destruct (idx <? Z.of_nat (List.length (dec_time configData)));
    rewrite ?load_store_other by assumption;
    (rewrite targets_memory_elsewhere by assumption);
    unfold tables_memory; cbv zeta;
    rewrite !load_store_array_other by (use_sizes; assumption);
    reflexivity.
Qed.

(** X4. Over a device that keeps what is written to it, [writeConfig]
    on an initialised controller changes no byte of the device other
    than the ten entries of the ten tables and the six single
    registers, whatever the configuration is and whatever it returns:
    in particular the speed registers, the chip identification and the
    curve point index are never written. *)
Theorem writeConfig_writes_nothing_else mem0 env configData s x :
  memory_like mem0 env ->
  is_ready (ctl s) = true ->
  config_address (u16 x) = false ->
  load (mem_at mem0 (snd (writeConfig env configData s))) x = load (mem_at mem0 s) x.
Proof.
  intros Hmem Hs Hx.
  destruct (bad_sizes configData) eqn:Hsz.
  - unfold writeConfig, bind, this. rewrite (is_ready_init_ok _ Hs). cbn [negb setError update].
    rewrite Hsz. reflexivity.
  - destruct (writeConfig_memory mem0 env Hmem (mem_at mem0 s) configData Hsz s
                (Mem_here mem0 s Hs)) as [_ [_ Hm]].
    rewrite (load_ext _ _ _ Hm).
    apply config_memory_elsewhere; [|exact Hx].
    apply bad_sizes_false, Hsz.
Qed.

Lemma writeConfig_writes_nothing_else_witness :
  load (mem_at (fun _ => 7)
          (snd (writeConfig (ec_env (fun _ => 7)) FanConfigData_new ready_machine)))
       ITE_REGISTER_MAP.FAN1_RPM_LSB
  = load (mem_at (fun _ => 7) ready_machine) ITE_REGISTER_MAP.FAN1_RPM_LSB.
Proof.
  exact (writeConfig_writes_nothing_else (fun _ => 7) (ec_env (fun _ => 7))
           FanConfigData_new ready_machine ITE_REGISTER_MAP.FAN1_RPM_LSB
           (ec_env_memory_like (fun _ => 7)) eq_refl eq_refl).
Defined.

(** ** Port discipline *)

Lemma emits_ret p {A} (a : A) : emits p (ret a).
Proof. intros s. exists []. split; [symmetry; apply app_nil_r|reflexivity]. Qed.

Lemma emits_bind p {A B} (m : M A) (k : A -> M B) :
  emits p m -> (forall a, emits p (k a)) -> emits p (bind m k).
Proof.
  intros Hm Hk s. unfold bind. destruct (Hm s) as (e1 & E1 & P1).
  destruct (m s) as [a s1]. cbn [snd] in E1.
  destruct (Hk a s1) as (e2 & E2 & P2).
  exists (e1 ++ e2). split.
  - rewrite E2, E1. symmetry. apply app_assoc.
  - rewrite forallb_app, P1, P2. reflexivity.
Qed.

Lemma emits_this p {B} (k : FanController -> M B) :
  (forall c, emits p (k c)) -> emits p (bind this k).
Proof. intros H s. exact (H (ctl s) s). Qed.

Lemma emits_if p {A} (b : bool) (m1 m2 : M A) :
  emits p m1 -> emits p m2 -> emits p (if b then m1 else m2).
Proof. destruct b; tauto. Qed.

Lemma emits_setError p msg : emits p (setError msg).
Proof. intros s. exists []. split; [symmetry; apply app_nil_r|reflexivity]. Qed.

Lemma emits_log p {A} (m : M A) (evs : Machine -> list Event) :
  (forall s, snd (m s) = log (evs s) s) ->
  (forall s, forallb p (evs s) = true) ->
  emits p m.
Proof.
  intros E P s. exists (evs s). split; [rewrite E; reflexivity|apply P].
Qed.

Lemma is_byte_event_bounds v : 0 <= v < 256 -> (0 <=? v) && (v <? 256) = true.
Proof. intros H. apply andb_true_iff. rewrite Z.leb_le, Z.ltb_lt. exact H. Qed.

Lemma address_phases_discipline addr : forallb ec_port_event (address_phases addr) = true.
Proof.
  unfold address_phases, select_index. cbn [app forallb ec_port_event].
  change (EC_ADDR_PORT =? EC_ADDR_PORT) with true.
  change (EC_DATA_PORT =? EC_ADDR_PORT) with false.
  change (EC_DATA_PORT =? EC_DATA_PORT) with true.
  cbn [orb andb].
  rewrite !(is_byte_event_bounds _ (land_255_range _)). reflexivity.
Qed.

Lemma emits_direct_ec_write addr data : emits ec_port_event (direct_ec_write addr data).
Proof.
  apply (emits_log _ _ (fun s => if can_write (ctl s) then ec_write_tx addr data else [])).
  - intros s. rewrite direct_ec_write_run. reflexivity.
  - intros s. destruct (can_write (ctl s)); [|reflexivity].
    unfold ec_write_tx. rewrite forallb_app, address_phases_discipline.
    cbn [forallb ec_port_event andb].
    change (EC_DATA_PORT =? EC_ADDR_PORT) with false.
    change (EC_DATA_PORT =? EC_DATA_PORT) with true. cbn [orb andb].
    rewrite (is_byte_event_bounds _ (u8_range _)). reflexivity.
Qed.

Lemma ec_read_answer_range env addr s : 0 <= ec_read_answer env addr s < 256.
Proof.
  unfold ec_read_answer. destruct (can_read (ctl s)); [apply u8_range|lia].
Qed.

Lemma emits_direct_ec_read env addr : emits ec_port_event (direct_ec_read env addr).
Proof.
  apply (emits_log _ _
           (fun s => (if can_write (ctl s) then address_phases addr else [])
                     ++ (if can_read (ctl s)
                         then [EvReadPort EC_DATA_PORT (ec_read_answer env addr s)]
                         else []))).
  - intros s. rewrite direct_ec_read_run. reflexivity.
  - intros s. rewrite forallb_app.
    destruct (can_write (ctl s)), (can_read (ctl s));
      rewrite ?address_phases_discipline; cbn [forallb ec_port_event andb];
      change (EC_DATA_PORT =? EC_DATA_PORT) with true; cbn [andb];
      rewrite ?(is_byte_event_bounds _ (ec_read_answer_range env addr s)); reflexivity.
Qed.

Lemma emits_ec_write_loop addr_base data : forall i,
  emits ec_port_event (ec_write_loop addr_base i data).
Proof.
  induction data as [|v rest IH]; intros i; cbn [ec_write_loop].
  - apply emits_ret.
  - apply emits_bind; [apply emits_direct_ec_write|intros _; apply IH].
Qed.

Lemma emits_direct_ec_write_array addr_base data :
  emits ec_port_event (direct_ec_write_array addr_base data).
Proof.
  unfold direct_ec_write_array. destruct data; [apply emits_ret|apply emits_ec_write_loop].
Qed.

Lemma emits_ec_read_loop env addr_base n : forall i,
  emits ec_port_event (ec_read_loop env addr_base i n).
Proof.
  induction n as [|n IH]; intros i; cbn [ec_read_loop].
  - apply emits_ret.
  - apply emits_bind; [apply emits_direct_ec_read|intros v].
    apply emits_bind; [apply IH|intros rest; apply emits_ret].
Qed.

Lemma emits_direct_ec_read_array env addr_base n :
  emits ec_port_event (direct_ec_read_array env addr_base n).
Proof. unfold direct_ec_read_array. apply emits_ec_read_loop. Qed.

Ltac emits_tac :=
  repeat lazymatch goal with
         | |- emits _ (bind this _) => apply emits_this; intros ?
         | |- emits _ (bind _ _) => apply emits_bind; [|intros ?]
         | |- emits _ (if _ then _ else _) => apply emits_if
         | |- emits _ (ret _) => apply emits_ret
         | |- emits _ (setError _) => apply emits_setError
         | |- emits _ (direct_ec_write _ _) => apply emits_direct_ec_write
         | |- emits _ (direct_ec_read _ _) => apply emits_direct_ec_read
         | |- emits _ (direct_ec_write_array _ _) => apply emits_direct_ec_write_array
         | |- emits _ (direct_ec_read_array _ _ _) => apply emits_direct_ec_read_array
         end.

Lemma emits_readStatus env statusData : emits ec_port_event (readStatus env statusData).
Proof. unfold readStatus. emits_tac. Qed.

Lemma emits_writeConfig env configData : emits ec_port_event (writeConfig env configData).
Proof. unfold writeConfig. emits_tac. Qed.

(** X5. Whatever the controller, the configuration and the answers of
    the outside world are, [readStatus] and [writeConfig] only add port
    events of the EC protocol to the history: bytes written to port
    0x4E or 0x4F and bytes read from port 0x4F.  They touch no other
    port and never call the loader or the life-cycle functions of the
    wrapper. *)
Theorem status_and_config_port_discipline env statusData configData :
  emits ec_port_event (readStatus env statusData)
  /\ emits ec_port_event (writeConfig env configData).
Proof. split; [apply emits_readStatus|apply emits_writeConfig]. Qed.

(** ** Port traffic *)

Lemma counts_ret {A} (a : A) : counts 0 0 (ret a).
Proof. intros s H. cbn [ret snd]. repeat split; [exact H|lia|lia]. Qed.

Lemma counts_bind {A B} r1 w1 r2 w2 (m : M A) (k : A -> M B) :
  counts r1 w1 m -> (forall a, counts r2 w2 (k a)) ->
  counts (r1 + r2) (w1 + w2) (bind m k).
Proof.
  intros Hm Hk s H. unfold bind. destruct (Hm s H) as (R1 & N1 & W1).
  destruct (m s) as [a s1]. cbn [snd] in R1, N1, W1.
  destruct (Hk a s1 R1) as (R2 & N2 & W2).
  repeat split; [exact R2|lia|lia].
Qed.

Lemma counts_eq {A} r w r' w' (m : M A) :
  counts r w m -> r = r' -> w = w' -> counts r' w' m.
Proof. intros H <- <-. exact H. Qed.

Lemma counts_this_ready {B} r w (k : FanController -> M B) :
  (forall c, is_ready c = true -> counts r w (k c)) -> counts r w (bind this k).
Proof. intros H s Hs. exact (H (ctl s) Hs s Hs). Qed.

Lemma counts_setError msg : counts 0 0 (setError msg).
Proof.
  intros s H. cbn [setError update snd ctl]. repeat split; [exact H| |].
  - unfold port_reads. cbn [trace]. lia.
  - unfold port_writes. cbn [trace]. lia.
Qed.

Lemma counts_log {A} r w (m : M A) evs :
  (forall s, is_ready (ctl s) = true -> snd (m s) = log (evs s) s) ->
  (forall s, List.length (filter is_read (evs s)) = r) ->
  (forall s, List.length (filter is_write (evs s)) = w) ->
  counts r w m.
Proof.
  intros E R W s H. rewrite (E s H). unfold port_reads, port_writes, log.
  cbn [ctl trace]. rewrite !filter_app, !length_app, R, W. repeat split. exact H.
Qed.

Lemma counts_direct_ec_read env addr : counts 1 11 (direct_ec_read env addr).
Proof.
  apply (counts_log _ _ _
           (fun s => ec_read_tx addr
                       (u8 (dll_ReadPort env (trace s ++ address_phases addr) EC_DATA_PORT)))).
  - intros s H. rewrite (direct_ec_read_ready env addr s H). reflexivity.
  - intros s. reflexivity.
  - intros s. reflexivity.
Qed.

Lemma counts_direct_ec_write addr data : counts 0 12 (direct_ec_write addr data).
Proof.
  apply (counts_log _ _ _ (fun _ => ec_write_tx addr data)).
  - intros s H. rewrite direct_ec_write_run, (is_ready_can_write _ H). reflexivity.
  - intros s. reflexivity.
  - intros s. reflexivity.
Qed.

Lemma counts_ec_write_loop addr_base data : forall i,
  counts 0 (12 * List.length data) (ec_write_loop addr_base i data).
Proof.
  induction data as [|v rest IH]; intros i; cbn [ec_write_loop].
  - apply counts_ret.
  - eapply counts_eq.
    + apply counts_bind; [apply counts_direct_ec_write|intros _; apply IH].
    + reflexivity.
    + cbn [List.length]. lia.
Qed.

Lemma counts_direct_ec_write_array addr_base data :
  counts 0 (12 * List.length data) (direct_ec_write_array addr_base data).
Proof.
  unfold direct_ec_write_array. destruct data; [apply counts_ret|apply counts_ec_write_loop].
Qed.

Lemma counts_ec_read_loop env addr_base n : forall i,
  counts n (11 * n) (ec_read_loop env addr_base i n).
Proof.
  induction n as [|n IH]; intros i; cbn [ec_read_loop].
  - apply counts_ret.
  - eapply counts_eq.
    + apply counts_bind; [apply counts_direct_ec_read|intros v].
      apply counts_bind; [apply IH|intros rest; apply counts_ret].
    + lia.
    + lia.
Qed.

Lemma counts_direct_ec_read_array env addr_base n :
  counts n (11 * n) (direct_ec_read_array env addr_base n).
Proof. unfold direct_ec_read_array. apply counts_ec_read_loop. Qed.

Ltac counts_tac :=
  repeat lazymatch goal with
         | |- counts _ _ (bind _ _) => eapply counts_bind; [|intros ?]
         | |- counts _ _ (ret _) => apply counts_ret
         | |- counts _ _ (setError _) => apply counts_setError
         | |- counts _ _ (direct_ec_write _ _) => apply counts_direct_ec_write
         | |- counts _ _ (direct_ec_read _ _) => apply counts_direct_ec_read
         | |- counts _ _ (direct_ec_write_array _ _) => apply counts_direct_ec_write_array
         | |- counts _ _ (direct_ec_read_array _ _ _) => apply counts_direct_ec_read_array
         end.

Lemma counts_readStatus env statusData : counts 113 1243 (readStatus env statusData).
Proof.
  unfold readStatus. apply counts_this_ready. intros c Hc.
  rewrite (is_ready_init_ok _ Hc). cbn [negb].
  eapply counts_eq; [counts_tac|reflexivity|reflexivity].
Qed.

Lemma counts_write_tables_read_index env configData :
  all_sizes_10 configData ->
  counts 3 1257 (write_tables_read_index env configData).
Proof.
  intros (H1 & H2 & H3 & H4 & H5 & H6 & H7 & H8 & H9 & H10).
  unfold write_tables_read_index.
  eapply counts_eq; [counts_tac|reflexivity|].
  rewrite H1, H2, H3, H4, H5, H6, H7, H8, H9, H10. reflexivity.
Qed.

Lemma counts_update_live_registers configData idx :
  all_sizes_10 configData ->
  counts 0 (if idx <? 10 then 48 else 0) (update_live_registers configData idx).
Proof.
  intros (_ & _ & H3 & H4 & _).
  unfold update_live_registers. rewrite H3, H4. change (Z.of_nat 10) with 10.
  destruct (idx <? 10);
    (eapply counts_eq; [counts_tac|reflexivity|reflexivity]).
Qed.

(** X6. The port traffic of the two public transfers on an initialised
    controller does not depend on what the device answers:
    [readStatus] makes exactly 113 port reads and 1243 port writes (113
    read transactions), and [writeConfig] of ten tables of ten entries
    makes exactly 3 port reads and 1257 port writes, plus 48 port
    writes when the curve point index read from the device is below
    10. *)
Theorem status_and_config_port_traffic env statusData configData s :
  is_ready (ctl s) = true ->
  all_sizes_10 configData ->
  let idx := fst (write_tables_read_index env configData (with_error EmptyString s)) in
  port_reads (snd (readStatus env statusData s)) = (port_reads s + 113)%nat
  /\ port_writes (snd (readStatus env statusData s)) = (port_writes s + 1243)%nat
  /\ port_reads (snd (writeConfig env configData s)) = (port_reads s + 3)%nat
  /\ port_writes (snd (writeConfig env configData s))
     = (port_writes s + 1257 + (if (idx <? 10)%Z then 48 else 0))%nat.
Proof.
  intros Hs Hsz. cbv zeta.
  destruct (counts_readStatus env statusData s Hs) as (_ & R & W).
  split; [exact R|]. split; [exact W|].
  rewrite (writeConfig_body env configData s (is_ready_init_ok _ Hs)
             (proj2 (bad_sizes_false configData) Hsz)).
  assert (Hs' : is_ready (ctl (with_error EmptyString s)) = true) by exact Hs.
  destruct (counts_write_tables_read_index env configData Hsz _ Hs') as (R1 & N1 & W1).
  unfold bind.
  destruct (write_tables_read_index env configData (with_error EmptyString s)) as [idx s1].
  cbn [fst snd] in *.
  destruct (counts_update_live_registers configData idx Hsz s1 R1) as (_ & N2 & W2).
  rewrite N2, W2, N1, W1. unfold port_reads, port_writes. cbn [with_error trace]. lia.
Qed.

Lemma status_and_config_port_traffic_witness :
  let idx := fst (write_tables_read_index (ec_env (index_memory 3)) FanConfigData_new
                    (with_error EmptyString ready_machine)) in
  port_reads (snd (readStatus (ec_env (index_memory 3)) FanStatusData_new ready_machine))
  = (port_reads ready_machine + 113)%nat
  /\ port_writes (snd (readStatus (ec_env (index_memory 3)) FanStatusData_new ready_machine))
     = (port_writes ready_machine + 1243)%nat
  /\ port_reads (snd (writeConfig (ec_env (index_memory 3)) FanConfigData_new ready_machine))
     = (port_reads ready_machine + 3)%nat
  /\ port_writes (snd (writeConfig (ec_env (index_memory 3)) FanConfigData_new ready_machine))
     = (port_writes ready_machine + 1257 + (if (idx <? 10)%Z then 48 else 0))%nat.
Proof.
  exact (status_and_config_port_traffic (ec_env (index_memory 3)) FanStatusData_new
           FanConfigData_new ready_machine eq_refl all_sizes_10_new).
Defined.

(** ** What the transfers return *)

Lemma returns_bind_with {A B} (m : M A) (k : A -> M B) (Q : A -> Prop) (P : B -> Prop) :
  returns m Q -> (forall a, Q a -> returns (k a) P) -> returns (bind m k) P.
Proof.
  intros Hm Hk s. unfold bind. specialize (Hm s). destruct (m s) as [a s1].
  apply Hk. exact Hm.
Qed.

Lemma returns_direct_ec_read env addr : returns (direct_ec_read env addr) is_byte.
Proof.
  intros s. rewrite direct_ec_read_run. cbn [fst]. apply ec_read_answer_range.
Qed.

Lemma returns_ec_read_loop env addr_base n : forall i,
  returns (ec_read_loop env addr_base i n)
          (fun l => List.length l = n /\ Forall is_byte l).
Proof.
  induction n as [|n IH]; intros i; cbn [ec_read_loop].
  - intros s. split; [reflexivity|constructor].
  - apply (returns_bind_with _ _ is_byte); [apply returns_direct_ec_read|intros v Hv].
    apply (returns_bind_with _ _ (fun l => List.length l = n /\ Forall is_byte l));
      [apply IH|intros rest [Hl Hb]].
    intros s. cbn [ret fst List.length]. split; [congruence|constructor; assumption].
Qed.

Lemma returns_direct_ec_read_array env addr_base n :
  returns (direct_ec_read_array env addr_base n)
          (fun l => List.length l = n /\ Forall is_byte l).
Proof. unfold direct_ec_read_array. apply returns_ec_read_loop. Qed.

Lemma returns_any {A} (m : M A) : returns m (fun _ => True).
Proof. intros s. exact I. Qed.

Ltac returns_step :=
  lazymatch goal with
  | |- returns (bind (direct_ec_read _ _) _) _ =>
      apply (returns_bind_with _ _ is_byte); [apply returns_direct_ec_read|intros ? ?]
  | |- returns (bind (direct_ec_read_array _ _ ?n) _) _ =>
      apply (returns_bind_with _ _ (fun l => List.length l = n /\ Forall is_byte l));
      [apply returns_direct_ec_read_array|intros ? [? ?]]
  | |- returns (bind _ _) _ =>
      apply (returns_bind_with _ _ (fun _ => True)); [apply returns_any|intros ? _]
  | |- returns (if ?b then _ else _) _ => destruct b
  end.

(** Past its two guards [writeConfig] returns true. *)
Lemma writeConfig_accepts env configData s :
  winring_init_ok (ctl s) = true ->
  bad_sizes configData = false ->
  fst (writeConfig env configData s) = true.
Proof.
  intros Hok Hsz. unfold writeConfig. unfold bind at 1, this. rewrite Hok. cbn [negb].
  unfold bind at 1. cbn [setError update]. rewrite Hsz.
  match goal with |- fst (?m ?st) = true =>
    generalize st; change (returns m (fun r => r = true)) end.
  repeat returns_step. intros s0. reflexivity.
Qed.

(** X7. The status a successful [readStatus] returns is well formed,
    whatever the device answers: each of the ten tables has ten
    entries, every table entry and every single register value is a
    byte, and each speed is a 16-bit value.  The configuration [main]
    copies out of it at start-up therefore passes the size test of
    [writeConfig], which returns true on it from any initialised
    controller. *)
Theorem readStatus_status_well_formed env statusData s :
  winring_init_ok (ctl s) = true ->
  let st := snd (fst (readStatus env statusData s)) in
  fst (fst (readStatus env statusData s)) = true
  /\ all_sizes_10 (config_of_status st)
  /\ all_bytes (config_of_status st)
  /\ Forall is_byte
       [st_chip_id1 st; st_chip_id2 st; st_chip_ver st; st_fw_ver st;
        st_fan1_target_duty st; st_fan2_target_duty st;
        st_fan1_target_curve_val st; st_fan2_target_curve_val st; st_fan_cur_point st]
  /\ 0 <= st_fan1_speed st < 65536
  /\ 0 <= st_fan2_speed st < 65536
  /\ (forall env' s', winring_init_ok (ctl s') = true ->
        fst (writeConfig env' (config_of_status st) s') = true).
Proof.
  intros Hok. cbv zeta.
  set (P := fun r : bool * FanStatusData =>
              fst r = true
              /\ all_sizes_10 (config_of_status (snd r))
              /\ all_bytes (config_of_status (snd r))
              /\ Forall is_byte
                   [st_chip_id1 (snd r); st_chip_id2 (snd r); st_chip_ver (snd r);
                    st_fw_ver (snd r); st_fan1_target_duty (snd r);
                    st_fan2_target_duty (snd r); st_fan1_target_curve_val (snd r);
                    st_fan2_target_curve_val (snd r); st_fan_cur_point (snd r)]
              /\ 0 <= st_fan1_speed (snd r) < 65536
              /\ 0 <= st_fan2_speed (snd r) < 65536).
  assert (HP : P (fst (readStatus env statusData s))).
  { unfold readStatus. unfold bind at 1, this. rewrite Hok. cbn [negb].
    match goal with |- P (fst (?m ?st)) => generalize st; change (returns m P) end.
    repeat returns_step.
    intros s0. unfold P, all_sizes_10, all_bytes, tables, config_of_status.
    cbn [ret fst snd st_fan1_speed st_fan2_speed st_fan1_curve st_fan2_curve st_acc_time
         st_dec_time st_cpu_lower_temp st_cpu_upper_temp st_gpu_lower_temp
         st_gpu_upper_temp st_vrm_lower_temp st_vrm_upper_temp st_chip_id1 st_chip_id2
         st_chip_ver st_fw_ver st_fan1_target_duty st_fan2_target_duty
         st_fan1_target_curve_val st_fan2_target_curve_val st_fan_cur_point
         fan1_curve fan2_curve acc_time dec_time cpu_lower_temp cpu_upper_temp
         gpu_lower_temp gpu_upper_temp vrm_lower_temp vrm_upper_temp].
    repeat split; try assumption; try apply u16_range;
      repeat (constructor; try assumption). }
  destruct HP as (H1 & H2 & H3 & H4 & H5 & H6).
  split; [exact H1|]. split; [exact H2|]. split; [exact H3|]. split; [exact H4|].
  split; [exact H5|]. split; [exact H6|].
  intros env' s' Hok'. apply writeConfig_accepts; [exact Hok'|].
  apply bad_sizes_false. exact H2.
Qed.

Lemma readStatus_status_well_formed_witness :
  let st := snd (fst (readStatus (ready_env [1; 2; 3]) FanStatusData_new ready_machine)) in
  fst (fst (readStatus (ready_env [1; 2; 3]) FanStatusData_new ready_machine)) = true
  /\ all_sizes_10 (config_of_status st)
  /\ all_bytes (config_of_status st)
  /\ Forall is_byte
       [st_chip_id1 st; st_chip_id2 st; st_chip_ver st; st_fw_ver st;
        st_fan1_target_duty st; st_fan2_target_duty st;
        st_fan1_target_curve_val st; st_fan2_target_curve_val st; st_fan_cur_point st]
  /\ 0 <= st_fan1_speed st < 65536
  /\ 0 <= st_fan2_speed st < 65536
  /\ (forall env' s', winring_init_ok (ctl s') = true ->
        fst (writeConfig env' (config_of_status st) s') = true).
Proof.
  exact (readStatus_status_well_formed (ready_env [1; 2; 3]) FanStatusData_new
           ready_machine eq_refl).
Defined.

(** ** The library handle over the life of a controller *)

Lemma lib_refs_app evs1 evs2 : lib_refs (evs1 ++ evs2) = lib_refs evs1 + lib_refs evs2.
Proof.
  induction evs1 as [|e evs1 IH]; [reflexivity|].
  cbn [app lib_refs]. destruct e as [n [h|]|c|h n a|[h|]|b|b|st| |p v|p v]; lia.
Qed.

Lemma lib_refs_port_events evs : forallb ec_port_event evs = true -> lib_refs evs = 0.
Proof.
  induction evs as [|e evs IH]; [reflexivity|].
  cbn [forallb]. intros H. apply andb_true_iff in H. destruct H as [He Hr].
  destruct e; try discriminate He; cbn [lib_refs]; apply IH, Hr.
Qed.

Lemma lib_refs_resolve_events h p1 p2 p3 p4 p5 p6 :
  lib_refs (resolve_events h p1 p2 p3 p4 p5 p6) = 1.
Proof. reflexivity. Qed.

(** The three facts that hold together on every reachable machine. *)
Lemma reachable_invariant env s :
  reachable env s ->
  ctl_wf (ctl s) = true
  /\ is_null (hWinRing0Wrapper (ctl s)) = negb (winring_init_ok (ctl s))
  /\ lib_refs (trace s) = if winring_init_ok (ctl s) then 1 else 0.
Proof.
  induction 1 as [|s R IH|s R IH|st s R IH|cfg s R IH].
  - repeat split.
  - destruct (winring_init_ok (ctl s)) eqn:Hs.
    + rewrite (initialize_again env s Hs). cbn [snd]. rewrite Hs. exact IH.
    + destruct IH as (_ & _ & L).
      pose proof (initialize_cases env s Hs) as C.
      inversion C; cbn [ctl trace winring_init_ok hWinRing0Wrapper is_null negb];
        (split; [reflexivity|]); (split; [reflexivity|]);
        rewrite ?lib_refs_app, ?lib_refs_resolve_events, L; reflexivity.
  - destruct IH as (W & N & L).
    rewrite deinitialize_run. cbn [snd ctl trace]. repeat split.
    rewrite lib_refs_app, L. unfold release_events.
    destruct (ctl s) as [[h|] q1 q2 q3 q4 q5 q6 [|] err];
      cbn in N |- *; try discriminate N; destruct q6; reflexivity.
  - destruct IH as (W & N & L).
    destruct (readStatus_keeps env st s) as [e E].
    destruct (emits_readStatus env st s) as (evs & T & P).
    rewrite E, T, lib_refs_app, (lib_refs_port_events _ P), ctl_wf_set_lastError.
    cbn [set_lastError hWinRing0Wrapper winring_init_ok].
    repeat split; [exact W|exact N|lia].
  - destruct IH as (W & N & L).
    destruct (writeConfig_keeps env cfg s) as [e E].
    destruct (emits_writeConfig env cfg s) as (evs & T & P).
    rewrite E, T, lib_refs_app, (lib_refs_port_events _ P), ctl_wf_set_lastError.
    cbn [set_lastError hWinRing0Wrapper winring_init_ok].
    repeat split; [exact W|exact N|lia].
Qed.

(** X8. On every controller reached from a new one by the public
    operations, in any order and whatever the outside world answers:
    initialised and ready are the same, the library handle is held
    exactly when the controller is initialised, the library has been
    loaded once more than it has been freed exactly when the controller
    is initialised, and after [deinitialize] (the destructor) every
    load has been matched by a [FreeLibrary]. *)
Theorem reachable_library_balance env s :
  reachable env s ->
  is_ready (ctl s) = winring_init_ok (ctl s)
  /\ is_null (hWinRing0Wrapper (ctl s)) = negb (winring_init_ok (ctl s))
  /\ lib_refs (trace s) = (if winring_init_ok (ctl s) then 1 else 0)
  /\ lib_refs (trace (snd (deinitialize s))) = 0.
Proof.
  intros R.
  destruct (reachable_invariant env _ (reach_deinitialize env s R)) as (_ & _ & L').
  destruct (reachable_invariant env s R) as (W & N & L).
  split.
  - unfold ctl_wf in W. destruct (winring_init_ok (ctl s)) eqn:E.
    + exact W.
    + unfold is_ready. rewrite E. reflexivity.
  - split; [exact N|]. split; [exact L|].
    rewrite L'. rewrite deinitialize_run. reflexivity.
Qed.

Lemma reachable_library_balance_witness :
  is_ready (ctl ready_machine) = winring_init_ok (ctl ready_machine)
  /\ is_null (hWinRing0Wrapper (ctl ready_machine)) = negb (winring_init_ok (ctl ready_machine))
  /\ lib_refs (trace ready_machine) = (if winring_init_ok (ctl ready_machine) then 1 else 0)
  /\ lib_refs (trace (snd (deinitialize ready_machine))) = 0.
Proof.
  exact (reachable_library_balance (ready_env []) ready_machine
           (reach_initialize (ready_env []) Machine_new (reach_new (ready_env [])))).
Defined.

(** ** The percent derivation over all readings *)

Lemma percent_steps_checked : all_from (Z.to_nat 65535) 0 percent_step_ok = true.
Proof. vm_compute. reflexivity. Qed.

Lemma percent_step rpm :
  0 <= rpm < 65535 ->
  fan_percent rpm MAX_FAN1_RPM <= fan_percent (rpm + 1) MAX_FAN1_RPM
  /\ fan_percent rpm MAX_FAN2_RPM <= fan_percent (rpm + 1) MAX_FAN2_RPM.
Proof.
  intros H.
  pose proof (all_from_spec _ _ _ percent_steps_checked rpm) as C.
  rewrite Z2Nat.id in C by lia. specialize (C ltac:(lia)).
  unfold percent_step_ok in C. rewrite !andb_true_iff, !Z.leb_le in C. exact C.
Qed.

Lemma percent_steps a n :
  0 <= a -> a + Z.of_nat n < 65536 ->
  fan_percent a MAX_FAN1_RPM <= fan_percent (a + Z.of_nat n) MAX_FAN1_RPM
  /\ fan_percent a MAX_FAN2_RPM <= fan_percent (a + Z.of_nat n) MAX_FAN2_RPM.
Proof.
  intros Ha. induction n as [|n IH]; intros Hn.
  - replace (a + Z.of_nat 0) with a by lia. lia.
  - specialize (IH ltac:(lia)).
    pose proof (percent_step (a + Z.of_nat n) ltac:(lia)) as Hstep.
    replace (a + Z.of_nat (S n)) with (a + Z.of_nat n + 1) by lia. lia.
Qed.

(** X9. Over the 16-bit speeds [readStatus] can produce, the percent
    derivation is monotone and never negative for either fan: a higher
    speed never gives a lower percent, and the percent of speed 0 is 0. *)
Theorem fan_percent_monotone a b :
  0 <= a <= b -> b < 65536 ->
  0 <= fan_percent a MAX_FAN1_RPM <= fan_percent b MAX_FAN1_RPM
  /\ 0 <= fan_percent a MAX_FAN2_RPM <= fan_percent b MAX_FAN2_RPM
  /\ fan_percent 0 MAX_FAN1_RPM = 0
  /\ fan_percent 0 MAX_FAN2_RPM = 0.
Proof.
  intros Hab Hb.
  assert (Z1 : fan_percent 0 MAX_FAN1_RPM = 0) by (vm_compute; reflexivity).
  assert (Z2 : fan_percent 0 MAX_FAN2_RPM = 0) by (vm_compute; reflexivity).
  pose proof (percent_steps 0 (Z.to_nat a) ltac:(lia)) as L.
  pose proof (percent_steps a (Z.to_nat (b - a)) ltac:(lia)) as U.
  rewrite Z2Nat.id in L, U by lia.
  replace (a + (b - a)) with b in U by lia. replace (0 + a) with a in L by lia.
  specialize (L ltac:(lia)). specialize (U ltac:(lia)). lia.
Qed.

Lemma fan_percent_monotone_witness :
  0 <= fan_percent 1508 MAX_FAN1_RPM <= fan_percent 5200 MAX_FAN1_RPM
  /\ 0 <= fan_percent 1508 MAX_FAN2_RPM <= fan_percent 5200 MAX_FAN2_RPM
  /\ fan_percent 0 MAX_FAN1_RPM = 0
  /\ fan_percent 0 MAX_FAN2_RPM = 0.
Proof. apply (fan_percent_monotone 1508 5200); lia. Defined.

(** ** The array read and the speed *)

(** X22. [direct_ec_read_array] returns as many bytes as were asked
    for and leaves the controller as it was, whatever the device
    answers; on a ready controller it makes one read transaction per
    element (one port read and eleven port writes each), and on a
    controller that is not initialised it returns zeros without any
    port access. *)
Theorem direct_ec_read_array_result env addr_base size s :
  List.length (fst (direct_ec_read_array env addr_base size s)) = size
  /\ Forall is_byte (fst (direct_ec_read_array env addr_base size s))
  /\ ctl (snd (direct_ec_read_array env addr_base size s)) = ctl s
  /\ (is_ready (ctl s) = true ->
      port_reads (snd (direct_ec_read_array env addr_base size s))
      = (port_reads s + size)%nat
      /\ port_writes (snd (direct_ec_read_array env addr_base size s))
         = (port_writes s + 11 * size)%nat)
  /\ (winring_init_ok (ctl s) = false ->
      direct_ec_read_array env addr_base size s = (repeat 0 size, s)).
Proof.
  destruct (returns_direct_ec_read_array env addr_base size s) as [Hl Hb].
  split; [exact Hl|]. split; [exact Hb|]. split.
  - unfold direct_ec_read_array. apply ec_read_loop_ctl.
  - split.
    + intros Hr. destruct (counts_direct_ec_read_array env addr_base size s Hr) as (_ & R & W).
      split; assumption.
    + intros Hn. unfold direct_ec_read_array. apply ec_read_loop_idle. exact Hn.
Qed.

Lemma speed_of_bytes_checked :
  all_from (Z.to_nat 65536) 0
    (fun x => speed_of_bytes (x / 256) (x mod 256) =? x) = true.
Proof. vm_compute. reflexivity. Qed.

Lemma speed_of_bytes_spec high low :
  is_byte high -> is_byte low -> speed_of_bytes high low = 256 * high + low.
Proof.
  unfold is_byte. intros Hh Hl.
  pose proof (all_from_spec _ _ _ speed_of_bytes_checked (256 * high + low)) as C.
  rewrite Z2Nat.id in C by lia. specialize (C ltac:(lia)).
  cbv beta in C. apply Z.eqb_eq in C.
  replace ((256 * high + low) / 256) with high in C
    by (apply (Z.div_unique _ 256 high low); lia).
  replace ((256 * high + low) mod 256) with low in C
    by (apply (Z.mod_unique _ 256 high low); lia).
  exact C.
Qed.

(** X23. Over a device that keeps what is written to it, the speed
    [readStatus] reports for a fan is 256 times the byte of the MSB
    register plus the byte of the LSB register, and the percent it
    reports is [fan_percent] of that value. *)
Theorem readStatus_speed_bytes mem0 env statusData s :
  memory_like mem0 env ->
  is_ready (ctl s) = true ->
  let f := mem_at mem0 s in
  let st := snd (fst (readStatus env statusData s)) in
  st_fan1_speed st
  = 256 * load f ITE_REGISTER_MAP.FAN1_RPM_MSB + load f ITE_REGISTER_MAP.FAN1_RPM_LSB
  /\ st_fan2_speed st
     = 256 * load f ITE_REGISTER_MAP.FAN2_RPM_MSB + load f ITE_REGISTER_MAP.FAN2_RPM_LSB
  /\ st_fan1_percent st = fan_percent (st_fan1_speed st) MAX_FAN1_RPM
  /\ st_fan2_percent st = fan_percent (st_fan2_speed st) MAX_FAN2_RPM.
Proof.
  intros Hmem Hs. cbv zeta.
  destruct (readStatus_memory mem0 env Hmem _ statusData s (Mem_here mem0 s Hs)) as [Hr _].
  rewrite Hr. cbn [fst snd]. unfold status_of_memory. cbv zeta.
  cbn [st_fan1_speed st_fan2_speed st_fan1_percent st_fan2_percent].
  fold (speed_of_bytes (load (mem_at mem0 s) ITE_REGISTER_MAP.FAN1_RPM_MSB)
                       (load (mem_at mem0 s) ITE_REGISTER_MAP.FAN1_RPM_LSB)).
  fold (speed_of_bytes (load (mem_at mem0 s) ITE_REGISTER_MAP.FAN2_RPM_MSB)
                       (load (mem_at mem0 s) ITE_REGISTER_MAP.FAN2_RPM_LSB)).
  rewrite !speed_of_bytes_spec by (unfold load; apply u8_range).
  repeat split.
Qed.

Lemma readStatus_speed_bytes_witness :
  let f := mem_at (fun x => x) ready_machine in
  let st := snd (fst (readStatus (ec_env (fun x => x)) FanStatusData_new ready_machine)) in
  st_fan1_speed st
  = 256 * load f ITE_REGISTER_MAP.FAN1_RPM_MSB + load f ITE_REGISTER_MAP.FAN1_RPM_LSB
  /\ st_fan2_speed st
     = 256 * load f ITE_REGISTER_MAP.FAN2_RPM_MSB + load f ITE_REGISTER_MAP.FAN2_RPM_LSB
  /\ st_fan1_percent st = fan_percent (st_fan1_speed st) MAX_FAN1_RPM
  /\ st_fan2_percent st = fan_percent (st_fan2_speed st) MAX_FAN2_RPM.
Proof.
  exact (readStatus_speed_bytes (fun x => x) (ec_env (fun x => x)) FanStatusData_new
           ready_machine (ec_env_memory_like (fun x => x)) eq_refl).
Defined.

(** ** The editor of [main.cpp] *)

Lemma length_assign {A} i (x : A) v :
  (i < List.length v)%nat -> List.length (Gui.assign i x v) = List.length v.
Proof.
  intros H. unfold Gui.assign.
  rewrite length_app, length_firstn. cbn [List.length]. rewrite length_skipn. lia.
Qed.

Lemma nth_assign {A} i (x : A) v j d :
  (i < List.length v)%nat ->
  nth j (Gui.assign i x v) d = if (j =? i)%nat then x else nth j v d.
Proof.
  intros H. unfold Gui.assign.
  destruct (Nat.eqb_spec j i) as [->|Ne].
  - rewrite app_nth2 by (rewrite length_firstn; lia).
    rewrite length_firstn. replace (i - Nat.min i (List.length v))%nat with 0%nat by lia.
    reflexivity.
  - destruct (Nat.lt_ge_cases j i) as [Lt|Ge].
    + rewrite app_nth1 by (rewrite length_firstn; lia).
      rewrite <- (firstn_skipn i v) at 2.
      rewrite app_nth1 by (rewrite length_firstn; lia). reflexivity.
    + rewrite app_nth2 by (rewrite length_firstn; lia).
      rewrite length_firstn. replace (Nat.min i (List.length v)) with i by lia.
      destruct (j - i)%nat as [|k] eqn:E; [lia|]. cbn [nth].
      rewrite nth_skipn. f_equal. lia.
Qed.

Lemma clamp_to_u8_spec val : Gui.clamp_to_u8 val = Z.max 0 (Z.min 255 val).
Proof.
  unfold Gui.clamp_to_u8. cbv zeta.
  destruct (Z.ltb_spec val 0) as [H|H].
  - change (255 <? 0) with false. cbv iota. unfold u8. rewrite Z.mod_small; lia.
  - destruct (Z.ltb_spec 255 val) as [H'|H']; unfold u8; rewrite Z.mod_small; lia.
Qed.

(** X10. [convertVecIntToVecU8] saturates instead of wrapping: the
    result has the size of the argument, every entry is the argument's
    entry brought into 0..255 (0 for a negative value, 255 for a value
    above 255) and so is a byte; on the [int] copy
    [convertVecU8ToVecInt] makes of a byte vector it gives the byte
    vector back. *)
Theorem gui_conversions_saturate vec_int vec_u8 :
  Forall is_byte vec_u8 ->
  Gui.convertVecIntToVecU8 (Gui.convertVecU8ToVecInt vec_u8) = vec_u8
  /\ List.length (Gui.convertVecU8ToVecInt vec_u8) = List.length vec_u8
  /\ List.length (Gui.convertVecIntToVecU8 vec_int) = List.length vec_int
  /\ Forall is_byte (Gui.convertVecIntToVecU8 vec_int)
  /\ Gui.convertVecIntToVecU8 vec_int = map (fun val => Z.max 0 (Z.min 255 val)) vec_int.
Proof.
  intros Hb. unfold Gui.convertVecIntToVecU8, Gui.convertVecU8ToVecInt.
  split.
  - rewrite map_map. induction Hb as [|v l Hv _ IH]; [reflexivity|].
    cbn [map]. rewrite IH, clamp_to_u8_spec. unfold is_byte in Hv. f_equal. lia.
  - split; [apply length_map|]. split; [apply length_map|]. split.
    + apply Forall_forall. intros o Ho. apply in_map_iff in Ho.
      destruct Ho as (v & <- & _). rewrite clamp_to_u8_spec. unfold is_byte. lia.
    + apply map_ext. intros v. apply clamp_to_u8_spec.
Qed.

Lemma gui_conversions_saturate_witness :
  Gui.convertVecIntToVecU8 (Gui.convertVecU8ToVecInt [0; 40; 255]) = [0; 40; 255]
  /\ List.length (Gui.convertVecU8ToVecInt [0; 40; 255]) = List.length [0; 40; 255]
  /\ List.length (Gui.convertVecIntToVecU8 [-3; 40; 300]) = List.length [-3; 40; 300]
  /\ Forall is_byte (Gui.convertVecIntToVecU8 [-3; 40; 300])
  /\ Gui.convertVecIntToVecU8 [-3; 40; 300]
     = map (fun val => Z.max 0 (Z.min 255 val)) [-3; 40; 300].
Proof.
  apply (gui_conversions_saturate [-3; 40; 300] [0; 40; 255]).
  unfold is_byte. repeat constructor; lia.
Defined.

(** *** Sorting *)

Lemma insert_point_perm p points : Permutation (Gui.insert_point p points) (p :: points).
Proof.
  induction points as [|q rest IH]; cbn [Gui.insert_point]; [reflexivity|].
  destruct (Gui.PlotPoint_lt p q); [reflexivity|].
  rewrite IH. apply perm_swap.
Qed.

Lemma insert_point_ascending p points :
  Gui.ascending points -> Gui.ascending (Gui.insert_point p points).
Proof.
  unfold Gui.ascending. induction 1 as [|q rest Hs IH Hq]; cbn [Gui.insert_point].
  - repeat constructor.
  - destruct (Gui.PlotPoint_lt p q) eqn:E.
    + constructor; [constructor; assumption|].
      constructor.
      * unfold Gui.PlotPoint_lt in *. apply Z.ltb_lt in E. apply Z.ltb_ge. lia.
      * apply Forall_forall. intros r Hr. rewrite Forall_forall in Hq.
        specialize (Hq r Hr). unfold Gui.PlotPoint_lt in *.
        apply Z.ltb_lt in E. apply Z.ltb_ge in Hq. apply Z.ltb_ge. lia.
    + constructor; [exact IH|].
      apply Forall_forall. intros r Hr.
      apply (Permutation_in _ (insert_point_perm p rest)) in Hr.
      destruct Hr as [<-|Hr]; [exact E|].
      rewrite Forall_forall in Hq. apply Hq, Hr.
Qed.

Lemma insertion_sort_sorts : Gui.sorts Gui.insertion_sort.
Proof.
  intros points. unfold Gui.insertion_sort.
  induction points as [|p rest [IHp IHs]]; cbn [fold_right].
  - split; [reflexivity|constructor].
  - split.
    + rewrite insert_point_perm. constructor. exact IHp.
    + apply insert_point_ascending, IHs.
Qed.

(** *** Extraction *)

Lemma extract_none points : fold_left Gui.extract_point points None = None.
Proof. induction points; [reflexivity|assumption]. Qed.

(** The loop fails exactly when some point passes the test on the first
    vector with an index outside the second. *)
Lemma extract_fold_none points : forall t c,
  fold_left Gui.extract_point points (Some (t, c)) = None
  <-> exists p, In p points
        /\ (Gui.original_index p < List.length t)%nat
        /\ (List.length c <= Gui.original_index p)%nat.
Proof.
  induction points as [|p rest IH]; intros t c; cbn [fold_left].
  - split; [discriminate|intros (p & [] & _)].
  - unfold Gui.extract_point at 2.
    destruct (Nat.ltb_spec (Gui.original_index p) (List.length t)) as [Ht|Ht].
    + destruct (Nat.ltb_spec (Gui.original_index p) (List.length c)) as [Hc|Hc].
      * rewrite IH, !length_assign by assumption. split.
        -- intros (q & Hq & B). exists q. split; [right; exact Hq|exact B].
        -- intros (q & [<-|Hq] & B); [lia|]. exists q. split; [exact Hq|exact B].
      * rewrite extract_none. split; [intros _|reflexivity].
        exists p. split; [left; reflexivity|lia].
    + rewrite IH. split.
      * intros (q & Hq & B). exists q. split; [right; exact Hq|exact B].
      * intros (q & [<-|Hq] & B); [lia|]. exists q. split; [exact Hq|exact B].
Qed.

(** When every point carries the values [ft] and [fc] give its index,
    the loop leaves those values at the indices of the points and the
    old ones elsewhere. *)
Lemma extract_fold_values (ft fc : nat -> Z) n points : forall t c,
  List.length t = n -> List.length c = n ->
  (forall p, In p points -> (Gui.original_index p < n)%nat ->
     Gui.temp p = ft (Gui.original_index p)
     /\ Z.quot (Gui.rpm p) 100 = fc (Gui.original_index p)) ->
  exists t' c',
    fold_left Gui.extract_point points (Some (t, c)) = Some (t', c')
    /\ List.length t' = n /\ List.length c' = n
    /\ forall j, (j < n)%nat ->
         nth j t' 0 = (if existsb (fun p => (Gui.original_index p =? j)%nat) points
                       then ft j else nth j t 0)
         /\ nth j c' 0 = (if existsb (fun p => (Gui.original_index p =? j)%nat) points
                          then fc j else nth j c 0).
Proof.
  induction points as [|p rest IH]; intros t c Ht Hc Hp; cbn [fold_left].
  - exists t, c. repeat split; assumption.
  - unfold Gui.extract_point at 2. rewrite Ht, Hc.
    destruct (Nat.ltb_spec (Gui.original_index p) n) as [Hi|Hi].
    + destruct (Hp p (or_introl eq_refl) Hi) as [Et Ec].
      destruct (IH (Gui.assign (Gui.original_index p) (Gui.temp p) t)
                   (Gui.assign (Gui.original_index p) (Z.quot (Gui.rpm p) 100) c))
        as (t' & c' & E & Lt & Lc & V).
      * rewrite length_assign; lia.
      * rewrite length_assign; lia.
      * intros q Hq. apply Hp. right. exact Hq.
      * exists t', c'. split; [exact E|]. split; [exact Lt|]. split; [exact Lc|].
        intros j Hj. specialize (V j Hj). cbn [existsb].
        rewrite !nth_assign in V by lia.
        rewrite (Nat.eqb_sym (Gui.original_index p) j).
        destruct (existsb (fun q => (Gui.original_index q =? j)%nat) rest);
          [rewrite orb_true_r; exact V|].
        rewrite orb_false_r.
        destruct (Nat.eqb_spec j (Gui.original_index p)) as [Ej|Ne];
          [rewrite Et, Ec, <- Ej in V|]; exact V.
    + destruct (IH t c Ht Hc) as (t' & c' & E & Lt & Lc & V).
      * intros q Hq. apply Hp. right. exact Hq.
      * exists t', c'. split; [exact E|]. split; [exact Lt|]. split; [exact Lc|].
        intros j Hj. specialize (V j Hj). cbn [existsb].
        destruct (Nat.eqb_spec (Gui.original_index p) j) as [Ej|Ne]; [lia|].
        exact V.
Qed.

Lemma pushed_points_spec temps curve p :
  In p (Gui.pushed_points temps curve) ->
  (Gui.original_index p < Nat.min (List.length temps) (List.length curve))%nat
  /\ Gui.temp p = nth (Gui.original_index p) temps 0
  /\ Gui.rpm p = nth (Gui.original_index p) curve 0 * 100.
Proof.
  unfold Gui.pushed_points. cbv zeta. intros H. apply in_map_iff in H.
  destruct H as (i & <- & Hi). apply in_seq in Hi. cbn. repeat split. lia.
Qed.

Lemma pushed_points_indices temps curve :
  map Gui.original_index (Gui.pushed_points temps curve)
  = seq 0 (Nat.min (List.length temps) (List.length curve)).
Proof.
  unfold Gui.pushed_points. cbv zeta. rewrite map_map. cbn [Gui.original_index].
  apply map_id.
Qed.

Lemma existsb_index points j :
  existsb (fun p => (Gui.original_index p =? j)%nat) points = true
  <-> In j (map Gui.original_index points).
Proof.
  rewrite existsb_exists, in_map_iff. split.
  - intros (p & Hp & E). apply Nat.eqb_eq in E. exists p. split; assumption.
  - intros (p & E & Hp). exists p. split; [exact Hp|apply Nat.eqb_eq, E].
Qed.

(** Extraction from any arrangement of the points pushed for two
    vectors of one size gives the two vectors back. *)
Lemma extract_permuted_points points temps curve :
  List.length temps = List.length curve ->
  Permutation points (Gui.pushed_points temps curve) ->
  Gui.extractDataFromPlotPoints points temps curve = Some (temps, curve).
Proof.
  intros Hl Hperm. unfold Gui.extractDataFromPlotPoints.
  set (n := List.length temps).
  destruct (extract_fold_values (fun i => nth i temps 0) (fun i => nth i curve 0) n points
              (repeat 0 n) (repeat 0 (List.length curve)))
    as (t' & c' & E & Lt & Lc & V).
  - apply repeat_length.
  - rewrite repeat_length. symmetry. exact Hl.
  - intros p Hp _. apply (Permutation_in _ Hperm) in Hp.
    apply pushed_points_spec in Hp. destruct Hp as (_ & Et & Er).
    split; [exact Et|]. rewrite Er. apply Z.quot_mul. lia.
  - rewrite E. f_equal.
    assert (I : forall j, (j < n)%nat ->
                existsb (fun p => (Gui.original_index p =? j)%nat) points = true).
    { intros j Hj. apply existsb_index.
      apply (Permutation_in _ (Permutation_sym (Permutation_map Gui.original_index Hperm))).
      rewrite pushed_points_indices. apply in_seq. unfold n in Hj. lia. }
    f_equal.
    + apply (nth_ext _ _ 0 0); [exact Lt|].
      intros j Hj. rewrite Lt in Hj. destruct (V j Hj) as [Vt _].
      rewrite (I j Hj) in Vt. exact Vt.
    + apply (nth_ext _ _ 0 0); [rewrite Lc; exact Hl|].
      intros j Hj. rewrite Lc in Hj. destruct (V j Hj) as [_ Vc].
      rewrite (I j Hj) in Vc. exact Vc.
Qed.

(** X11. For two vectors of one size, whose curve values times 100
    are [int] values, and any sorting that meets the guarantee of
    [std::sort]: the points of [createPlotPoints] are in ascending
    order of temperature, their original indices are the indices of the
    vectors, each once, and [extractDataFromPlotPoints] on them gives
    the two vectors back. *)
Theorem gui_plot_points_round_trip sort temps curve_points_scaled :
  Gui.sorts sort ->
  List.length temps = List.length curve_points_scaled ->
  Forall (fun c => Gui.is_int (c * 100)) curve_points_scaled ->
  Gui.ascending (Gui.createPlotPoints sort temps curve_points_scaled)
  /\ Permutation (map Gui.original_index (Gui.createPlotPoints sort temps curve_points_scaled))
                 (seq 0 (List.length temps))
  /\ Gui.extractDataFromPlotPoints (Gui.createPlotPoints sort temps curve_points_scaled)
       temps curve_points_scaled
     = Some (temps, curve_points_scaled).
Proof.
  intros Hsort Hl _. unfold Gui.createPlotPoints.
  destruct (Hsort (Gui.pushed_points temps curve_points_scaled)) as [Hp Ha].
  split; [exact Ha|]. split.
  - rewrite (Permutation_map Gui.original_index Hp), pushed_points_indices.
    rewrite <- Hl, Nat.min_id. reflexivity.
  - apply extract_permuted_points; assumption.
Qed.

Lemma gui_plot_points_round_trip_witness :
  Gui.ascending (Gui.createPlotPoints Gui.insertion_sort [70; 40; 55] [30; 10; 20])
  /\ Permutation
       (map Gui.original_index
            (Gui.createPlotPoints Gui.insertion_sort [70; 40; 55] [30; 10; 20]))
       (seq 0 (List.length [70; 40; 55]))
  /\ Gui.extractDataFromPlotPoints
       (Gui.createPlotPoints Gui.insertion_sort [70; 40; 55] [30; 10; 20])
       [70; 40; 55] [30; 10; 20]
     = Some ([70; 40; 55], [30; 10; 20]).
Proof.
  apply (gui_plot_points_round_trip Gui.insertion_sort [70; 40; 55] [30; 10; 20]
           insertion_sort_sorts eq_refl).
  unfold Gui.is_int, Gui.INT_MIN, Gui.INT_MAX. repeat constructor; lia.
Defined.

Lemma extract_fold_lengths points : forall t c t' c',
  fold_left Gui.extract_point points (Some (t, c)) = Some (t', c') ->
  List.length t' = List.length t /\ List.length c' = List.length c.
Proof.
  induction points as [|p rest IH]; intros t c t' c'; cbn [fold_left].
  - intros E. injection E as <- <-. split; reflexivity.
  - unfold Gui.extract_point at 2.
    destruct (Nat.ltb_spec (Gui.original_index p) (List.length t)) as [Ht|Ht].
    + destruct (Nat.ltb_spec (Gui.original_index p) (List.length c)) as [Hc|Hc].
      * intros E. apply IH in E. rewrite !length_assign in E by assumption. exact E.
      * rewrite extract_none. discriminate.
    + apply IH.
Qed.

(** X12. [extractDataFromPlotPoints] keeps the sizes of the two
    vectors, whatever the points are, and writes outside the second
    temporary vector (undefined behaviour) exactly when some point has
    an original index below the size of [temps] and not below the size
    of [curve_points_scaled]: never when [temps] is not the longer of
    the two. *)
Theorem gui_extract_bounds points temps curve_points_scaled :
  (Gui.extractDataFromPlotPoints points temps curve_points_scaled = None
   <-> exists p, In p points
         /\ (List.length curve_points_scaled <= Gui.original_index p)%nat
         /\ (Gui.original_index p < List.length temps)%nat)
  /\ (forall temps' curve',
        Gui.extractDataFromPlotPoints points temps curve_points_scaled
        = Some (temps', curve') ->
        List.length temps' = List.length temps
        /\ List.length curve' = List.length curve_points_scaled)
  /\ ((List.length temps <= List.length curve_points_scaled)%nat ->
      Gui.extractDataFromPlotPoints points temps curve_points_scaled <> None).
Proof.
  unfold Gui.extractDataFromPlotPoints.
  assert (N : fold_left Gui.extract_point points
                (Some (repeat 0 (List.length temps),
                       repeat 0 (List.length curve_points_scaled))) = None
              <-> exists p, In p points
                    /\ (List.length curve_points_scaled <= Gui.original_index p)%nat
                    /\ (Gui.original_index p < List.length temps)%nat).
  { rewrite extract_fold_none, !repeat_length. split; intros (p & Hp & A & B);
      exists p; repeat split; assumption. }
  split; [exact N|]. split.
  - intros t' c' E. apply extract_fold_lengths in E. rewrite !repeat_length in E. exact E.
  - intros Hl E. apply N in E. destruct E as (p & _ & A & B). lia.
Qed.

Lemma Forall_assign (P : Z -> Prop) i x v :
  P x -> Forall P v -> Forall P (Gui.assign i x v).
Proof.
  intros Hx Hv. revert i. unfold Gui.assign.
  induction Hv as [|a l Ha Hl IH]; intros i.
  - rewrite firstn_nil, skipn_nil. repeat constructor. exact Hx.
  - destruct i as [|i]; cbn [firstn skipn app].
    + constructor; [exact Hx|]. destruct l; assumption.
    + constructor; [exact Ha|]. apply IH.
Qed.

Lemma convertVecIntToVecU8_bytes vec_int : Forall is_byte (Gui.convertVecIntToVecU8 vec_int).
Proof.
  apply Forall_forall. intros o Ho. apply in_map_iff in Ho.
  destruct Ho as (v & <- & _). rewrite clamp_to_u8_spec. unfold is_byte. lia.
Qed.

Lemma extract_same_size points temps curve :
  List.length temps = List.length curve ->
  exists temps' curve',
    Gui.extractDataFromPlotPoints points temps curve = Some (temps', curve')
    /\ List.length temps' = List.length temps
    /\ List.length curve' = List.length curve.
Proof.
  intros Hl.
  destruct (Gui.extractDataFromPlotPoints points temps curve) as [[t' c']|] eqn:E.
  - exists t', c'. split; [reflexivity|].
    unfold Gui.extractDataFromPlotPoints in E. apply extract_fold_lengths in E.
    rewrite !repeat_length in E. exact E.
  - unfold Gui.extractDataFromPlotPoints in E. apply extract_fold_none in E.
    destruct E as (p & _ & A & B). rewrite !repeat_length in A, B. lia.
Qed.

(** X13. When the editable configuration has ten tables of ten bytes
    and the six [int] vectors of the editor have size 10, the Apply
    button passes [writeConfig] a configuration of ten tables of ten
    bytes, whatever the plot points and the values of the [int]
    variables have become: [writeConfig] cannot answer with the
    invalid-configuration error and returns true on an initialised
    controller.  The two VRM tables are passed on unchanged. *)
Theorem gui_apply_config_valid e :
  all_sizes_10 (Gui.editableConfig e) ->
  all_bytes (Gui.editableConfig e) ->
  List.length (Gui.fan1_curve_int e) = 10%nat ->
  List.length (Gui.fan2_curve_int e) = 10%nat ->
  List.length (Gui.cpu_upper_temp_int e) = 10%nat ->
  List.length (Gui.gpu_upper_temp_int e) = 10%nat ->
  List.length (Gui.cpu_lower_temp_int e) = 10%nat ->
  List.length (Gui.gpu_lower_temp_int e) = 10%nat ->
  exists configData,
    Gui.apply_config e = Some configData
    /\ all_sizes_10 configData
    /\ all_bytes configData
    /\ vrm_lower_temp configData = vrm_lower_temp (Gui.editableConfig e)
    /\ vrm_upper_temp configData = vrm_upper_temp (Gui.editableConfig e)
    /\ (forall env s, winring_init_ok (ctl s) = true ->
          fst (writeConfig env configData s) = true).
Proof.
  intros (H1 & H2 & H3 & H4 & H5 & H6 & H7 & H8 & H9 & H10) Hb L1 L2 L3 L4 L5 L6.
  unfold Gui.apply_config.
  destruct (extract_same_size (Gui.fan1_plot_points e) (Gui.cpu_upper_temp_int e)
              (Gui.fan1_curve_int e) ltac:(congruence)) as (t1 & c1 & -> & Lt1 & Lc1).
  destruct (extract_same_size (Gui.fan2_plot_points e) (Gui.gpu_upper_temp_int e)
              (Gui.fan2_curve_int e) ltac:(congruence)) as (t2 & c2 & -> & Lt2 & Lc2).
  cbv zeta. rewrite H3, H4. cbn [Nat.ltb Nat.leb].
  eexists. split; [reflexivity|].
  assert (Hsz : all_sizes_10
    (mkFanConfigData (Gui.convertVecIntToVecU8 c1) (Gui.convertVecIntToVecU8 c2)
       (Gui.assign 0 (u8 (Gui.fan1_acc_time_int e)) (acc_time (Gui.editableConfig e)))
       (Gui.assign 0 (u8 (Gui.fan1_dec_time_int e)) (dec_time (Gui.editableConfig e)))
       (Gui.convertVecIntToVecU8 (Gui.cpu_lower_temp_int e)) (Gui.convertVecIntToVecU8 t1)
       (Gui.convertVecIntToVecU8 (Gui.gpu_lower_temp_int e)) (Gui.convertVecIntToVecU8 t2)
       (vrm_lower_temp (Gui.editableConfig e)) (vrm_upper_temp (Gui.editableConfig e)))).
  { unfold all_sizes_10, Gui.convertVecIntToVecU8.
    cbn [fan1_curve fan2_curve acc_time dec_time cpu_lower_temp cpu_upper_temp
         gpu_lower_temp gpu_upper_temp vrm_lower_temp vrm_upper_temp].
    rewrite !length_map, !length_assign by lia.
    repeat split; lia. }
  split; [exact Hsz|]. split.
  - unfold all_bytes, tables in *.
    cbn [fan1_curve fan2_curve acc_time dec_time cpu_lower_temp cpu_upper_temp
         gpu_lower_temp gpu_upper_temp vrm_lower_temp vrm_upper_temp].
    repeat match goal with
           | H : Forall _ (_ :: _) |- _ => apply Forall_cons_iff in H; destruct H
           end.
    repeat (apply Forall_cons;
            [ first [ apply convertVecIntToVecU8_bytes
                    | assumption
                    | apply Forall_assign; [apply u8_range|assumption] ] | ]).
    apply Forall_nil.
  - split; [reflexivity|]. split; [reflexivity|].
    intros env s Hok. apply writeConfig_accepts; [exact Hok|].
    apply bad_sizes_false. exact Hsz.
Qed.

Lemma assign_same {A} i (v : list A) d :
  (i < List.length v)%nat -> Gui.assign i (nth i v d) v = v.
Proof.
  intros H. apply (nth_ext _ _ d d).
  - apply length_assign, H.
  - intros j _. rewrite nth_assign by exact H.
    destruct (Nat.eqb_spec j i) as [->|_]; reflexivity.
Qed.

Lemma convert_bytes_id v : Forall is_byte v ->
  Gui.convertVecIntToVecU8 (Gui.convertVecU8ToVecInt v) = v.
Proof.
  intros Hb. unfold Gui.convertVecIntToVecU8, Gui.convertVecU8ToVecInt.
  rewrite map_map. induction Hb as [|x l Hx _ IH]; [reflexivity|].
  cbn [map]. rewrite IH, clamp_to_u8_spec. unfold is_byte in Hx. f_equal. lia.
Qed.

Lemma write_back_first v :
  Forall is_byte v ->
  (if (0 <? List.length v)%nat
   then Gui.assign 0 (u8 (if (0 <? List.length v)%nat then nth 0 v 0 else 0)) v
   else v) = v.
Proof.
  intros Hb. destruct v as [|x l]; [reflexivity|].
  cbn [List.length Nat.ltb Nat.leb nth]. apply Forall_cons_iff in Hb.
  unfold Gui.assign. cbn [firstn skipn app]. f_equal.
  unfold u8. apply Z.mod_small. apply Hb.
Qed.

(** X14. Apply without editing writes back what was loaded: for a
    configuration of byte tables in which each curve has the size of
    its temperature table, and any sorting that meets the guarantee of
    [std::sort], the configuration the Apply button builds from the
    editor set up for that configuration is that configuration. *)
Theorem gui_load_then_apply sort configData :
  Gui.sorts sort ->
  all_bytes configData ->
  List.length (cpu_upper_temp configData) = List.length (fan1_curve configData) ->
  List.length (gpu_upper_temp configData) = List.length (fan2_curve configData) ->
  Gui.apply_config (Gui.load_editor sort configData) = Some configData.
Proof.
  intros Hsort Hb L1 L2.
  unfold Gui.apply_config, Gui.load_editor. cbv zeta.
  cbn [Gui.editableConfig Gui.fan1_plot_points Gui.fan2_plot_points Gui.fan1_curve_int
       Gui.fan2_curve_int Gui.cpu_upper_temp_int Gui.gpu_upper_temp_int
       Gui.cpu_lower_temp_int Gui.gpu_lower_temp_int Gui.fan1_acc_time_int
       Gui.fan1_dec_time_int].
  unfold Gui.createPlotPoints.
  assert (E1 : List.length (Gui.convertVecU8ToVecInt (cpu_upper_temp configData))
               = List.length (Gui.convertVecU8ToVecInt (fan1_curve configData)))
    by (unfold Gui.convertVecU8ToVecInt; rewrite !length_map; exact L1).
  assert (E2 : List.length (Gui.convertVecU8ToVecInt (gpu_upper_temp configData))
               = List.length (Gui.convertVecU8ToVecInt (fan2_curve configData)))
    by (unfold Gui.convertVecU8ToVecInt; rewrite !length_map; exact L2).
  rewrite (extract_permuted_points _ _ _ E1 (proj1 (Hsort _))).
  rewrite (extract_permuted_points _ _ _ E2 (proj1 (Hsort _))).
  unfold all_bytes, tables in Hb.
  repeat match goal with
         | H : Forall _ (_ :: _) |- _ => apply Forall_cons_iff in H; destruct H
         end.
  rewrite !convert_bytes_id, !write_back_first by assumption.
  destruct configData; reflexivity.
Qed.

Lemma gui_load_then_apply_witness :
  Gui.apply_config (Gui.load_editor Gui.insertion_sort sample_config) = Some sample_config.
Proof.
  exact (gui_load_then_apply Gui.insertion_sort sample_config
           insertion_sort_sorts all_bytes_sample eq_refl eq_refl).
Defined.

(** There the plot points matter: they are out of the order of the
    tables, and Apply on the same editor without them writes zeros. *)
Example sample_plot_points_matter :
  map Gui.original_index
      (Gui.fan1_plot_points (Gui.load_editor Gui.insertion_sort sample_config))
  = [4; 1; 6; 8; 2; 5; 9; 0; 7; 3]%nat
  /\ option_map fan1_curve
       (Gui.apply_config
          (Gui.mkEditor sample_config [] []
             (fan1_curve sample_config) (fan2_curve sample_config)
             (cpu_upper_temp sample_config) (gpu_upper_temp sample_config)
             (cpu_lower_temp sample_config) (gpu_lower_temp sample_config) 30 40))
     = Some [0; 0; 0; 0; 0; 0; 0; 0; 0; 0].
Proof. vm_compute. split; reflexivity. Qed.

Lemma gui_apply_config_valid_witness :
  exists configData,
    Gui.apply_config (Gui.load_editor Gui.insertion_sort FanConfigData_new) = Some configData
    /\ all_sizes_10 configData
    /\ all_bytes configData
    /\ vrm_lower_temp configData
       = vrm_lower_temp (Gui.editableConfig (Gui.load_editor Gui.insertion_sort FanConfigData_new))
    /\ vrm_upper_temp configData
       = vrm_upper_temp (Gui.editableConfig (Gui.load_editor Gui.insertion_sort FanConfigData_new))
    /\ (forall env s, winring_init_ok (ctl s) = true ->
          fst (writeConfig env configData s) = true).
Proof.
  exact (gui_apply_config_valid (Gui.load_editor Gui.insertion_sort FanConfigData_new)
           all_sizes_10_new all_bytes_new eq_refl eq_refl eq_refl eq_refl eq_refl eq_refl).
Defined.

(** The point of a list that carries a given original index. *)
Lemma find_index_point points p :
  NoDup (map Gui.original_index points) -> In p points ->
  find (fun q => (Gui.original_index q =? Gui.original_index p)%nat) points = Some p.
Proof.
  induction points as [|q rest IH]; intros Hn Hp; [destruct Hp|].
  cbn [map] in Hn. inversion Hn as [|x l Hq Hr]; subst. cbn [find].
  destruct Hp as [->|Hp].
  - rewrite Nat.eqb_refl. reflexivity.
  - destruct (Nat.eqb_spec (Gui.original_index q) (Gui.original_index p)) as [E|_].
    + exfalso. apply Hq. rewrite E. apply in_map, Hp.
    + apply IH; assumption.
Qed.

(** X15. When no two points share an original index and the two
    vectors have one size, [extractDataFromPlotPoints] stores each
    point at its original index, the temperature as it is and the RPM
    divided by 100 towards zero, whatever the order of the points; an
    index below the size that no point carries is left with 0 in both
    vectors, not with its old value. *)
Theorem gui_extract_places_points points temps curve_points_scaled :
  NoDup (map Gui.original_index points) ->
  List.length temps = List.length curve_points_scaled ->
  exists temps' curve',
    Gui.extractDataFromPlotPoints points temps curve_points_scaled = Some (temps', curve')
    /\ List.length temps' = List.length temps
    /\ List.length curve' = List.length curve_points_scaled
    /\ (forall p, In p points -> (Gui.original_index p < List.length temps)%nat ->
          nth (Gui.original_index p) temps' 0 = Gui.temp p
          /\ nth (Gui.original_index p) curve' 0 = Z.quot (Gui.rpm p) 100)
    /\ (forall j, (j < List.length temps)%nat -> ~ In j (map Gui.original_index points) ->
          nth j temps' 0 = 0 /\ nth j curve' 0 = 0).
Proof.
  intros Hn Hl. unfold Gui.extractDataFromPlotPoints.
  set (n := List.length temps).
  set (pt := fun j => find (fun q => (Gui.original_index q =? j)%nat) points).
  destruct (extract_fold_values
              (fun j => match pt j with Some q => Gui.temp q | None => 0 end)
              (fun j => match pt j with Some q => Z.quot (Gui.rpm q) 100 | None => 0 end)
              n points (repeat 0 n) (repeat 0 (List.length curve_points_scaled)))
    as (t' & c' & E & Lt & Lc & V).
  - apply repeat_length.
  - rewrite repeat_length. symmetry. exact Hl.
  - intros p Hp _. unfold pt. rewrite (find_index_point points p Hn Hp). split; reflexivity.
  - exists t', c'. split; [exact E|]. split; [exact Lt|]. split; [rewrite Lc; exact Hl|].
    split.
    + intros p Hp Hi. destruct (V _ Hi) as [Vt Vc].
      assert (X : existsb (fun q => (Gui.original_index q =? Gui.original_index p)%nat) points
                  = true) by (apply existsb_index, in_map, Hp).
      rewrite X in Vt, Vc. unfold pt in Vt, Vc.
      rewrite (find_index_point points p Hn Hp) in Vt, Vc. split; assumption.
    + intros j Hj Hnot. destruct (V _ Hj) as [Vt Vc].
      destruct (existsb (fun q => (Gui.original_index q =? j)%nat) points) eqn:X.
      * exfalso. apply Hnot, existsb_index, X.
      * rewrite Vt, Vc. rewrite <- Hl. fold n.
        split; apply nth_repeat.
Qed.

Lemma gui_extract_places_points_witness :
  exists temps' curve',
    Gui.extractDataFromPlotPoints
      [Gui.mkPlotPoint 60 4550 2; Gui.mkPlotPoint 45 1000 0] [40; 50; 55] [10; 20; 30]
    = Some (temps', curve')
    /\ List.length temps' = List.length [40; 50; 55]
    /\ List.length curve' = List.length [10; 20; 30]
    /\ (forall p, In p [Gui.mkPlotPoint 60 4550 2; Gui.mkPlotPoint 45 1000 0] ->
          (Gui.original_index p < List.length [40; 50; 55])%nat ->
          nth (Gui.original_index p) temps' 0 = Gui.temp p
          /\ nth (Gui.original_index p) curve' 0 = Z.quot (Gui.rpm p) 100)
    /\ (forall j, (j < List.length [40; 50; 55])%nat ->
          ~ In j (map Gui.original_index
                    [Gui.mkPlotPoint 60 4550 2; Gui.mkPlotPoint 45 1000 0]) ->
          nth j temps' 0 = 0 /\ nth j curve' 0 = 0).
Proof.
  apply (gui_extract_places_points
           [Gui.mkPlotPoint 60 4550 2; Gui.mkPlotPoint 45 1000 0] [40; 50; 55] [10; 20; 30]);
    [|reflexivity].
  cbn. repeat constructor; cbn; intuition lia.
Defined.

(** *** One drag, then Apply *)

Lemma map_assign {A B} (f : A -> B) i x (v : list A) :
  map f (Gui.assign i x v) = Gui.assign i (f x) (map f v).
Proof.
  unfold Gui.assign. rewrite map_app. cbn [map]. rewrite firstn_map, skipn_map. reflexivity.
Qed.

Lemma In_assign {A} i (x : A) v d p :
  (i < List.length v)%nat -> In p (Gui.assign i x v) ->
  p = x \/ exists j, j <> i /\ (j < List.length v)%nat /\ nth j v d = p.
Proof.
  intros Hi Hp. apply (In_nth _ _ d) in Hp. destruct Hp as (j & Hj & E).
  rewrite length_assign in Hj by exact Hi. rewrite nth_assign in E by exact Hi.
  destruct (Nat.eqb_spec j i) as [_|Ne]; [left; symmetry; exact E|].
  right. exists j. repeat split; assumption.
Qed.

Lemma convert_bytes vec : Forall is_byte vec -> Gui.convertVecIntToVecU8 vec = vec.
Proof.
  intros Hb. unfold Gui.convertVecIntToVecU8.
  induction Hb as [|x l Hx _ IH]; [reflexivity|].
  cbn [map]. rewrite IH, clamp_to_u8_spec. unfold is_byte in Hx. f_equal. lia.
Qed.

(** Extraction after one point of the pushed points was replaced by a
    point of the same original index. *)
Lemma extract_after_replace points0 points i temp' rpm' temps curve :
  List.length temps = List.length curve ->
  Permutation points0 (Gui.pushed_points temps curve) ->
  (i < List.length points0)%nat ->
  Permutation points
    (Gui.assign i
       (Gui.mkPlotPoint temp' rpm'
          (Gui.original_index (nth i points0 (Gui.mkPlotPoint 0 0 0))))
       points0) ->
  let k := Gui.original_index (nth i points0 (Gui.mkPlotPoint 0 0 0)) in
  Gui.extractDataFromPlotPoints points temps curve
  = Some (Gui.assign k temp' temps, Gui.assign k (Z.quot rpm' 100) curve)
  /\ (k < List.length temps)%nat.
Proof.
  intros Hl Hp0 Hi Hp. cbv zeta.
  set (d := Gui.mkPlotPoint 0 0 0) in *.
  set (k := Gui.original_index (nth i points0 d)) in *.
  set (n := List.length temps).
  assert (Hidx0 : map Gui.original_index points0 = map Gui.original_index points0)
    by reflexivity.
  assert (Pidx : Permutation (map Gui.original_index points0) (seq 0 n)).
  { rewrite (Permutation_map Gui.original_index Hp0), pushed_points_indices.
    rewrite <- Hl, Nat.min_id. reflexivity. }
  assert (ND : NoDup (map Gui.original_index points0)).
  { apply (Permutation_NoDup (Permutation_sym Pidx)), seq_NoDup. }
  assert (Hk : (k < n)%nat).
  { assert (In k (seq 0 n)) as Hin.
    { apply (Permutation_in _ Pidx). unfold k. apply in_map, nth_In, Hi. }
    apply in_seq in Hin. lia. }
  assert (Pidx' : Permutation (map Gui.original_index points) (seq 0 n)).
  { rewrite (Permutation_map Gui.original_index Hp), map_assign.
    cbn [Gui.original_index]. fold d. fold k.
    replace k with (nth i (map Gui.original_index points0) (Gui.original_index d))
      by (apply map_nth).
    rewrite assign_same by (rewrite length_map; exact Hi). exact Pidx. }
  unfold Gui.extractDataFromPlotPoints.
  destruct (extract_fold_values
              (fun j => if (j =? k)%nat then temp' else nth j temps 0)
              (fun j => if (j =? k)%nat then Z.quot rpm' 100 else nth j curve 0)
              n points (repeat 0 n) (repeat 0 (List.length curve)))
    as (t' & c' & E & Lt & Lc & V).
  - apply repeat_length.
  - rewrite repeat_length. symmetry. exact Hl.
  - intros p Hin _. apply (Permutation_in _ Hp) in Hin.
    apply (In_assign _ _ _ d) in Hin; [|exact Hi].
    destruct Hin as [->|(j & Ne & Hj & <-)].
    + cbn [Gui.original_index Gui.temp Gui.rpm]. fold d. fold k.
      rewrite Nat.eqb_refl. split; reflexivity.
    + assert (Hne : Gui.original_index (nth j points0 d) <> k).
      { intros Eq. apply Ne.
        apply (proj1 (NoDup_nth (map Gui.original_index points0) (Gui.original_index d)) ND);
          rewrite ?length_map; try assumption.
        rewrite !map_nth. exact Eq. }
      apply Nat.eqb_neq in Hne. rewrite Hne.
      assert (Hin : In (nth j points0 d) (Gui.pushed_points temps curve))
        by (apply (Permutation_in _ Hp0), nth_In, Hj).
      apply pushed_points_spec in Hin. destruct Hin as (_ & Et & Er).
      split; [exact Et|]. rewrite Er. apply Z.quot_mul. lia.
  - split; [|exact Hk]. fold n. rewrite E. f_equal.
    assert (I : forall j, (j < n)%nat ->
                existsb (fun p => (Gui.original_index p =? j)%nat) points = true).
    { intros j Hj. apply existsb_index.
      apply (Permutation_in _ (Permutation_sym Pidx')). apply in_seq. lia. }
    f_equal.
    + apply (nth_ext _ _ 0 0); [rewrite length_assign; [exact Lt|exact Hk]|].
      intros j Hj. rewrite Lt in Hj. destruct (V j Hj) as [Vt _].
      rewrite (I j Hj) in Vt. rewrite Vt, nth_assign by exact Hk. reflexivity.
    + apply (nth_ext _ _ 0 0); [rewrite length_assign; [rewrite Lc; exact Hl|rewrite <- Hl; exact Hk]|].
      intros j Hj. rewrite Lc in Hj. destruct (V j Hj) as [_ Vc].
      rewrite (I j Hj) in Vc. rewrite Vc, nth_assign by (rewrite <- Hl; exact Hk).
      reflexivity.
Qed.

(** X24. One drag, then Apply: for a configuration of byte tables in
    which each fan curve has the size of its upper-temperature table,
    and any sorting that meets the guarantee of [std::sort], dragging
    point [i] of the fan 1 plot of the editor set up for that
    configuration and pressing Apply passes [writeConfig] that
    configuration changed in three places only: at the original index
    of the point, the CPU upper temperature is the dragged temperature
    clamped to 0..127 and the fan 1 curve value is the dragged RPM
    clamped to 0..5200 and divided by 100; the CPU lower temperature of
    the next index, when there is one, is that temperature minus 3,
    not below 0. *)
Theorem gui_drag_then_apply sort configData i temp_in rpm_in :
  Gui.sorts sort ->
  all_bytes configData ->
  List.length (cpu_upper_temp configData) = List.length (fan1_curve configData) ->
  List.length (gpu_upper_temp configData) = List.length (fan2_curve configData) ->
  (i < List.length (fan1_curve configData))%nat ->
  let e := Gui.load_editor sort configData in
  let k := Gui.original_index (nth i (Gui.fan1_plot_points e) (Gui.mkPlotPoint 0 0 0)) in
  let temp' := Z.max 0 (Z.min 127 temp_in) in
  let rpm' := Z.max 0 (Z.min MAX_FAN1_RPM rpm_in) in
  Gui.apply_config (Gui.drag_fan1 sort i temp_in rpm_in e)
  = Some (mkFanConfigData
            (Gui.assign k (Z.quot rpm' 100) (fan1_curve configData))
            (fan2_curve configData) (acc_time configData) (dec_time configData)
            (if (S k <? List.length (cpu_lower_temp configData))%nat
             then Gui.assign (S k) (Z.max 0 (temp' - 3)) (cpu_lower_temp configData)
             else cpu_lower_temp configData)
            (Gui.assign k temp' (cpu_upper_temp configData))
            (gpu_lower_temp configData) (gpu_upper_temp configData)
            (vrm_lower_temp configData) (vrm_upper_temp configData))
  /\ (k < List.length (fan1_curve configData))%nat.
Proof.
  intros Hsort Hb L1 L2 Hi. cbv zeta.
  unfold Gui.apply_config, Gui.drag_fan1, Gui.load_editor. cbv zeta.
  cbn [Gui.editableConfig Gui.fan1_plot_points Gui.fan2_plot_points Gui.fan1_curve_int
       Gui.fan2_curve_int Gui.cpu_upper_temp_int Gui.gpu_upper_temp_int
       Gui.cpu_lower_temp_int Gui.gpu_lower_temp_int Gui.fan1_acc_time_int
       Gui.fan1_dec_time_int].
  unfold Gui.createPlotPoints.
  assert (Id : forall v, Gui.convertVecU8ToVecInt v = v)
    by (intros v; unfold Gui.convertVecU8ToVecInt; apply map_id).
  rewrite !Id.
  set (points0 := sort (Gui.pushed_points (cpu_upper_temp configData) (fan1_curve configData))).
  assert (Hp0 : Permutation points0
                  (Gui.pushed_points (cpu_upper_temp configData) (fan1_curve configData)))
    by (apply Hsort).
  assert (Hlen0 : List.length points0 = List.length (fan1_curve configData)).
  { rewrite (Permutation_length Hp0). unfold Gui.pushed_points. cbv zeta.
    rewrite length_map, length_seq, L1. apply Nat.min_id. }
  destruct (extract_after_replace points0
              (sort (Gui.assign i
                       (Gui.mkPlotPoint (Z.max 0 (Z.min 127 temp_in))
                          (Z.max 0 (Z.min MAX_FAN1_RPM rpm_in))
                          (Gui.original_index (nth i points0 (Gui.mkPlotPoint 0 0 0))))
                       points0))
              i (Z.max 0 (Z.min 127 temp_in)) (Z.max 0 (Z.min MAX_FAN1_RPM rpm_in))
              (cpu_upper_temp configData) (fan1_curve configData) L1 Hp0
              ltac:(rewrite Hlen0; exact Hi) (proj1 (Hsort _))) as [E Hk].
  rewrite E.
  rewrite (extract_permuted_points _ _ _ L2 (proj1 (Hsort _))).
  set (k := Gui.original_index (nth i points0 (Gui.mkPlotPoint 0 0 0))) in *.
  split; [|rewrite <- L1; exact Hk].
  unfold all_bytes, tables in Hb.
  repeat match goal with
         | H : Forall _ (_ :: _) |- _ => apply Forall_cons_iff in H; destruct H
         end.
  assert (B1 : is_byte (Z.max 0 (Z.min 127 temp_in))) by (unfold is_byte; lia).
  assert (B2 : is_byte (Z.quot (Z.max 0 (Z.min MAX_FAN1_RPM rpm_in)) 100)).
  { unfold is_byte, MAX_FAN1_RPM.
    assert (0 <= Z.max 0 (Z.min 5200 rpm_in) <= 5200) as R by lia.
    rewrite Z.quot_div_nonneg by lia.
    split; [apply Z.div_pos; lia|].
    apply Z.div_lt_upper_bound; lia. }
  assert (B3 : is_byte (Z.max 0 (Z.max 0 (Z.min 127 temp_in) - 3))) by (unfold is_byte; lia).
  rewrite !write_back_first by assumption.
  rewrite !convert_bytes; try assumption; try (apply Forall_assign; assumption).
  - reflexivity.
  - destruct (S k <? List.length (cpu_lower_temp configData))%nat;
      [apply Forall_assign|]; assumption.
Qed.

Lemma gui_drag_then_apply_witness :
  let e := Gui.load_editor Gui.insertion_sort FanConfigData_new in
  let k := Gui.original_index (nth 4 (Gui.fan1_plot_points e) (Gui.mkPlotPoint 0 0 0)) in
  let temp' := Z.max 0 (Z.min 127 200) in
  let rpm' := Z.max 0 (Z.min MAX_FAN1_RPM 4567) in
  Gui.apply_config (Gui.drag_fan1 Gui.insertion_sort 4 200 4567 e)
  = Some (mkFanConfigData
            (Gui.assign k (Z.quot rpm' 100) (fan1_curve FanConfigData_new))
            (fan2_curve FanConfigData_new) (acc_time FanConfigData_new)
            (dec_time FanConfigData_new)
            (if (S k <? List.length (cpu_lower_temp FanConfigData_new))%nat
             then Gui.assign (S k) (Z.max 0 (temp' - 3)) (cpu_lower_temp FanConfigData_new)
             else cpu_lower_temp FanConfigData_new)
            (Gui.assign k temp' (cpu_upper_temp FanConfigData_new))
            (gpu_lower_temp FanConfigData_new) (gpu_upper_temp FanConfigData_new)
            (vrm_lower_temp FanConfigData_new) (vrm_upper_temp FanConfigData_new))
  /\ (k < List.length (fan1_curve FanConfigData_new))%nat.
Proof.
  apply (gui_drag_then_apply Gui.insertion_sort FanConfigData_new 4 200 4567
           insertion_sort_sorts all_bytes_new eq_refl eq_refl).
  cbn. lia.
Defined.

(** ** The wrapper DLL *)

Ltac wrapper_run :=
  cbv beta iota zeta delta
    [Wrapper.bind Wrapper.ret Wrapper.get Wrapper.put Wrapper.history Wrapper.emit
     Wrapper.when Wrapper.GetModuleHandleExW
     Wrapper.LoadLibraryW Wrapper.GetLastError Wrapper.GetProcAddress
     Wrapper.FreeLibrary Wrapper.call_InitializeOls Wrapper.call_DeinitializeOls
     Wrapper.call_GetDllStatus Wrapper.call_ReadIoPortByte Wrapper.call_WriteIoPortByte
     Wrapper.set_hWinRing0 Wrapper.set_InitializeOlsFunc Wrapper.set_DeinitializeOlsFunc
     Wrapper.set_GetDllStatusFunc Wrapper.set_ReadIoPortByteFunc
     Wrapper.set_WriteIoPortByteFunc Wrapper.set_winRingLoaded
     Wrapper.set_winRingInitialized Wrapper.set_lastLoadError
     Wrapper.globals Wrapper.trace Wrapper.hWinRing0 Wrapper.InitializeOlsFunc
     Wrapper.DeinitializeOlsFunc Wrapper.GetDllStatusFunc Wrapper.ReadIoPortByteFunc
     Wrapper.WriteIoPortByteFunc Wrapper.winRingLoaded Wrapper.winRingInitialized
     Wrapper.lastLoadError fst snd negb andb orb is_null].

Lemma u32_range z : 0 <= u32 z < 4294967296.
Proof. unfold u32. apply Z.mod_pos_bound. lia. Qed.

Lemma LoadWinRing0_loaded env s :
  Wrapper.winRingLoaded (Wrapper.globals s) = true ->
  Wrapper.LoadWinRing0 env s = (true, s).
Proof.
  intros H. unfold Wrapper.LoadWinRing0, Wrapper.bind, Wrapper.get. rewrite H. reflexivity.
Qed.

Lemma wrapper_live_after_app evs1 : forall live evs2,
  Wrapper.live_after live (evs1 ++ evs2)
  = Wrapper.live_after (Wrapper.live_after live evs1) evs2.
Proof.
  induction evs1 as [|e evs1 IH]; intros live evs2; [reflexivity|].
  cbn [app Wrapper.live_after].
  destruct e as [hh|hm n c|p [h|]|c|h n a|h|f b|f|f st|f p v|f p v]; apply IH.
Qed.

Lemma wrapper_calls_safe_app evs1 : forall live evs2,
  Wrapper.calls_safe live (evs1 ++ evs2)
  = Wrapper.calls_safe live evs1
    && Wrapper.calls_safe (Wrapper.live_after live evs1) evs2.
Proof.
  induction evs1 as [|e evs1 IH]; intros live evs2; [reflexivity|].
  cbn [app Wrapper.calls_safe]. rewrite IH, <- andb_assoc.
  f_equal. f_equal.
  change (e :: evs1) with ([e] ++ evs1). rewrite wrapper_live_after_app. reflexivity.
Qed.

Lemma wrapper_lib_refs_app evs1 evs2 :
  Wrapper.lib_refs (evs1 ++ evs2) = Wrapper.lib_refs evs1 + Wrapper.lib_refs evs2.
Proof.
  induction evs1 as [|e evs1 IH]; [reflexivity|].
  cbn [app Wrapper.lib_refs].
  destruct e as [hh|hm n c|p [h|]|c|h n a|h|f b|f|f st|f p v|f p v]; lia.
Qed.

(** *** The directory of the wrapper *)

Lemma GetModuleFileNameW_run env hModule nSize s :
  Wrapper.GetModuleFileNameW env hModule nSize s
  = (Wrapper.file_name_into (Wrapper.module_path env hModule) nSize,
     Wrapper.mkState (Wrapper.globals s)
       (Wrapper.trace s
        ++ [Wrapper.EvGetModuleFileNameW hModule nSize
              (fst (Wrapper.file_name_into (Wrapper.module_path env hModule) nSize))])).
Proof. reflexivity. Qed.

Lemma fill_buffer_run env hModule : forall fuel size s,
  Z.of_nat (List.length (Wrapper.module_path env hModule))
  < size + Wrapper.MAX_PATH * (Z.of_nat fuel + 1) ->
  exists n,
    Wrapper.fill_buffer env fuel hModule size s
    = ((Z.of_nat (List.length (Wrapper.module_path env hModule)),
        Wrapper.module_path env hModule ++ repeat 0 n),
       Wrapper.mkState (Wrapper.globals s)
         (Wrapper.trace s
          ++ Wrapper.file_name_events fuel hModule (Wrapper.module_path env hModule) size)).
Proof.
  set (path := Wrapper.module_path env hModule).
  induction fuel as [|fuel IH]; intros size s Hlen;
    cbn [Wrapper.fill_buffer Wrapper.file_name_events];
    unfold Wrapper.bind at 1; rewrite GetModuleFileNameW_run; fold path;
    unfold Wrapper.file_name_into; cbv zeta;
    destruct (Z.ltb_spec (Z.of_nat (List.length path)) (size + Wrapper.MAX_PATH))
      as [Lt|Ge]; cbn [fst snd Wrapper.globals Wrapper.trace].
  - eexists. reflexivity.
  - unfold Wrapper.MAX_PATH in *. lia.
  - destruct (Z.leb_spec (size + Wrapper.MAX_PATH) (Z.of_nat (List.length path)));
      [lia|]. eexists. reflexivity.
  - rewrite Z.leb_refl.
    match goal with |- context [Wrapper.fill_buffer env fuel hModule _ ?st] =>
      destruct (IH (size + Wrapper.MAX_PATH) st) as (n & E) end.
    + unfold Wrapper.MAX_PATH in *. lia.
    + exists n. rewrite E. cbn [Wrapper.globals Wrapper.trace].
      rewrite <- app_assoc. reflexivity.
Qed.

Lemma GetModuleDirectory_run env hModule s :
  Wrapper.GetModuleDirectory env hModule s
  = (Wrapper.directory_of (Wrapper.module_path env hModule),
     Wrapper.mkState (Wrapper.globals s)
       (Wrapper.trace s
        ++ Wrapper.file_name_events (List.length (Wrapper.module_path env hModule))
             hModule (Wrapper.module_path env hModule) 0)).
Proof.
  unfold Wrapper.GetModuleDirectory, Wrapper.bind.
  destruct (fill_buffer_run env hModule (List.length (Wrapper.module_path env hModule)) 0 s)
    as (n & E); [unfold Wrapper.MAX_PATH; lia|].
  rewrite E. cbn [fst snd]. rewrite Nat2Z.id.
  rewrite firstn_app, firstn_all, Nat.sub_diag. cbn [firstn]. rewrite app_nil_r.
  unfold Wrapper.directory_of, Wrapper.ret.
  destruct (Wrapper.find_last_of (Wrapper.module_path env hModule) (Wrapper.L "\/"));
    reflexivity.
Qed.

(** The loop asks again while the buffer comes back full, and its last
    call copies the whole name. *)
Lemma file_name_events_last hModule path : forall fuel size,
  Z.of_nat (List.length path) < size + Wrapper.MAX_PATH * (Z.of_nat fuel + 1) ->
  exists retries n,
    Wrapper.file_name_events fuel hModule path size
    = retries ++ [Wrapper.EvGetModuleFileNameW hModule n (Z.of_nat (List.length path))]
    /\ Forall (fun e => exists m, e = Wrapper.EvGetModuleFileNameW hModule m m) retries
    /\ Z.of_nat (List.length path) < n.
Proof.
  induction fuel as [|fuel IH]; intros size Hlen;
    cbn [Wrapper.file_name_events]; unfold Wrapper.file_name_into; cbv zeta;
    destruct (Z.ltb_spec (Z.of_nat (List.length path)) (size + Wrapper.MAX_PATH))
      as [Lt|Ge]; cbn [fst].
  - exists [], (size + Wrapper.MAX_PATH). repeat split; [constructor|exact Lt].
  - unfold Wrapper.MAX_PATH in *. lia.
  - destruct (Z.leb_spec (size + Wrapper.MAX_PATH) (Z.of_nat (List.length path)));
      [lia|]. exists [], (size + Wrapper.MAX_PATH). repeat split; [constructor|exact Lt].
  - rewrite Z.leb_refl.
    destruct (IH (size + Wrapper.MAX_PATH)) as (retries & n & E & F & Hn).
    + unfold Wrapper.MAX_PATH in *. lia.
    + exists (Wrapper.EvGetModuleFileNameW hModule (size + Wrapper.MAX_PATH)
                (size + Wrapper.MAX_PATH) :: retries), n.
      rewrite E. repeat split; [|exact Hn].
      constructor; [eexists; reflexivity|exact F].
Qed.

(** The queries change nothing that is counted. *)
Lemma file_name_events_queries fuel hModule path : forall size,
  Forall (fun e => exists n c, e = Wrapper.EvGetModuleFileNameW hModule n c)
         (Wrapper.file_name_events fuel hModule path size).
Proof.
  induction fuel as [|fuel IH]; intros size; cbn [Wrapper.file_name_events];
    constructor; try (eexists; eexists; reflexivity); try constructor.
  destruct (_ <=? _); [apply IH|constructor].
Qed.

Lemma query_events_neutral env hSelf live :
  Wrapper.live_after live (Wrapper.query_events env hSelf) = live
  /\ Wrapper.calls_safe live (Wrapper.query_events env hSelf) = true
  /\ Wrapper.lib_refs (Wrapper.query_events env hSelf) = 0.
Proof.
  unfold Wrapper.query_events.
  cbn [Wrapper.live_after Wrapper.calls_safe Wrapper.lib_refs Wrapper.is_driver_call andb].
  pose proof (file_name_events_queries (List.length (Wrapper.module_path env hSelf)) hSelf
                (Wrapper.module_path env hSelf) 0) as F.
  induction F as [|e evs (n & c & ->) _ (IH1 & IH2 & IH3)]; [repeat split|].
  cbn [Wrapper.live_after Wrapper.calls_safe Wrapper.lib_refs Wrapper.is_driver_call andb].
  repeat split; assumption.
Qed.

Lemma live_after_query_events env hSelf live :
  Wrapper.live_after live (Wrapper.query_events env hSelf) = live.
Proof. apply query_events_neutral. Qed.

Lemma calls_safe_query_events env hSelf live :
  Wrapper.calls_safe live (Wrapper.query_events env hSelf) = true.
Proof. apply query_events_neutral. Qed.

Lemma lib_refs_query_events env hSelf :
  Wrapper.lib_refs (Wrapper.query_events env hSelf) = 0.
Proof. apply (query_events_neutral env hSelf false). Qed.

(** *** The runs of the exported functions *)

Lemma LoadWinRing0_cases env s :
  Wrapper.winRingLoaded (Wrapper.globals s) = false ->
  Wrapper.load_outcome env s (fst (Wrapper.LoadWinRing0 env s))
    (snd (Wrapper.LoadWinRing0 env s)).
Proof.
  destruct s as [[h0 q1 q2 q3 q4 q5 ld ini err] tr]. cbn [Wrapper.globals Wrapper.winRingLoaded].
  intros ->. unfold Wrapper.LoadWinRing0. wrapper_run.
  rewrite GetModuleDirectory_run. wrapper_run.
  match goal with |- context [Wrapper.os_LoadLibraryW env ?t ?p] =>
    destruct (Wrapper.os_LoadLibraryW env t p) as [h|] eqn:Eh end.
  - wrapper_run. rewrite <- !app_assoc. cbn [app].
    match goal with |- context [Wrapper.EvGetProcAddress h "InitializeOls" ?p] =>
      destruct p as [a1|] eqn:E1 end;
    match goal with |- context [Wrapper.EvGetProcAddress h "DeinitializeOls" ?p] =>
      destruct p as [a2|] eqn:E2 end;
    match goal with |- context [Wrapper.EvGetProcAddress h "GetDllStatus" ?p] =>
      destruct p as [a3|] eqn:E3 end;
    match goal with |- context [Wrapper.EvGetProcAddress h "ReadIoPortByte" ?p] =>
      destruct p as [a4|] eqn:E4 end;
    match goal with |- context [Wrapper.EvGetProcAddress h "WriteIoPortByte" ?p] =>
      destruct p as [a5|] eqn:E5 end;
    wrapper_run; repeat (progress (rewrite <- ?app_assoc; cbn [app]));
    match goal with
    | |- Wrapper.load_outcome _ ?s0 true _ =>
        apply (Wrapper.load_success env s0 h a1 a2 a3 a4 a5)
    | |- Wrapper.load_outcome _ ?s0 false
           (Wrapper.mkState (Wrapper.mkGlobals None ?p1 ?p2 ?p3 ?p4 ?p5 _ _ ?c) _) =>
        apply (Wrapper.load_missing_export env s0 h p1 p2 p3 p4 p5 c);
        [reflexivity|eexists; reflexivity]
    end.
  - wrapper_run. repeat (progress (rewrite <- ?app_assoc; cbn [app])).
    match goal with |- Wrapper.load_outcome _ ?s0 _ _ =>
      apply (Wrapper.load_no_library env s0) end.
    eexists. reflexivity.
Qed.

Lemma InitWinRing0_run env s :
  Wrapper.InitWinRing0 env s
  = let g := Wrapper.globals s in
    if negb (Wrapper.winRingLoaded g) then (false, s)
    else if Wrapper.winRingInitialized g then (true, s)
    else let ok := Wrapper.ols_InitializeOls env (Wrapper.trace s) in
         (ok, Wrapper.mkState
                (if ok then Wrapper.set_winRingInitialized true g else g)
                (Wrapper.trace s ++ [Wrapper.EvInitializeOls (Wrapper.InitializeOlsFunc g) ok])).
Proof.
  destruct s as [[h0 q1 q2 q3 q4 q5 ld ini err] tr].
  unfold Wrapper.InitWinRing0. wrapper_run.
  destruct ld, ini; try reflexivity.
  destruct (Wrapper.ols_InitializeOls env tr); reflexivity.
Qed.

Lemma DeinitWinRing0_run s :
  Wrapper.DeinitWinRing0 s
  = (tt, Wrapper.mkState Wrapper.Globals_new
           (Wrapper.trace s ++ Wrapper.release_events (Wrapper.globals s))).
Proof.
  destruct s as [[h0 q1 q2 q3 q4 q5 ld ini err] tr].
  unfold Wrapper.DeinitWinRing0, Wrapper.release_events, Wrapper.Globals_new. wrapper_run.
  destruct ini, q2, h0; wrapper_run; rewrite <- ?app_assoc, ?app_nil_r; reflexivity.
Qed.

Lemma ReadPort_run env port s :
  Wrapper.ReadPort env port s
  = let g := Wrapper.globals s in
    if negb (Wrapper.winRingInitialized g) || is_null (Wrapper.ReadIoPortByteFunc g)
    then (0, s)
    else let v := u8 (Wrapper.ols_ReadIoPortByte env (Wrapper.trace s) (u16 port)) in
         (v, Wrapper.mkState g
               (Wrapper.trace s
                ++ [Wrapper.EvReadIoPortByte (Wrapper.ReadIoPortByteFunc g) (u16 port) v])).
Proof.
  destruct s as [[h0 q1 q2 q3 q4 q5 ld ini err] tr].
  unfold Wrapper.ReadPort. wrapper_run. destruct ini, q4; reflexivity.
Qed.

Lemma WritePort_run port value s :
  Wrapper.WritePort port value s
  = let g := Wrapper.globals s in
    if negb (Wrapper.winRingInitialized g) || is_null (Wrapper.WriteIoPortByteFunc g)
    then (tt, s)
    else (tt, Wrapper.mkState g
                (Wrapper.trace s
                 ++ [Wrapper.EvWriteIoPortByte (Wrapper.WriteIoPortByteFunc g)
                       (u16 port) (u8 value)])).
Proof.
  destruct s as [[h0 q1 q2 q3 q4 q5 ld ini err] tr].
  unfold Wrapper.WritePort. wrapper_run. destruct ini, q5; reflexivity.
Qed.

Lemma GetStatus_run env s :
  Wrapper.GetStatus env s
  = let g := Wrapper.globals s in
    if negb (Wrapper.winRingLoaded g) && negb (Wrapper.lastLoadError g =? 0)
    then (Wrapper.lastLoadError g, s)
    else if negb (is_null (Wrapper.GetDllStatusFunc g))
         then let v := u32 (Wrapper.ols_GetDllStatus env (Wrapper.trace s)) in
              (v, Wrapper.mkState g
                    (Wrapper.trace s
                     ++ [Wrapper.EvGetDllStatus (Wrapper.GetDllStatusFunc g) v]))
         else (0xFFFFFFFF, s).
Proof.
  destruct s as [[h0 q1 q2 q3 q4 q5 ld ini err] tr].
  unfold Wrapper.GetStatus. wrapper_run.
  destruct ld, (err =? 0), q3; reflexivity.
Qed.

Lemma consistent_spec g :
  Wrapper.consistent g = true
  <-> (Wrapper.winRingInitialized g = true -> Wrapper.winRingLoaded g = true)
      /\ (Wrapper.winRingLoaded g = true -> Wrapper.resolved g = true)
      /\ Wrapper.winRingLoaded g = negb (is_null (Wrapper.hWinRing0 g)).
Proof.
  unfold Wrapper.consistent.
  destruct (Wrapper.winRingInitialized g), (Wrapper.winRingLoaded g),
    (Wrapper.resolved g), (is_null (Wrapper.hWinRing0 g)); cbn; intuition congruence.
Qed.

Ltac wrapper_projections :=
  cbn [Wrapper.globals Wrapper.trace Wrapper.hWinRing0 Wrapper.InitializeOlsFunc
       Wrapper.DeinitializeOlsFunc Wrapper.GetDllStatusFunc Wrapper.ReadIoPortByteFunc
       Wrapper.WriteIoPortByteFunc Wrapper.winRingLoaded Wrapper.winRingInitialized
       Wrapper.lastLoadError fst snd] in *.

Ltac wrapper_destruct s :=
  destruct s as [[h0 q1 q2 q3 q4 q5 ld ini err] tr]; wrapper_projections.

Lemma reachable_balanced env s : Wrapper.reachable env s -> Wrapper.balanced s.
Proof.
  unfold Wrapper.balanced.
  induction 1 as [|s R IH|s R IH|s R IH|port s R IH|port value s R IH|s R IH].
  - repeat split.
  - destruct (Wrapper.winRingLoaded (Wrapper.globals s)) eqn:Hs.
    + rewrite (LoadWinRing0_loaded env s Hs). cbn [snd]. rewrite Hs. exact IH.
    + destruct IH as (C & V & B). apply consistent_spec in C. destruct C as (C1 & C2 & C3).
      pose proof (LoadWinRing0_cases env s Hs) as O.
      destruct (Wrapper.LoadWinRing0 env s) as [b s1].
      wrapper_destruct s. subst ld.
      assert (Hi : ini = false) by (destruct ini; [discriminate (C1 eq_refl)|reflexivity]).
      subst ini.
      inversion O; subst b s1; rewrite consistent_spec; wrapper_projections;
        unfold Wrapper.load_events;
        rewrite ?wrapper_live_after_app, ?wrapper_lib_refs_app, ?V, ?B,
          ?live_after_query_events, ?lib_refs_query_events;
        cbn; repeat split; congruence.
  - rewrite InitWinRing0_run. cbv zeta.
    destruct IH as (C & V & B).
    wrapper_destruct s.
    destruct ld; cbn [negb snd]; [|repeat split; assumption].
    destruct ini; cbn [snd]; [repeat split; assumption|].
    apply consistent_spec in C. destruct C as (C1 & C2 & C3). wrapper_projections.
    destruct (Wrapper.ols_InitializeOls env tr); rewrite consistent_spec;
      unfold Wrapper.set_winRingInitialized; wrapper_projections;
      rewrite wrapper_live_after_app, wrapper_lib_refs_app, V, B;
      cbn; repeat split; try congruence; auto.
  - rewrite DeinitWinRing0_run. cbn [snd].
    destruct IH as (C & V & B). apply consistent_spec in C. destruct C as (C1 & C2 & C3).
    wrapper_destruct s. unfold Wrapper.release_events. wrapper_projections.
    rewrite wrapper_live_after_app, wrapper_lib_refs_app, V, B.
    split; [reflexivity|].
    destruct h0; cbn in C3; subst ld;
      destruct (ini && negb (is_null q2)); cbn; split; reflexivity.
  - rewrite ReadPort_run. cbv zeta.
    destruct (negb (Wrapper.winRingInitialized (Wrapper.globals s))
              || is_null (Wrapper.ReadIoPortByteFunc (Wrapper.globals s))); [exact IH|].
    destruct IH as (C & V & B). cbn [snd Wrapper.globals Wrapper.trace].
    rewrite wrapper_live_after_app, wrapper_lib_refs_app, V, B.
    split; [exact C|]. cbn. split; [reflexivity|lia].
  - rewrite WritePort_run. cbv zeta.
    destruct (negb (Wrapper.winRingInitialized (Wrapper.globals s))
              || is_null (Wrapper.WriteIoPortByteFunc (Wrapper.globals s))); [exact IH|].
    destruct IH as (C & V & B). cbn [snd Wrapper.globals Wrapper.trace].
    rewrite wrapper_live_after_app, wrapper_lib_refs_app, V, B.
    split; [exact C|]. cbn. split; [reflexivity|lia].
  - rewrite GetStatus_run. cbv zeta.
    destruct (negb (Wrapper.winRingLoaded (Wrapper.globals s))
              && negb (Wrapper.lastLoadError (Wrapper.globals s) =? 0)); [exact IH|].
    destruct (negb (is_null (Wrapper.GetDllStatusFunc (Wrapper.globals s)))); [|exact IH].
    destruct IH as (C & V & B). cbn [snd Wrapper.globals Wrapper.trace].
    rewrite wrapper_live_after_app, wrapper_lib_refs_app, V, B.
    split; [exact C|]. cbn. split; [reflexivity|lia].
Qed.

Lemma reachable_guarded env s :
  Wrapper.errors_nonzero env -> Wrapper.reachable env s -> Wrapper.guarded s.
Proof.
  intros Hne. unfold Wrapper.guarded.
  induction 1 as [|s R IH|s R IH|s R IH|port s R IH|port value s R IH|s R IH].
  - split; [discriminate|reflexivity].
  - destruct (Wrapper.winRingLoaded (Wrapper.globals s)) eqn:Hs.
    + rewrite (LoadWinRing0_loaded env s Hs). cbn [snd]. rewrite Hs. exact IH.
    + destruct IH as (G & S).
      destruct (reachable_balanced env s R) as (_ & V & _).
      pose proof (LoadWinRing0_cases env s Hs) as O.
      destruct (Wrapper.LoadWinRing0 env s) as [b s1].
      wrapper_destruct s. subst ld.
      inversion O as [code [hh Hc]|h p1 p2 p3 p4 p5 code Hnull [hh Hc]|h a1 a2 a3 a4 a5];
        subst b s1; wrapper_projections; unfold Wrapper.load_events;
        rewrite ?wrapper_calls_safe_app, ?S, ?V, ?calls_safe_query_events,
          ?live_after_query_events; cbn;
        (split; [|reflexivity]); intros; try discriminate;
        rewrite Hc; apply Hne.
  - rewrite InitWinRing0_run. cbv zeta. destruct IH as (G & S).
    destruct (reachable_balanced env s R) as (C & V & _).
    apply consistent_spec in C. destruct C as (C1 & C2 & C3).
    wrapper_destruct s.
    destruct ld; cbn [negb snd]; [|split; assumption].
    destruct ini; cbn [snd]; [split; assumption|].
    specialize (C2 eq_refl). unfold Wrapper.resolved in C2. wrapper_projections.
    destruct q1; [|discriminate C2].
    destruct (Wrapper.ols_InitializeOls env tr);
      unfold Wrapper.set_winRingInitialized; wrapper_projections;
      rewrite wrapper_calls_safe_app, S, V; cbn; (split; [|reflexivity]);
      intros; discriminate.
  - rewrite DeinitWinRing0_run. cbn [snd]. destruct IH as (G & S).
    destruct (reachable_balanced env s R) as (C & V & _).
    apply consistent_spec in C. destruct C as (C1 & C2 & C3).
    wrapper_destruct s. unfold Wrapper.release_events. wrapper_projections.
    split; [intros _ E; discriminate E|].
    rewrite wrapper_calls_safe_app, S, V.
    destruct ini; [rewrite (C1 eq_refl)|]; destruct q2, h0; reflexivity.
  - rewrite ReadPort_run. cbv zeta. destruct IH as (G & S).
    destruct (reachable_balanced env s R) as (C & V & _).
    apply consistent_spec in C. destruct C as (C1 & C2 & C3).
    wrapper_destruct s.
    destruct ini; cbn [negb orb snd]; [|split; assumption].
    destruct q4; cbn [is_null snd]; [|split; assumption].
    wrapper_projections. split; [exact G|].
    rewrite wrapper_calls_safe_app, S, V, (C1 eq_refl). reflexivity.
  - rewrite WritePort_run. cbv zeta. destruct IH as (G & S).
    destruct (reachable_balanced env s R) as (C & V & _).
    apply consistent_spec in C. destruct C as (C1 & C2 & C3).
    wrapper_destruct s.
    destruct ini; cbn [negb orb snd]; [|split; assumption].
    destruct q5; cbn [is_null snd]; [|split; assumption].
    wrapper_projections. split; [exact G|].
    rewrite wrapper_calls_safe_app, S, V, (C1 eq_refl). reflexivity.
  - rewrite GetStatus_run. cbv zeta. destruct IH as (G & S).
    destruct (reachable_balanced env s R) as (C & V & _).
    wrapper_destruct s.
    destruct (negb ld && negb (err =? 0)) eqn:E; cbn [snd]; [split; assumption|].
    destruct q3; cbn [is_null negb snd]; [|split; assumption].
    wrapper_projections. split; [exact G|].
    rewrite wrapper_calls_safe_app, S, V.
    destruct ld; [reflexivity|].
    cbn [negb andb] in E. apply negb_false_iff, Z.eqb_eq in E.
    exfalso. apply (G eq_refl eq_refl). exact E.
Qed.

(** *** The directory of the wrapper *)

Lemma find_last_of_none s chars :
  Forall (fun c => existsb (Z.eqb c) chars = false) s ->
  Wrapper.find_last_of s chars = None.
Proof.
  induction 1 as [|c rest Hc _ IH]; [reflexivity|].
  cbn [Wrapper.find_last_of]. rewrite IH, Hc. reflexivity.
Qed.

Lemma find_last_of_last dir sep file chars :
  existsb (Z.eqb sep) chars = true ->
  Forall (fun c => existsb (Z.eqb c) chars = false) file ->
  Wrapper.find_last_of (dir ++ sep :: file) chars = Some (List.length dir).
Proof.
  intros Hs Hf. induction dir as [|d dir IH]; cbn [app Wrapper.find_last_of List.length].
  - rewrite (find_last_of_none file chars Hf), Hs. reflexivity.
  - rewrite IH. reflexivity.
Qed.

Lemma not_separator c : c <> 92 /\ c <> 47 -> existsb (Z.eqb c) (Wrapper.L "\/") = false.
Proof.
  intros [H1 H2]. change (Wrapper.L "\/") with [92; 47]. cbn [existsb].
  apply Z.eqb_neq in H1, H2. rewrite H1, H2. reflexivity.
Qed.

Lemma GetModuleDirectory_of_path env hModule s dir sep file :
  Wrapper.module_path env hModule = dir ++ sep :: file ->
  sep = 92 \/ sep = 47 ->
  Forall (fun c => c <> 92 /\ c <> 47) file ->
  fst (Wrapper.GetModuleDirectory env hModule s) = dir.
Proof.
  intros Hp Hs Hf. rewrite GetModuleDirectory_run. cbn [fst].
  unfold Wrapper.directory_of. rewrite Hp.
  rewrite (find_last_of_last dir sep file).
  - rewrite firstn_app, firstn_all, Nat.sub_diag. cbn [firstn]. apply app_nil_r.
  - destruct Hs as [-> | ->]; reflexivity.
  - apply Forall_forall. intros c Hc. rewrite Forall_forall in Hf.
    apply not_separator, Hf, Hc.
Qed.

Lemma GetModuleDirectory_no_separator env hModule s :
  Forall (fun c => c <> 92 /\ c <> 47) (Wrapper.module_path env hModule) ->
  fst (Wrapper.GetModuleDirectory env hModule s) = Wrapper.L ".".
Proof.
  intros Hf. rewrite GetModuleDirectory_run. cbn [fst].
  unfold Wrapper.directory_of. rewrite find_last_of_none; [reflexivity|].
  apply Forall_forall. intros c Hc. rewrite Forall_forall in Hf.
  apply not_separator, Hf, Hc.
Qed.

Lemma wrapper_events_since tr g evs :
  Wrapper.events_since tr (Wrapper.mkState g (tr ++ evs)) = evs.
Proof.
  unfold Wrapper.events_since. cbn [Wrapper.trace].
  rewrite skipn_app, skipn_all, Nat.sub_diag. reflexivity.
Qed.

Lemma LoadWinRing0_first_events env s :
  Wrapper.winRingLoaded (Wrapper.globals s) = false ->
  exists h rest,
    Wrapper.events_since (Wrapper.trace s) (snd (Wrapper.LoadWinRing0 env s))
    = Wrapper.query_events env (Wrapper.self_handle env s)
      ++ Wrapper.EvLoadLibraryW (Wrapper.winring_path env (Wrapper.self_handle env s)) h
         :: rest.
Proof.
  intros Hs. pose proof (LoadWinRing0_cases env s Hs) as O.
  destruct (Wrapper.LoadWinRing0 env s) as [b s1]. cbn [fst snd] in *.
  inversion O; subst; rewrite wrapper_events_since; unfold Wrapper.load_events;
    cbn [app]; eexists; eexists; reflexivity.
Qed.

(** X16. [LoadWinRing0] looks for WinRing0x64.dll next to the wrapper
    DLL.  When WinRing0 is not loaded its calls start with
    [GetModuleHandleExW], for the handle of the wrapper itself, and the
    calls of [GetModuleFileNameW] on that handle by the loop of
    [GetModuleDirectory]: each call but the last comes back with the
    buffer full, the last copies the whole file name into a larger
    buffer.  The next call is [LoadLibraryW], on the directory
    [GetModuleDirectory] gives for that handle followed by
    [\WinRing0x64.dll].  The directory is the file name up to its last
    backslash or slash, whatever the length of the name is; for a name
    without separator the path is [.\WinRing0x64.dll], relative to the
    current directory. *)
Theorem wrapper_LoadWinRing0_path env s :
  Wrapper.winRingLoaded (Wrapper.globals s) = false ->
  let hSelf := Wrapper.os_GetModuleHandleExW env (Wrapper.trace s) in
  (exists retries n h rest,
     Wrapper.events_since (Wrapper.trace s) (snd (Wrapper.LoadWinRing0 env s))
     = Wrapper.EvGetModuleHandleExW hSelf
       :: retries
       ++ Wrapper.EvGetModuleFileNameW hSelf n
            (Z.of_nat (List.length (Wrapper.module_path env hSelf)))
       :: Wrapper.EvLoadLibraryW
            (fst (Wrapper.GetModuleDirectory env hSelf s) ++ Wrapper.L "\WinRing0x64.dll") h
       :: rest
     /\ Forall (fun e => exists m, e = Wrapper.EvGetModuleFileNameW hSelf m m) retries
     /\ Z.of_nat (List.length (Wrapper.module_path env hSelf)) < n)
  /\ (forall hModule s0 dir sep file,
        Wrapper.module_path env hModule = dir ++ sep :: file ->
        sep = 92 \/ sep = 47 ->
        Forall (fun c => c <> 92 /\ c <> 47) file ->
        fst (Wrapper.GetModuleDirectory env hModule s0) = dir)
  /\ (forall hModule s0,
        Forall (fun c => c <> 92 /\ c <> 47) (Wrapper.module_path env hModule) ->
        fst (Wrapper.GetModuleDirectory env hModule s0) = Wrapper.L ".").
Proof.
  intros Hs hSelf. split; [|split].
  - destruct (LoadWinRing0_first_events env s Hs) as (h & rest & E).
    destruct (file_name_events_last hSelf (Wrapper.module_path env hSelf)
                (List.length (Wrapper.module_path env hSelf)) 0)
      as (retries & n & Eq & F & Hn); [unfold Wrapper.MAX_PATH; lia|].
    exists retries, n, h, rest. split; [|split; assumption].
    rewrite E, GetModuleDirectory_run. cbn [fst].
    unfold Wrapper.query_events, Wrapper.self_handle. fold hSelf.
    rewrite Eq. cbn [app]. rewrite <- app_assoc. reflexivity.
  - intros hModule s0 dir sep file. apply GetModuleDirectory_of_path.
  - intros hModule s0. apply GetModuleDirectory_no_separator.
Qed.

Lemma wrapper_LoadWinRing0_path_witness :
  (exists retries n h rest,
     Wrapper.events_since (Wrapper.trace Wrapper.State_new)
       (snd (Wrapper.LoadWinRing0 Wrapper.installed_env Wrapper.State_new))
     = Wrapper.EvGetModuleHandleExW (Some 0x30000)
       :: retries
       ++ Wrapper.EvGetModuleFileNameW (Some 0x30000) n 26
       :: Wrapper.EvLoadLibraryW (Wrapper.L "C:\fan\WinRing0x64.dll") h
       :: rest
     /\ Forall (fun e => exists m, e = Wrapper.EvGetModuleFileNameW (Some 0x30000) m m)
          retries
     /\ 26 < n)
  /\ (forall hModule s0 dir sep file,
        Wrapper.module_path Wrapper.installed_env hModule = dir ++ sep :: file ->
        sep = 92 \/ sep = 47 ->
        Forall (fun c => c <> 92 /\ c <> 47) file ->
        fst (Wrapper.GetModuleDirectory Wrapper.installed_env hModule s0) = dir)
  /\ (forall hModule s0,
        Forall (fun c => c <> 92 /\ c <> 47)
          (Wrapper.module_path Wrapper.installed_env hModule) ->
        fst (Wrapper.GetModuleDirectory Wrapper.installed_env hModule s0) = Wrapper.L ".").
Proof.
  exact (wrapper_LoadWinRing0_path Wrapper.installed_env Wrapper.State_new eq_refl).
Defined.

(** The wrapper installed in [C:\fan]: one query is enough, and
    WinRing0 is looked for in [C:\fan]. *)
Example installed_directory :
  fst (Wrapper.GetModuleDirectory Wrapper.installed_env (Some 0x30000) Wrapper.State_new)
  = Wrapper.L "C:\fan"
  /\ firstn 3 (Wrapper.trace
                 (snd (Wrapper.LoadWinRing0 Wrapper.installed_env Wrapper.State_new)))
     = [Wrapper.EvGetModuleHandleExW (Some 0x30000);
        Wrapper.EvGetModuleFileNameW (Some 0x30000) 260 26;
        Wrapper.EvLoadLibraryW (Wrapper.L "C:\fan\WinRing0x64.dll") (Some 0x20000)].
Proof. split; vm_compute; reflexivity. Qed.

(** A file name of 320 code units: the first query comes back with the
    buffer of 260 full, the second copies the name into 520. *)
Example long_path_queries :
  firstn 4 (Wrapper.trace
              (snd (Wrapper.LoadWinRing0
                      (Wrapper.mock_env
                         (repeat 97 300 ++ Wrapper.L "\winring_wrapper.dll") true)
                      Wrapper.State_new)))
  = [Wrapper.EvGetModuleHandleExW (Some 0x30000);
     Wrapper.EvGetModuleFileNameW (Some 0x30000) 260 260;
     Wrapper.EvGetModuleFileNameW (Some 0x30000) 520 320;
     Wrapper.EvLoadLibraryW (repeat 97 300 ++ Wrapper.L "\WinRing0x64.dll")
       (Some 0x20000)].
Proof. vm_compute. reflexivity. Qed.

Example running_state_reachable :
  Wrapper.reachable Wrapper.installed_env Wrapper.running_state.
Proof.
  unfold Wrapper.running_state.
  apply Wrapper.reach_InitWinRing0, Wrapper.reach_LoadWinRing0, Wrapper.reach_new.
Qed.

Lemma installed_errors_nonzero : Wrapper.errors_nonzero Wrapper.installed_env.
Proof. intros h. vm_compute. discriminate. Qed.

(** *** The state of the wrapper *)

(** X17. In every state the exported functions can reach from the
    initial one, in any order and whatever the loader and WinRing0
    answer: initialised implies loaded, loaded implies that the five
    function pointers are set, the handle is set exactly when the
    loaded flag is, WinRing0 has been loaded once more than freed
    exactly when the loaded flag is set, and after [DeinitWinRing0]
    every load has been matched by a [FreeLibrary]. *)
Theorem wrapper_reachable_consistent env s :
  Wrapper.reachable env s ->
  (Wrapper.winRingInitialized (Wrapper.globals s) = true ->
   Wrapper.winRingLoaded (Wrapper.globals s) = true)
  /\ (Wrapper.winRingLoaded (Wrapper.globals s) = true ->
      Wrapper.resolved (Wrapper.globals s) = true)
  /\ Wrapper.winRingLoaded (Wrapper.globals s)
     = negb (is_null (Wrapper.hWinRing0 (Wrapper.globals s)))
  /\ Wrapper.lib_refs (Wrapper.trace s)
     = (if Wrapper.winRingLoaded (Wrapper.globals s) then 1 else 0)
  /\ Wrapper.lib_refs (Wrapper.trace (snd (Wrapper.DeinitWinRing0 s))) = 0.
Proof.
  intros R.
  destruct (reachable_balanced env _ (Wrapper.reach_DeinitWinRing0 env s R)) as (_ & _ & B').
  destruct (reachable_balanced env s R) as (C & _ & B).
  apply consistent_spec in C. destruct C as (C1 & C2 & C3).
  repeat split; try assumption.
  rewrite B'. rewrite DeinitWinRing0_run. reflexivity.
Qed.

Lemma wrapper_reachable_consistent_witness :
  (Wrapper.winRingInitialized (Wrapper.globals Wrapper.running_state) = true ->
   Wrapper.winRingLoaded (Wrapper.globals Wrapper.running_state) = true)
  /\ (Wrapper.winRingLoaded (Wrapper.globals Wrapper.running_state) = true ->
      Wrapper.resolved (Wrapper.globals Wrapper.running_state) = true)
  /\ Wrapper.winRingLoaded (Wrapper.globals Wrapper.running_state)
     = negb (is_null (Wrapper.hWinRing0 (Wrapper.globals Wrapper.running_state)))
  /\ Wrapper.lib_refs (Wrapper.trace Wrapper.running_state)
     = (if Wrapper.winRingLoaded (Wrapper.globals Wrapper.running_state) then 1 else 0)
  /\ Wrapper.lib_refs (Wrapper.trace (snd (Wrapper.DeinitWinRing0 Wrapper.running_state)))
     = 0.
Proof.
  exact (wrapper_reachable_consistent Wrapper.installed_env Wrapper.running_state
           (Wrapper.reach_InitWinRing0 _ _
              (Wrapper.reach_LoadWinRing0 _ _ (Wrapper.reach_new _)))).
Defined.

(** X18. When [GetLastError] never answers 0, no exported function
    ever calls through a function pointer that is null or that points
    into a WinRing0 that is not loaded at the time of the call, in any
    order of calls: in particular the pointers a failed [LoadWinRing0]
    leaves set after freeing the library are never called. *)
Theorem wrapper_calls_are_safe env s :
  Wrapper.errors_nonzero env ->
  Wrapper.reachable env s ->
  Wrapper.calls_safe false (Wrapper.trace s) = true.
Proof. intros Hne R. exact (proj2 (reachable_guarded env s Hne R)). Qed.

Lemma wrapper_calls_are_safe_witness :
  Wrapper.calls_safe false (Wrapper.trace Wrapper.running_state) = true.
Proof.
  exact (wrapper_calls_are_safe Wrapper.installed_env Wrapper.running_state
           installed_errors_nonzero
           (Wrapper.reach_InitWinRing0 _ _
              (Wrapper.reach_LoadWinRing0 _ _ (Wrapper.reach_new _)))).
Defined.

(** X19. [DeinitWinRing0] puts every global back to its initial value
    from any state, so a second call changes nothing and makes no call;
    from a reachable state it calls [DeinitializeOls] exactly when the
    driver is initialised and [FreeLibrary] on the handle exactly when
    WinRing0 is loaded. *)
Theorem wrapper_DeinitWinRing0_resets env s :
  Wrapper.globals (snd (Wrapper.DeinitWinRing0 s)) = Wrapper.Globals_new
  /\ Wrapper.DeinitWinRing0 (snd (Wrapper.DeinitWinRing0 s))
     = (tt, snd (Wrapper.DeinitWinRing0 s))
  /\ (Wrapper.reachable env s ->
      exists deinit free,
        Wrapper.events_since (Wrapper.trace s) (snd (Wrapper.DeinitWinRing0 s))
        = deinit ++ free
        /\ (if Wrapper.winRingInitialized (Wrapper.globals s)
            then exists fn, deinit = [Wrapper.EvDeinitializeOls (Some fn)]
            else deinit = [])
        /\ (if Wrapper.winRingLoaded (Wrapper.globals s)
            then exists h, Wrapper.hWinRing0 (Wrapper.globals s) = Some h
                           /\ free = [Wrapper.EvFreeLibrary (Some h)]
            else free = [])).
Proof.
  rewrite !DeinitWinRing0_run. cbn [snd Wrapper.globals Wrapper.trace].
  split; [reflexivity|]. split.
  - unfold Wrapper.release_events, Wrapper.Globals_new. wrapper_projections.
    cbn. rewrite app_nil_r. reflexivity.
  - intros R. destruct (reachable_balanced env s R) as (C & _ & _).
    apply consistent_spec in C. destruct C as (C1 & C2 & C3).
    rewrite wrapper_events_since. unfold Wrapper.release_events.
    eexists. eexists. split; [reflexivity|].
    wrapper_destruct s. unfold Wrapper.resolved in C2. wrapper_projections.
    destruct ini.
    + rewrite (C1 eq_refl) in *. specialize (C2 eq_refl).
      destruct q2; [|destruct q1; discriminate C2].
      destruct h0; [|discriminate C3].
      split; [exists z; reflexivity|]. exists z0. split; reflexivity.
    + split; [reflexivity|]. destruct ld.
      * destruct h0; [|discriminate C3]. exists z. split; reflexivity.
      * destruct h0; [discriminate C3|]. reflexivity.
Qed.

(** X20. In a reachable state the two port functions pass the access
    on to WinRing0 exactly when the driver is initialised: [ReadPort]
    then makes one call of [ReadIoPortByte] on the 16-bit port and
    returns its byte, [WritePort] makes one call of [WriteIoPortByte]
    with the 16-bit port and the byte; otherwise [ReadPort] returns 0
    and neither makes a call nor changes anything.  [InitWinRing0]
    before a successful [LoadWinRing0] returns false without a call. *)
Theorem wrapper_port_functions env port value s :
  Wrapper.reachable env s ->
  (Wrapper.winRingInitialized (Wrapper.globals s) = true ->
   exists rd wr,
     Wrapper.ReadIoPortByteFunc (Wrapper.globals s) = Some rd
     /\ Wrapper.WriteIoPortByteFunc (Wrapper.globals s) = Some wr
     /\ Wrapper.ReadPort env port s
        = (u8 (Wrapper.ols_ReadIoPortByte env (Wrapper.trace s) (u16 port)),
           Wrapper.mkState (Wrapper.globals s)
             (Wrapper.trace s
              ++ [Wrapper.EvReadIoPortByte (Some rd) (u16 port)
                    (u8 (Wrapper.ols_ReadIoPortByte env (Wrapper.trace s) (u16 port)))]))
     /\ Wrapper.WritePort port value s
        = (tt, Wrapper.mkState (Wrapper.globals s)
                 (Wrapper.trace s
                  ++ [Wrapper.EvWriteIoPortByte (Some wr) (u16 port) (u8 value)])))
  /\ (Wrapper.winRingInitialized (Wrapper.globals s) = false ->
      Wrapper.ReadPort env port s = (0, s)
      /\ Wrapper.WritePort port value s = (tt, s))
  /\ (Wrapper.winRingLoaded (Wrapper.globals s) = false ->
      Wrapper.InitWinRing0 env s = (false, s)).
Proof.
  intros R. destruct (reachable_balanced env s R) as (C & _ & _).
  apply consistent_spec in C. destruct C as (C1 & C2 & C3).
  rewrite ReadPort_run, WritePort_run, InitWinRing0_run. cbv zeta.
  wrapper_destruct s. unfold Wrapper.resolved in C2. wrapper_projections.
  split; [|split].
  - intros ->. rewrite (C1 eq_refl) in *. specialize (C2 eq_refl).
    destruct q1, q2, q3, q4, q5; try discriminate C2.
    eexists. eexists. repeat split.
  - intros ->. split; reflexivity.
  - intros ->. reflexivity.
Qed.

Lemma wrapper_port_functions_witness :
  fst (Wrapper.ReadPort Wrapper.installed_env 0x4F Wrapper.running_state) = 0x4F.
Proof.
  destruct (wrapper_port_functions Wrapper.installed_env 0x4F 0
              Wrapper.running_state running_state_reachable) as (H & _).
  destruct (H eq_refl) as (rd & wr & _ & _ & E & _).
  rewrite E. reflexivity.
Defined.

(** X21. What [GetStatus] answers in a reachable state: with WinRing0
    loaded it is the status the driver's [GetDllStatus] gives, through
    a pointer that is set (the case the controller calls it in, after
    [InitWinRing0] failed); right after a [LoadWinRing0] that failed,
    when [GetLastError] does not answer 0, it is the error code
    recorded by that call, without any call to the driver; in the
    initial state it is 0xFFFFFFFF. *)
Theorem wrapper_GetStatus_answers env s :
  Wrapper.reachable env s ->
  (Wrapper.winRingLoaded (Wrapper.globals s) = true ->
   exists fn,
     Wrapper.GetDllStatusFunc (Wrapper.globals s) = Some fn
     /\ Wrapper.GetStatus env s
        = (u32 (Wrapper.ols_GetDllStatus env (Wrapper.trace s)),
           Wrapper.mkState (Wrapper.globals s)
             (Wrapper.trace s
              ++ [Wrapper.EvGetDllStatus (Some fn)
                    (u32 (Wrapper.ols_GetDllStatus env (Wrapper.trace s)))])))
  /\ (Wrapper.errors_nonzero env ->
      Wrapper.winRingLoaded (Wrapper.globals s) = false ->
      fst (Wrapper.LoadWinRing0 env s) = false ->
      let s1 := snd (Wrapper.LoadWinRing0 env s) in
      Wrapper.GetStatus env s1 = (Wrapper.lastLoadError (Wrapper.globals s1), s1)
      /\ Wrapper.lastLoadError (Wrapper.globals s1) <> 0
      /\ In (Wrapper.EvGetLastError (Wrapper.lastLoadError (Wrapper.globals s1)))
            (Wrapper.events_since (Wrapper.trace s) s1))
  /\ Wrapper.GetStatus env Wrapper.State_new = (0xFFFFFFFF, Wrapper.State_new).
Proof.
  intros R. split; [|split; [|reflexivity]].
  - intros Hl. destruct (reachable_balanced env s R) as (C & _ & _).
    apply consistent_spec in C. destruct C as (C1 & C2 & C3).
    rewrite GetStatus_run. cbv zeta.
    wrapper_destruct s. subst ld. specialize (C2 eq_refl).
    unfold Wrapper.resolved in C2. wrapper_projections.
    destruct q1, q2, q3; try discriminate C2.
    exists z1. split; reflexivity.
  - intros Hne Hl Hf. cbv zeta.
    pose proof (LoadWinRing0_cases env s Hl) as O.
    destruct (Wrapper.LoadWinRing0 env s) as [b s1]. cbn [fst snd] in *. subst b.
    inversion O as [code [hh Hc]|h p1 p2 p3 p4 p5 code Hnull [hh Hc]|];
      subst s1; rewrite GetStatus_run, wrapper_events_since; cbv zeta;
      wrapper_projections;
      assert (N : code <> 0) by (rewrite Hc; apply Hne);
      apply Z.eqb_neq in N; rewrite N; cbn [negb andb];
      (split; [reflexivity|]); (split; [apply Z.eqb_neq, N|]);
      rewrite !in_app_iff; cbn [In]; tauto.
Qed.

Lemma wrapper_GetStatus_answers_witness :
  fst (Wrapper.GetStatus (Wrapper.missing_env (Wrapper.L "C:\fan\winring_wrapper.dll"))
         (snd (Wrapper.LoadWinRing0
                 (Wrapper.missing_env (Wrapper.L "C:\fan\winring_wrapper.dll"))
                 Wrapper.State_new)))
  = 126.
Proof.
  destruct (wrapper_GetStatus_answers
              (Wrapper.missing_env (Wrapper.L "C:\fan\winring_wrapper.dll"))
              Wrapper.State_new (Wrapper.reach_new _)) as (_ & H & _).
  assert (Hne : Wrapper.errors_nonzero
                  (Wrapper.missing_env (Wrapper.L "C:\fan\winring_wrapper.dll")))
    by (intros h; vm_compute; discriminate).
  destruct (H Hne eq_refl eq_refl) as (E & _).
  rewrite E. reflexivity.
Defined.

(** Without the assumption on [GetLastError] the pointers a failed
    [LoadWinRing0] leaves behind can be called: here [GetStatus] calls
    [GetDllStatus] of a library that has been freed. *)
Example dangling_GetDllStatus_call :
  fst (Wrapper.LoadWinRing0 Wrapper.silent_env Wrapper.State_new) = false
  /\ Wrapper.events_since
       (Wrapper.trace (snd (Wrapper.LoadWinRing0 Wrapper.silent_env Wrapper.State_new)))
       (snd (Wrapper.GetStatus Wrapper.silent_env
               (snd (Wrapper.LoadWinRing0 Wrapper.silent_env Wrapper.State_new))))
     = [Wrapper.EvGetDllStatus (Some 0x2100C) 1]
  /\ Wrapper.calls_safe false
       (Wrapper.trace
          (snd (Wrapper.GetStatus Wrapper.silent_env
                  (snd (Wrapper.LoadWinRing0 Wrapper.silent_env Wrapper.State_new)))))
     = false.
Proof. repeat split; vm_compute; reflexivity. Qed.
